(** * Rijksmuseum MCP client: tool orchestration and streaming-chat bridge

    A shallow embedding of the main-process client ([MCPClient], the
    newest revision of the Electron main file) and of the two language-model
    services ([ClaudeService], [OllamaService]), followed by the properties
    of the specification that were checked against them.

    Conventions of the embedding.
    - JavaScript strings are modelled as [string] (sequences of 8-bit
      characters); case mapping and white space are the ASCII ones, so the
      model speaks about ASCII messages.
    - Values whose TypeScript type is [any] (tool results, the cache fed by
      them, parsed stream lines) are modelled dynamically as [json], with
      [undefined] as [None] of [jsval].  Numbers are the integers that a
      double holds exactly and prints in full (below 2^53 in absolute
      value).
    - [async]/[await] is sequential composition: one request is in flight
      at a time.  Side effects are recorded in a chronological trace.
    - [console.log]/[console.error] calls are not modelled. *)

From Stdlib Require Import String Ascii List ZArith Lia Bool Arith.
From Stdlib Require Import DecimalString.
Import ListNotations.
Open Scope string_scope.
Open Scope list_scope.

Set Implicit Arguments.
Set Warnings "-register-all".

(* ================================================================== *)
(** * JavaScript strings *)
(* ================================================================== *)

Module JsString.

Definition code (c : ascii) : nat := nat_of_ascii c.

Definition between (lo hi : nat) (c : ascii) : bool :=
  Nat.leb lo (code c) && Nat.leb (code c) hi.

Definition is_upper : ascii -> bool := between 65 90.
Definition is_lower : ascii -> bool := between 97 122.
Definition is_letter (c : ascii) : bool := is_upper c || is_lower c.
Definition is_digit : ascii -> bool := between 48 57.

(** [\s] and the characters removed by [trim], restricted to ASCII:
    TAB, LF, VT, FF, CR and SPACE. *)
Definition is_space (c : ascii) : bool :=
  between 9 13 c || Nat.eqb (code c) 32.

(** Line terminators, which [.] does not match. *)
Definition is_line_terminator (c : ascii) : bool :=
  Nat.eqb (code c) 10 || Nat.eqb (code c) 13.

Definition lower_char (c : ascii) : ascii :=
  if is_upper c then ascii_of_nat (code c + 32) else c.

(** [String.prototype.toLowerCase] *)
Fixpoint toLowerCase (s : string) : string :=
  match s with
  | EmptyString => EmptyString
  | String c s' => String (lower_char c) (toLowerCase s')
  end.

(** [String.prototype.startsWith] *)
Fixpoint startsWith (s p : string) : bool :=
  match p, s with
  | EmptyString, _ => true
  | String _ _, EmptyString => false
  | String a p', String b s' => Ascii.eqb a b && startsWith s' p'
  end.

(** [String.prototype.includes] *)
Fixpoint includes (s t : string) : bool :=
  startsWith s t ||
  match s with
  | EmptyString => false
  | String _ s' => includes s' t
  end.

Fixpoint trimStart (s : string) : string :=
  match s with
  | EmptyString => EmptyString
  | String c s' => if is_space c then trimStart s' else s
  end.

Fixpoint trimEnd (s : string) : string :=
  match s with
  | EmptyString => EmptyString
  | String c s' =>
      match trimEnd s' with
      | EmptyString => if is_space c then EmptyString else String c EmptyString
      | r => String c r
      end
  end.

(** [String.prototype.trim] *)
Definition trim (s : string) : string := trimEnd (trimStart s).

Definition is_empty (s : string) : bool :=
  match s with EmptyString => true | _ => false end.

(** [Array.prototype.join] on an array of strings. *)
Fixpoint join (sep : string) (l : list string) : string :=
  match l with
  | [] => ""
  | [x] => x
  | x :: rest => x ++ sep ++ join sep rest
  end.

(** [String.prototype.split] with a non-empty separator: [skip] counts the
    characters of a recognised separator that are still to be dropped. *)
Fixpoint split_go (sep : string) (skip : nat) (acc : string) (s : string)
  : list string :=
  match s with
  | EmptyString => [acc]
  | String c s' =>
      match skip with
      | S k => split_go sep k acc s'
      | O =>
          if startsWith s sep
          then acc :: split_go sep (String.length sep - 1) "" s'
          else split_go sep 0 (acc ++ String c "") s'
      end
  end.

Definition split (s sep : string) : list string := split_go sep 0 "" s.

End JsString.

(* ================================================================== *)
(** * Regular expressions

    A backtracking matcher with the priority semantics of JavaScript
    regular expressions, for the constructs the program's literals use:
    character classes, sequence, ordered alternation, greedy and lazy
    repetition, capture groups and the [^] anchor.  Every regular
    expression literal of the source is transcribed as a term of [re]. *)
(* ================================================================== *)

Module Regex.

Inductive re : Type :=
| Eps
| Bol                                   (* ^ (no multiline flag) *)
| Chr (p : ascii -> bool)               (* one character of a class *)
| Seq (r1 r2 : re)
| Alt (r1 r2 : re)                      (* r1|r2, r1 first *)
| Star (greedy : bool) (r : re)         (* r* and r*? *)
| Group (i : nat) (r : re).             (* capture group number i *)

Definition Plus (r : re) : re := Seq r (Star true r).       (* r+ *)
Definition LazyPlus (r : re) : re := Seq r (Star false r).  (* r+? *)
Definition Opt (r : re) : re := Alt r Eps.                  (* r? *)

(** A literal under the [i] flag. *)
Fixpoint lit (s : string) : re :=
  match s with
  | EmptyString => Eps
  | String c EmptyString =>
      Chr (fun a => Ascii.eqb (JsString.lower_char a) (JsString.lower_char c))
  | String c s' =>
      Seq (Chr (fun a => Ascii.eqb (JsString.lower_char a) (JsString.lower_char c)))
          (lit s')
  end.

Fixpoint alts (l : list re) : re :=
  match l with
  | [] => Chr (fun _ => false)
  | [r] => r
  | r :: rest => Alt r (alts rest)
  end.

Definition space : re := Chr JsString.is_space.                               (* \s *)
Definition digit : re := Chr JsString.is_digit.                               (* \d *)
Definition letter : re := Chr JsString.is_letter.                             (* [A-Z] under i *)
Definition dot : re := Chr (fun c => negb (JsString.is_line_terminator c)).   (* . *)

(** Captures: the most recent binding of a group comes first. *)
Definition caps := list (nat * list ascii).

Fixpoint cap (i : nat) (c : caps) : option (list ascii) :=
  match c with
  | [] => None
  | (j, v) :: rest => if Nat.eqb i j then Some v else cap i rest
  end.

Section Run.
Variable A : Type.

(** A continuation receives the position reached, the rest of the input
    and the captures; [None] makes the matcher backtrack. *)
Definition cont := nat -> list ascii -> caps -> option A.

(** The repetition of [step], greedy or lazy.  An iteration that consumes
    nothing is rejected, so [fuel] bounds the number of iterations when it
    is at least the length of the input. *)
Fixpoint iterate (step : nat -> list ascii -> caps -> cont -> option A)
  (greedy : bool) (k : cont) (fuel : nat) (pos : nat) (s : list ascii) (c : caps)
  {struct fuel} : option A :=
  match fuel with
  | O => k pos s c
  | S fuel' =>
      if greedy then
        match step pos s c
                (fun pos' s' c' =>
                   if Nat.ltb pos pos'
                   then iterate step greedy k fuel' pos' s' c'
                   else None)
        with
        | Some x => Some x
        | None => k pos s c
        end
      else
        match k pos s c with
        | Some x => Some x
        | None =>
            step pos s c
              (fun pos' s' c' =>
                 if Nat.ltb pos pos'
                 then iterate step greedy k fuel' pos' s' c'
                 else None)
        end
  end.

Fixpoint run (r : re) (pos : nat) (s : list ascii) (c : caps) (k : cont)
  {struct r} : option A :=
  match r with
  | Eps => k pos s c
  | Bol => if Nat.eqb pos 0 then k pos s c else None
  | Chr p =>
      match s with
      | a :: s' => if p a then k (S pos) s' c else None
      | [] => None
      end
  | Seq r1 r2 => run r1 pos s c (fun pos' s' c' => run r2 pos' s' c' k)
  | Alt r1 r2 =>
      match run r1 pos s c k with
      | Some x => Some x
      | None => run r2 pos s c k
      end
  | Star greedy r1 => iterate (run r1) greedy k (List.length s) pos s c
  | Group i r1 =>
      run r1 pos s c
        (fun pos' s' c' => k pos' s' ((i, firstn (pos' - pos) s) :: c'))
  end.

End Run.

(** One match: where it starts, where it ends, and its captures. *)
Record found : Type := { m_start : nat; m_end : nat; m_caps : caps }.

(** The leftmost match at or after the current position; [s] is the input
    from position [pos] on. *)
Fixpoint search (r : re) (pos : nat) (s : list ascii) : option found :=
  match run r pos s [] (fun e _ c => Some (e, c)) with
  | Some (e, c) => Some {| m_start := pos; m_end := e; m_caps := c |}
  | None =>
      match s with
      | [] => None
      | _ :: s' => search r (S pos) s'
      end
  end.

(** [str.match(r)] for a regular expression without the [g] flag: the
    matched text and a lookup of the capture groups, or [None] for [null]. *)
Definition exec (r : re) (str : string) : option (string * (nat -> option string)) :=
  let s := list_ascii_of_string str in
  match search r 0 s with
  | None => None
  | Some m =>
      Some (string_of_list_ascii (firstn (m_end m - m_start m) (skipn (m_start m) s)),
            fun i => option_map string_of_list_ascii (cap i (m_caps m)))
  end.

(** [str.replace(r, rep)] without the [g] flag: the first match only. *)
Definition replace (r : re) (rep : string) (str : string) : string :=
  let s := list_ascii_of_string str in
  match search r 0 s with
  | None => str
  | Some m =>
      string_of_list_ascii
        (firstn (m_start m) s ++ list_ascii_of_string rep ++ skipn (m_end m) s)
  end.

(** [str.replace(r, rep)] with the [g] flag: every match, left to right,
    the search resuming where the previous match ended (one character
    further after an empty match).  [s] is the input from [pos] on. *)
Fixpoint replace_from (fuel : nat) (r : re) (rep : list ascii)
  (pos : nat) (s : list ascii) : list ascii :=
  match fuel with
  | O => s
  | S fuel' =>
      match search r pos s with
      | None => s
      | Some m =>
          let before := firstn (m_start m - pos) s in
          if Nat.eqb (m_end m) (m_start m) then
            match skipn (m_start m - pos) s with
            | [] => before ++ rep
            | a :: rest =>
                before ++ rep ++ a :: replace_from fuel' r rep (S (m_start m)) rest
            end
          else
            before ++ rep
              ++ replace_from fuel' r rep (m_end m) (skipn (m_end m - pos) s)
      end
  end.

Definition replaceAll (r : re) (rep : string) (str : string) : string :=
  let s := list_ascii_of_string str in
  string_of_list_ascii
    (replace_from (S (List.length s)) r (list_ascii_of_string rep) 0 s).

End Regex.

(* ================================================================== *)
(** * JavaScript values, exceptions *)
(* ================================================================== *)

(** Values that [JSON.parse] produces and that the program passes around
    with type [any].  An object holds each key once; numbers are the
    integers (no other number is inspected by the program). *)
Inductive json : Type :=
| JNull
| JBool (b : bool)
| JNum (n : Z)
| JStr (s : string)
| JArr (items : list json)
| JObj (fields : list (string * json)).

(** A value or [undefined]. *)
Definition jsval : Type := option json.
Definition undefined : jsval := None.

(** An [Error] instance: its name, its message and the [status] own
    property a transport may have attached. *)
Record JsError : Type := mkError {
  err_name : string;
  err_message : string;
  err_status : jsval
}.

(** What a [throw] (or a rejected promise) carries: an [Error] instance,
    or any other value. *)
Inductive Thrown : Type :=
| ThrowError (e : JsError)
| ThrowValue (v : jsval).

(** [new Error(message)] *)
Definition new_Error (message : string) : Thrown :=
  ThrowError {| err_name := "Error"; err_message := message; err_status := undefined |}.

(** The [TypeError] raised by the engine itself (property read on
    [null]/[undefined], call of a non-function). *)
Definition TypeError (message : string) : Thrown :=
  ThrowError {| err_name := "TypeError"; err_message := message; err_status := undefined |}.

Inductive Outcome (A : Type) : Type :=
| Returned (a : A)
| Threw (t : Thrown).
Arguments Returned {A} a.
Arguments Threw {A} t.

Definition obind {A B : Type} (o : Outcome A) (k : A -> Outcome B) : Outcome B :=
  match o with
  | Returned a => k a
  | Threw t => Threw t
  end.

Declare Scope js_scope.
Delimit Scope js_scope with js.
Notation "'let?' x ':=' e 'in' k" := (obind e (fun x => k))
  (at level 10, x name, e at level 100, k at level 200) : js_scope.
Open Scope js_scope.

Module Js.

Fixpoint assoc (k : string) (fields : list (string * json)) : jsval :=
  match fields with
  | [] => undefined
  | (k', v) :: rest => if String.eqb k k' then Some v else assoc k rest
  end.

(** Property read [v.k] for the data keys the program reads (none of them
    is a member of a built-in prototype, except [length]). *)
Definition get (v : jsval) (k : string) : Outcome jsval :=
  match v with
  | None => Threw (TypeError ("Cannot read properties of undefined (reading '" ++ k ++ "')"))
  | Some JNull => Threw (TypeError ("Cannot read properties of null (reading '" ++ k ++ "')"))
  | Some (JObj fields) => Returned (assoc k fields)
  | Some (JStr s) =>
      Returned (if String.eqb k "length" then Some (JNum (Z.of_nat (String.length s))) else undefined)
  | Some (JArr items) =>
      Returned (if String.eqb k "length" then Some (JNum (Z.of_nat (List.length items))) else undefined)
  | Some (JNum _) | Some (JBool _) => Returned undefined
  end.

(** Optional chaining [v?.k]. *)
Definition get_opt (v : jsval) (k : string) : jsval :=
  match v with
  | None | Some JNull => undefined
  | _ => match get v k with Returned x => x | Threw _ => undefined end
  end.

(** Truthiness, as tested by [if], [?:], [||] and [!]. *)
Definition truthy (v : jsval) : bool :=
  match v with
  | None | Some JNull => false
  | Some (JBool b) => b
  | Some (JNum n) => negb (Z.eqb n 0)
  | Some (JStr s) => negb (JsString.is_empty s)
  | Some (JArr _) | Some (JObj _) => true
  end.

Definition number_to_string (n : Z) : string :=
  NilZero.string_of_int (Z.to_int n).

(** [key in obj], for a key of the object's own. *)
Definition has_own (key : string) (fields : list (string * json)) : bool :=
  match assoc key fields with
  | Some _ => true
  | None => false
  end.

Definition cannot_convert : Thrown :=
  TypeError "Cannot convert object to primitive value".

(** String conversion, as done by template literals, by [+=] on a string
    and by [join].  A parsed object converts through
    [Object.prototype.toString]; when it has a key [toString] of its own,
    that value is not callable and the inherited [valueOf] returns the
    object itself, so the conversion throws.  An array converts through
    [join], element by element. *)
Fixpoint to_string_json (v : json) : Outcome string :=
  match v with
  | JNull => Returned "null"
  | JBool true => Returned "true"
  | JBool false => Returned "false"
  | JNum n => Returned (number_to_string n)
  | JStr s => Returned s
  | JArr items =>
      let? parts :=
        (fix elements (l : list json) : Outcome (list string) :=
           match l with
           | [] => Returned []
           | x :: rest =>
               let? part := match x with
                            | JNull => Returned ""
                            | _ => to_string_json x
                            end in
               let? parts := elements rest in
               Returned (part :: parts)
           end) items in
      Returned (JsString.join "," parts)
  | JObj fields =>
      if has_own "toString" fields then Threw cannot_convert
      else Returned "[object Object]"
  end.

Definition to_string (v : jsval) : Outcome string :=
  match v with
  | None => Returned "undefined"
  | Some j => to_string_json j
  end.

(** The elements of an array as [join] converts them: holes, [null] and
    [undefined] give the empty string. *)
Fixpoint elements_to_strings (items : list json) : Outcome (list string) :=
  match items with
  | [] => Returned []
  | x :: rest =>
      let? part := match x with
                   | JNull => Returned ""
                   | _ => to_string_json x
                   end in
      let? parts := elements_to_strings rest in
      Returned (part :: parts)
  end.

(** [arr.join(sep)] *)
Definition join (sep : string) (items : list json) : Outcome string :=
  let? parts := elements_to_strings items in
  Returned (JsString.join sep parts).

(** [a === b].  Two objects (or arrays) are equal when they are the same
    object, which a model by value does not determine: [same_ref] answers
    for them. *)
Definition strict_equals (same_ref : json -> json -> bool) (a b : jsval) : bool :=
  match a, b with
  | None, None => true
  | Some JNull, Some JNull => true
  | Some (JBool x), Some (JBool y) => Bool.eqb x y
  | Some (JNum x), Some (JNum y) => Z.eqb x y
  | Some (JStr x), Some (JStr y) => String.eqb x y
  | Some (JArr x), Some (JArr y) => same_ref (JArr x) (JArr y)
  | Some (JObj x), Some (JObj y) => same_ref (JObj x) (JObj y)
  | _, _ => false
  end.

End Js.

(** An object literal built by the program: keys in source order, a value
    may be [undefined]. *)
Definition jsobject : Type := list (string * jsval).

Definition nl : string := String (ascii_of_nat 10) EmptyString.
Definition dquote : string := String (ascii_of_nat 34) EmptyString.

(* ================================================================== *)
(** * Data model *)
(* ================================================================== *)

(** [interface MCPTool] *)
Record MCPTool : Type := mkTool {
  name : string;
  description : option string;
  inputSchema : option json
}.

(** [interface LLMMessage]; the content is a string by its declared type,
    and whatever the backend answered at run time. *)
Inductive Role : Type := user | assistant.

Record LLMMessage : Type := mkMessage {
  role : Role;
  content : jsval
}.

(** [type LLMProvider] *)
Inductive LLMProvider : Type := ollama | claude.

(** One block of the [content] array of a tools/call result. *)
Record ContentBlock : Type := mkBlock {
  type : string;
  text : option string
}.

(** The tools/call result envelope; [None] stands for a [content] that is
    absent or not an array. *)
Record CallToolResult : Type := mkResult {
  result_content : option (list ContentBlock)
}.

(** Stream chunks of the Anthropic SDK. *)
Inductive Delta : Type :=
| text_delta (delta_text : string)
| other_delta (delta_type : string).

Inductive Chunk : Type :=
| content_block_delta (delta : Delta)
| other_chunk (chunk_type : string).

(** The HTTP response of the Ollama endpoint: [response.json()], and the
    reads of [response.body.getReader()] already decoded, ending with
    [done] or with a rejected read. *)
Record FetchResponse : Type := mkResponse {
  ok : bool;
  statusText : string;
  body_json : Outcome json;
  body_reader : option (list string * option Thrown)
}.

(** Observable effects, in the order they happen. *)
Inductive Event : Type :=
| ToolRequest (tool : string) (args : jsobject)    (* client.request tools/call *)
| Delay (ms : Z)                                   (* setTimeout *)
| Send (channel : string) (payload : jsobject)     (* mainWindow.webContents.send *)
| ModelRequest (backend : LLMProvider) (model : string)
    (messages : list LLMMessage) (stream : bool).  (* messages.create / fetch *)

(** The process state: the module variable [mainWindow] (is a window
    open), the fields of the [MCPClient] instance, the state of its
    language-model service, and the trace of effects so far. *)
Record World : Type := mkWorld {
  mainWindow : bool;
  recentArtworks : json;
  availableTools : list MCPTool;
  llm_provider : LLMProvider;
  llm_model : string;
  messageHistory : list LLMMessage;
  trace : list Event
}.

Definition set_recentArtworks (v : json) (w : World) : World :=
  mkWorld (mainWindow w) v (availableTools w)
          (llm_provider w) (llm_model w) (messageHistory w) (trace w).

Definition set_messageHistory (h : list LLMMessage) (w : World) : World :=
  mkWorld (mainWindow w) (recentArtworks w) (availableTools w)
          (llm_provider w) (llm_model w) h (trace w).

Definition log (e : Event) (w : World) : World :=
  mkWorld (mainWindow w) (recentArtworks w) (availableTools w)
          (llm_provider w) (llm_model w) (messageHistory w) (trace w ++ [e]).

Definition is_ToolRequest (e : Event) : bool :=
  match e with ToolRequest _ _ => true | _ => false end.

Definition is_ModelRequest (e : Event) : bool :=
  match e with ModelRequest _ _ _ _ => true | _ => false end.

Definition tool_requests (t : list Event) : nat := List.length (filter is_ToolRequest t).
Definition model_requests (t : list Event) : nat := List.length (filter is_ModelRequest t).

(** What the program does not define itself: built-ins of the language
    and the two remote parties.  The [nat] given to a remote party is the
    number of requests it has received before this one. *)
Record Host : Type := mkHost {
  JSON_parse : string -> option json;            (* [None]: a SyntaxError *)
  JSON_stringify : json -> string;               (* JSON.stringify(v, null, 2) *)
  same_ref : json -> json -> bool;               (* identity of two objects *)
  transport : nat -> string -> jsobject -> Outcome CallToolResult;
  messages_create : nat -> list LLMMessage -> Outcome (list ContentBlock);
  messages_stream : nat -> list LLMMessage -> Outcome (list Chunk * option Thrown);
  fetch : nat -> string -> list LLMMessage -> bool -> Outcome FetchResponse
}.

(* ================================================================== *)
(** * The monad of the program: state and exceptions *)
(* ================================================================== *)

Definition M (A : Type) : Type := World -> Outcome A * World.

Definition ret {A : Type} (a : A) : M A := fun w => (Returned a, w).

Definition throw {A : Type} (t : Thrown) : M A := fun w => (Threw t, w).

Definition bind {A B : Type} (m : M A) (k : A -> M B) : M B :=
  fun w =>
    match m w with
    | (Returned a, w') => k a w'
    | (Threw t, w') => (Threw t, w')
    end.

(** [try { m } catch (error) { h error }] *)
Definition try_catch {A : Type} (m : M A) (h : Thrown -> M A) : M A :=
  fun w =>
    match m w with
    | (Returned a, w') => (Returned a, w')
    | (Threw t, w') => h t w'
    end.

Definition lift {A : Type} (o : Outcome A) : M A := fun w => (o, w).

Definition emit (e : Event) : M unit := fun w => (Returned tt, log e w).

Definition read {A : Type} (f : World -> A) : M A := fun w => (Returned (f w), w).

Definition update (f : World -> World) : M unit := fun w => (Returned tt, f w).

Notation "x <- m ;; k" := (bind m (fun x => k))
  (at level 61, m at next level, right associativity) : js_scope.
Notation "m ;; k" := (bind m (fun _ => k))
  (at level 61, right associativity) : js_scope.

(** [mainWindow?.webContents.send(channel, payload)] *)
Definition webContents_send (channel : string) (payload : jsobject) : M unit :=
  fun w => if mainWindow w then emit (Send channel payload) w else ret tt w.

(** [mainWindow?. ...]: what follows the optional chain runs only when
    there is a window. *)
Definition when_window (m : M unit) : M unit :=
  fun w => if mainWindow w then m w else ret tt w.

(* ================================================================== *)
(** * MCPClient: the tool invoker and the recent-result cache *)
(* ================================================================== *)

Section MCPClient.

Variable H : Host.

Definition MAX_RETRIES : nat := 3.
Definition RETRY_DELAY : Z := 1000.

(** [await this.client.request(request, CallToolResultSchema)] *)
Definition client_request (tool : string) (args : jsobject) : M CallToolResult :=
  fun w =>
    (transport H (tool_requests (trace w)) tool args, log (ToolRequest tool args) w).

(** [await new Promise(resolve => setTimeout(resolve, ms))] *)
Definition sleep (ms : Z) : M unit := emit (Delay ms).

(** [response.content.filter(item => item.type === 'text')
      .map(item => item.text).join('\n')] *)
Definition textContent_of (items : list ContentBlock) : string :=
  JsString.join nl
    (List.map (fun item => match text item with Some t => t | None => "" end)
       (List.filter (fun item => String.eqb (type item) "text") items)).

(** The part of [callTool] between the request and the final [throw]:
    [Some] is a [return]. *)
Definition extract_text_content (response : CallToolResult) : option json :=
  match result_content response with
  | Some items =>
      let textContent := textContent_of items in
      if negb (JsString.is_empty textContent) then
        match JSON_parse H textContent with
        | Some parsed => Some parsed
        | None => Some (JStr textContent)          (* raw text if not JSON *)
        end
      else None
  | None => None
  end.

Definition status_is_500 (e : JsError) : bool :=
  match err_status e with
  | Some (JNum n) => Z.eqb n 500
  | _ => false
  end.

Definition retries_exhausted : Thrown :=
  new_Error ("Server error (500) after " ++ Js.number_to_string (Z.of_nat MAX_RETRIES)
             ++ " retries. The Rijksmuseum API might be experiencing issues.").

(** The [try] block of [callTool]. *)
Definition callTool_try (tool : string) (args : jsobject) : M json :=
  response <- client_request tool args ;;
  match extract_text_content response with
  | Some result => ret result
  | None => throw (new_Error "Invalid response format from server")
  end.

(** [callTool], by recursion on [remaining = MAX_RETRIES - retryCount],
    the number of retries still allowed: [retryCount < MAX_RETRIES] is
    [remaining <> 0], and [retryCount + 1] is [remaining - 1]. *)
Fixpoint callTool_remaining (remaining : nat) (tool : string) (args : jsobject)
  : M json :=
  try_catch (callTool_try tool args)
    (fun error =>
       match error with
       | ThrowError e =>
           if status_is_500 e then
             match remaining with
             | S remaining' =>
                 sleep RETRY_DELAY ;;
                 callTool_remaining remaining' tool args
             | O => throw retries_exhausted
             end
           else throw error
       | ThrowValue _ => throw error
       end).

Definition callTool (tool : string) (args : jsobject) (retryCount : nat) : M json :=
  callTool_remaining (MAX_RETRIES - retryCount) tool args.

(** [searchArtworks] *)
Definition searchArtworks (query : string) : M unit :=
  try_catch
    (response <- callTool "search_artwork"
                   [("query", Some (JStr query)); ("pageSize", Some (JNum 10))] 0 ;;
     update (set_recentArtworks response) ;;            (* store recent artworks *)
     webContents_send "mcp-message"
       [("type", Some (JStr "artworks_list")); ("artworks", Some response)])
    (fun _ => ret tt).

(** [arr.findIndex(p)], for a callback that may throw. *)
Fixpoint findIndex_from (p : json -> Outcome bool) (i : nat) (l : list json)
  : Outcome (option nat) :=
  match l with
  | [] => Returned None
  | a :: rest =>
      let? b := p a in
      if b then Returned (Some i) else findIndex_from p (S i) rest
  end.

(** [arr.find(p)] *)
Fixpoint find (p : json -> Outcome bool) (l : list json) : Outcome jsval :=
  match l with
  | [] => Returned undefined
  | a :: rest =>
      let? b := p a in
      if b then Returned (Some a) else find p rest
  end.

(** The array behind [this.recentArtworks]; calling an array method on
    anything else is a TypeError. *)
Definition as_array (method : string) (v : json) : Outcome (list json) :=
  match v with
  | JArr items => Returned items
  | JNull =>
      Threw (TypeError ("Cannot read properties of null (reading '" ++ method ++ "')"))
  | _ => Threw (TypeError ("this.recentArtworks." ++ method ++ " is not a function"))
  end.

(** [arr[index] = v] for an index inside the array. *)
Fixpoint set_at (index : nat) (v : json) (l : list json) : list json :=
  match l, index with
  | [], _ => []
  | _ :: rest, O => v :: rest
  | a :: rest, S i => a :: set_at i v rest
  end.

(** The cache update of [getArtworkDetails]: replace the first entry whose
    [objectNumber] is the requested one, append when there is none. *)
Definition upsert (objectNumber : jsval) (response : json) (cache : json)
  : Outcome json :=
  let? items := as_array "findIndex" cache in
  let? index :=
    findIndex_from
      (fun a => let? n := Js.get (Some a) "objectNumber" in
                Returned (Js.strict_equals (same_ref H) n objectNumber))
      0 items in
  match index with
  | Some i => Returned (JArr (set_at i response items))
  | None => Returned (JArr (items ++ [response]))
  end.

(** [getArtworkDetails] *)
Definition getArtworkDetails (objectNumber : jsval) : M unit :=
  try_catch
    (response <- callTool "get_artwork_details" [("objectNumber", objectNumber)] 0 ;;
     cache <- read recentArtworks ;;
     cache' <- lift (upsert objectNumber response cache) ;;
     update (set_recentArtworks cache') ;;
     webContents_send "mcp-message"
       [("type", Some (JStr "artwork_details")); ("artwork", Some response)])
    (fun _ => ret tt).

(** [openImageInBrowser] *)
Definition openImageInBrowser (imageUrl : jsval) : M unit :=
  try_catch
    (callTool "open_image_in_browser" [("imageUrl", imageUrl)] 0 ;; ret tt)
    (fun _ => ret tt).

End MCPClient.

(* ================================================================== *)
(** * The language-model services *)
(* ================================================================== *)

(** [interface StreamCallbacks] *)
Record StreamCallbacks : Type := mkCallbacks {
  onToken : jsval -> M unit;
  onComplete : option (string -> M unit);
  onError : option (Thrown -> M unit)
}.

(** [callback?.(arg)] *)
Definition call_opt {A : Type} (callback : option (A -> M unit)) (arg : A) : M unit :=
  match callback with
  | Some f => f arg
  | None => ret tt
  end.

(** [this.messageHistory.push(m)] *)
Definition push_history (m : LLMMessage) : M unit :=
  update (fun w => set_messageHistory (messageHistory w ++ [m]) w).

(** The element both services append after the history in a request:
    [{ role: 'user',
       content: context ? `Context: ${context}\n\nUser: ${message}` : message }] *)
Definition prompt_content (message : string) (context : option string) : string :=
  match context with
  | Some c =>
      if negb (JsString.is_empty c)
      then "Context: " ++ c ++ nl ++ nl ++ "User: " ++ message
      else message
  | None => message
  end.

Definition outbound_messages (history : list LLMMessage) (message : string)
  (context : option string) : list LLMMessage :=
  history ++ [mkMessage user (Some (JStr (prompt_content message context)))].

(** [interface LLMService] *)
Module LLMService.
Record t : Type := make {
  chat : string -> option string -> M jsval;
  streamChat : string -> StreamCallbacks -> option string -> M unit;
  clearHistory : M unit
}.
End LLMService.

Module ClaudeService.
Section Service.
Variable H : Host.

Definition model : string := "claude-3-opus-20240229".

(** [await this.client.messages.create({ ..., messages, stream })] *)
Definition create (messages : list LLMMessage) : M (list ContentBlock) :=
  fun w =>
    (messages_create H (model_requests (trace w)) messages,
     log (ModelRequest claude model messages false) w).

Definition create_stream (messages : list LLMMessage) : M (list Chunk * option Thrown) :=
  fun w =>
    (messages_stream H (model_requests (trace w)) messages,
     log (ModelRequest claude model messages true) w).

Definition chat (message : string) (context : option string) : M jsval :=
  try_catch
    (push_history (mkMessage user (Some (JStr message))) ;;
     history <- read messageHistory ;;
     response <- create (outbound_messages history message context) ;;
     assistantMessage <-
       match response with
       | [] => throw (TypeError "Cannot read properties of undefined (reading 'type')")
       | first :: _ =>
           ret (if String.eqb (type first) "text"
                then option_map JStr (text first)
                else Some (JStr "Unable to process response"))
       end ;;
     push_history (mkMessage assistant assistantMessage) ;;
     ret assistantMessage)
    (fun error => throw error).

(** [for await (const chunk of stream) { ... }], threading [fullResponse];
    a stream that breaks throws after the chunks already delivered. *)
Fixpoint consume (callbacks : StreamCallbacks) (chunks : list Chunk)
  (failure : option Thrown) (fullResponse : string) : M string :=
  match chunks with
  | [] =>
      match failure with
      | Some error => throw error
      | None => ret fullResponse
      end
  | chunk :: rest =>
      match chunk with
      | content_block_delta (text_delta t) =>
          onToken callbacks (Some (JStr t)) ;;
          consume callbacks rest failure (fullResponse ++ t)
      | _ => consume callbacks rest failure fullResponse
      end
  end.

Definition streamChat (message : string) (callbacks : StreamCallbacks)
  (context : option string) : M unit :=
  try_catch
    (push_history (mkMessage user (Some (JStr message))) ;;
     history <- read messageHistory ;;
     stream <- create_stream (outbound_messages history message context) ;;
     fullResponse <- consume callbacks (fst stream) (snd stream) "" ;;
     push_history (mkMessage assistant (Some (JStr fullResponse))) ;;
     call_opt (onComplete callbacks) fullResponse)
    (fun error =>
       call_opt (onError callbacks) error ;;
       throw error).

Definition clearHistory : M unit := update (set_messageHistory []).

(** [class ClaudeService implements LLMService] *)
Definition service : LLMService.t := LLMService.make chat streamChat clearHistory.

End Service.
End ClaudeService.

Module OllamaService.
Section Service.
Variable H : Host.

(** [await fetch('http://localhost:11434/api/chat', { ... })] *)
Definition fetch_chat (messages : list LLMMessage) (stream : bool) : M FetchResponse :=
  fun w =>
    (fetch H (model_requests (trace w)) (llm_model w) messages stream,
     log (ModelRequest ollama (llm_model w) messages stream) w).

Definition check_ok (response : FetchResponse) : M unit :=
  if negb (ok response)
  then throw (new_Error ("Ollama API error: " ++ statusText response))
  else ret tt.

Definition chat (message : string) (context : option string) : M jsval :=
  try_catch
    (push_history (mkMessage user (Some (JStr message))) ;;
     history <- read messageHistory ;;
     response <- fetch_chat (outbound_messages history message context) false ;;
     check_ok response ;;
     data <- lift (body_json response) ;;
     assistantMessage <-
       lift (let? m := Js.get (Some data) "message" in Js.get m "content") ;;
     push_history (mkMessage assistant assistantMessage) ;;
     ret assistantMessage)
    (fun error => throw error).

(** The body of [for (const line of lines)], with its own [try]/[catch]. *)
Definition consume_line (callbacks : StreamCallbacks) (line : string)
  (fullResponse : string) : M string :=
  try_catch
    (match JSON_parse H line with
     | None => throw (new_Error "Unexpected token in JSON")     (* SyntaxError *)
     | Some data =>
         message <- lift (Js.get (Some data) "message") ;;
         let content := Js.get_opt message "content" in
         if Js.truthy content then
           onToken callbacks content ;;
           text <- lift (Js.to_string content) ;;       (* fullResponse += content *)
           ret (fullResponse ++ text)%string
         else ret fullResponse
     end)
    (fun _ => ret fullResponse).

Fixpoint consume_lines (callbacks : StreamCallbacks) (lines : list string)
  (fullResponse : string) : M string :=
  match lines with
  | [] => ret fullResponse
  | line :: rest =>
      fullResponse' <- consume_line callbacks line fullResponse ;;
      consume_lines callbacks rest fullResponse'
  end.

(** [while (true) { const { done, value } = await reader.read(); ... }] *)
Fixpoint consume (callbacks : StreamCallbacks) (reads : list string)
  (failure : option Thrown) (fullResponse : string) : M string :=
  match reads with
  | [] =>
      match failure with
      | Some error => throw error
      | None => ret fullResponse
      end
  | chunk :: rest =>
      let lines :=
        List.filter (fun line => negb (JsString.is_empty (JsString.trim line)))
          (JsString.split chunk nl) in
      fullResponse' <- consume_lines callbacks lines fullResponse ;;
      consume callbacks rest failure fullResponse'
  end.

Definition streamChat (message : string) (callbacks : StreamCallbacks)
  (context : option string) : M unit :=
  try_catch
    (push_history (mkMessage user (Some (JStr message))) ;;
     history <- read messageHistory ;;
     response <- fetch_chat (outbound_messages history message context) true ;;
     check_ok response ;;
     match body_reader response with
     | None => throw (new_Error "Response body is not readable")
     | Some reader =>
         fullResponse <- consume callbacks (fst reader) (snd reader) "" ;;
         push_history (mkMessage assistant (Some (JStr fullResponse))) ;;
         call_opt (onComplete callbacks) fullResponse
     end)
    (fun error =>
       call_opt (onError callbacks) error ;;
       throw error).

Definition clearHistory : M unit := update (set_messageHistory []).

(** [class OllamaService implements LLMService] *)
Definition service : LLMService.t := LLMService.make chat streamChat clearHistory.

End Service.
End OllamaService.

(** [createLLMService] of the factory. *)
Definition createLLMService (H : Host) (provider : LLMProvider) : LLMService.t :=
  match provider with
  | ollama => OllamaService.service H
  | claude => ClaudeService.service H
  end.

(** The calls [this.llm.chat(...)], [this.llm.streamChat(...)] and
    [this.llm.clearHistory()] of the client, [this.llm] being the service
    the factory made for the provider that was configured. *)
Module LLM.
Section Dispatch.
Variable H : Host.

Definition chat (message : string) (context : option string) : M jsval :=
  fun w => LLMService.chat (createLLMService H (llm_provider w)) message context w.

Definition streamChat (message : string) (callbacks : StreamCallbacks)
  (context : option string) : M unit :=
  fun w =>
    LLMService.streamChat (createLLMService H (llm_provider w)) message callbacks context w.

Definition clearHistory : M unit :=
  fun w => LLMService.clearHistory (createLLMService H (llm_provider w)) w.

End Dispatch.
End LLM.

(** From here on [++] is read as string concatenation first. *)
Open Scope string_scope.

(** Method calls on values of type [any]. *)
Module JsCall.

Definition not_a_function (method : string) : Thrown :=
  TypeError (method ++ " is not a function").

(** What the call [callee.method()] throws when [callee], whose value is
    [v], has no such method: the TypeError of the property read when [v]
    is [null] or [undefined], the TypeError of the call otherwise. *)
Definition not_callable (v : jsval) (callee method : string) : Thrown :=
  match Js.get v method with
  | Threw t => t
  | Returned _ => not_a_function (callee ++ "." ++ method)
  end.

(** [v.toLowerCase()] *)
Definition toLowerCase (callee : string) (v : jsval) : Outcome string :=
  match v with
  | Some (JStr s) => Returned (JsString.toLowerCase s)
  | _ => Threw (not_callable v callee "toLowerCase")
  end.

(** [v.join(sep)] *)
Definition join (callee : string) (v : jsval) (sep : string) : Outcome string :=
  match v with
  | Some (JArr items) => Js.join sep items
  | _ => Threw (not_callable v callee "join")
  end.

(** [v.split(sep).pop()] *)
Definition split_pop (callee : string) (v : jsval) (sep : string) : Outcome string :=
  match v with
  | Some (JStr s) => Returned (List.last (JsString.split s sep) "")
  | _ => Threw (not_callable v callee "split")
  end.

(** [arr.map(f)] for a callback that may throw. *)
Fixpoint map_from {A : Type} (f : json -> nat -> Outcome A) (index : nat) (l : list json)
  : Outcome (list A) :=
  match l with
  | [] => Returned []
  | a :: rest =>
      let? b := f a index in
      let? bs := map_from f (S index) rest in
      Returned (b :: bs)
  end.

End JsCall.

(* ================================================================== *)
(** * MCPClient: intent matching and argument extraction *)
(* ================================================================== *)

Module Intent.
Import Regex.

Fixpoint seqs (l : list re) : re :=
  match l with
  | [] => Eps
  | [r] => r
  | r :: rest => Seq r (seqs rest)
  end.

Definition words (l : list string) : re := alts (List.map lit l).

(** Map of tool names to trigger phrases. *)
Definition toolTriggers : list (string * list string) :=
  [ ("search_artwork",
      ["search"; "find"; "look for"; "show me"; "info on"; "information on"; "tell me about"]);
    ("get_artwork_details",
      ["details"; "tell me about"; "information about"; "more about"]);
    ("get_artwork_image", ["show image"; "display image"; "view image"]);
    ("get_user_sets", ["show collections"; "user collections"; "sets"]);
    ("get_user_set_details", ["collection details"; "set details"]);
    ("open_image_in_browser", ["open image"; "open in browser"]);
    ("get_artist_timeline", ["timeline"; "chronological"; "artist history"]) ].

Fixpoint own_property (key : string) (table : list (string * list string))
  : option (list string) :=
  match table with
  | [] => None
  | (k, v) :: rest => if String.eqb key k then Some v else own_property key rest
  end.

(** [toolTriggers] is an object literal: a key it does not define is
    looked up in [Object.prototype], whose members are functions (and,
    for [__proto__], the prototype object itself). *)
Definition Object_prototype : list string :=
  [ "constructor"; "__proto__"; "hasOwnProperty"; "isPrototypeOf";
    "propertyIsEnumerable"; "toLocaleString"; "toString"; "valueOf";
    "__defineGetter__"; "__defineSetter__"; "__lookupGetter__"; "__lookupSetter__" ].

Definition inherited (key : string) : bool :=
  List.existsb (String.eqb key) Object_prototype.

(** [matchesToolIntent]:
    [const triggers = toolTriggers[tool.name] || [];
     return triggers.some(trigger => msg.includes(trigger));] *)
Definition matchesToolIntent (message : string) (tool : MCPTool) : Outcome bool :=
  let msg := JsString.toLowerCase message in
  match own_property (name tool) toolTriggers with
  | Some triggers =>
      Returned (List.existsb (fun trigger => JsString.includes msg trigger) triggers)
  | None =>
      if inherited (name tool)
      then Threw (JsCall.not_a_function "triggers.some")
      else Returned (List.existsb (fun trigger => JsString.includes msg trigger) [])
  end.

(** The regular expression literals of [extractToolArgs]. *)

(* /^(?:search|find|show|display|get)\s*/i *)
Definition re_leading_verb : re :=
  seqs [Bol; words ["search"; "find"; "show"; "display"; "get"]; Star true space].

(* /(?:tell me about|info on|information on|information about)\s*/gi *)
Definition re_filler : re :=
  seqs [words ["tell me about"; "info on"; "information on"; "information about"];
        Star true space].

(* the class of the double quote and the apostrophe, with the g flag *)
Definition re_quotes : re :=
  Chr (fun c => Nat.eqb (JsString.code c) 34 || Nat.eqb (JsString.code c) 39).

(* /\s+/g *)
Definition re_spaces : re := Plus space.

(* /[A-Z]+-[A-Z]-\d+/i *)
Definition re_object_number : re :=
  seqs [Plus letter; lit "-"; letter; lit "-"; Plus digit].

(* /(?:details|about|information)\s+(?:about\s+)?(.+)/i *)
Definition re_details_of : re :=
  seqs [words ["details"; "about"; "information"]; Plus space;
        Opt (seqs [lit "about"; Plus space]); Group 1 (Plus dot)].

(* /image\s+(?:of\s+)?(.+)/i *)
Definition re_image_of : re :=
  seqs [lit "image"; Plus space; Opt (seqs [lit "of"; Plus space]); Group 1 (Plus dot)].

(* /collection\s+(?:details\s+)?(.+)/i *)
Definition re_collection : re :=
  seqs [lit "collection"; Plus space; Opt (seqs [lit "details"; Plus space]);
        Group 1 (Plus dot)].

(* /timeline\s+(?:of\s+)?(.+)/i *)
Definition re_timeline_of : re :=
  seqs [lit "timeline"; Plus space; Opt (seqs [lit "of"; Plus space]); Group 1 (Plus dot)].

(* /(?:show|get)\s+(.+?)(?:\s+timeline)/i *)
Definition re_artist_timeline : re :=
  seqs [words ["show"; "get"]; Plus space; Group 1 (LazyPlus dot);
        seqs [Plus space; lit "timeline"]].

(** [match ? match[1] : fallback]; group 1 takes part in every match of
    the expressions above. *)
Definition group1_or (m : option (string * (nat -> option string))) (fallback : string)
  : string :=
  match m with
  | Some (_, groups) => match groups 1 with Some g => g | None => "" end
  | None => fallback
  end.

Definition str (s : string) : jsval := Some (JStr s).

(** [extractToolArgs] *)
Definition extractToolArgs (message : string) (tool : MCPTool) : jsobject :=
  let msg := JsString.toLowerCase message in
  if String.eqb (name tool) "search_artwork" then
    (* Clean up the query by removing all trigger phrases and quotes *)
    let searchQuery :=
      JsString.trim
        (replaceAll re_spaces " "
           (replaceAll re_quotes ""
              (replaceAll re_filler ""
                 (replace re_leading_verb "" (JsString.toLowerCase message))))) in
    (* Try to extract the object number if it matches the format (e.g., SK-C-5) *)
    match exec re_object_number searchQuery with
    | Some (objectNumber, _) =>
        [("query", str objectNumber); ("pageSize", Some (JNum 10))]
    | None =>
        [("query", str searchQuery); ("pageSize", Some (JNum 10));
         ("imgonly", Some (JBool true)); ("s", str "relevance")]
    end
  else if String.eqb (name tool) "get_artwork_details" then
    let detailsQuery :=
      JsString.trim
        (replaceAll re_quotes "" (group1_or (exec re_details_of msg) message)) in
    [("objectNumber", str detailsQuery)]
  else if String.eqb (name tool) "get_artwork_image" then
    [("objectNumber", str (group1_or (exec re_image_of msg) message))]
  else if String.eqb (name tool) "get_user_sets" then
    [("page", Some (JNum 0)); ("pageSize", Some (JNum 10))]
  else if String.eqb (name tool) "get_user_set_details" then
    [("setId", str (group1_or (exec re_collection msg) message))]
  else if String.eqb (name tool) "get_artist_timeline" then
    let artistMatch :=
      match exec re_timeline_of msg with
      | Some m => Some m
      | None => exec re_artist_timeline msg
      end in
    [("artist", str (group1_or artistMatch message)); ("maxWorks", Some (JNum 10))]
  else if String.eqb (name tool) "open_image_in_browser" then
    [("imageUrl", str message)]
  else [].

End Intent.

(* ================================================================== *)
(** * MCPClient: formatters and the context assembler *)
(* ================================================================== *)

Module Format.

(** [`${v}`] *)
Definition shown (v : jsval) : Outcome string := Js.to_string v.

(** [`${v ? `${before}${v}${after}` : ''}`] *)
Definition when (v : jsval) (before after : string) : Outcome string :=
  if Js.truthy v then
    let? text := shown v in
    Returned (before ++ text ++ after)
  else Returned "".

(** [`${v?.length ? `${label}${v.join(', ')}${suffix}` : ''}`], [callee]
    being the expression whose value is [v]. *)
Definition joined_when_length (callee : string) (v : jsval) (label suffix : string)
  : Outcome string :=
  if Js.truthy (Js.get_opt v "length") then
    let? joined := JsCall.join callee v ", " in
    Returned (label ++ joined ++ suffix)
  else Returned "".

(** [formatArtworkDetails]; the substitutions of the template literal are
    evaluated and converted from left to right. *)
Definition formatArtworkDetails (result : json) : Outcome string :=
  if negb (Js.truthy (Some result)) then Returned "Artwork details not found"
  else
    let r := Some result in
    let? webImage := Js.get r "webImage" in
    let imageUrl := Js.get_opt webImage "url" in
    let? title := Js.get r "title" in
    let? title_text := shown title in
    let? maker := Js.get r "principalOrFirstMaker" in
    let? artist := (if Js.truthy maker then Returned maker else Js.get r "artist") in
    let? artist_text := shown artist in
    let? longTitle := Js.get r "longTitle" in
    let? longTitle_line := when longTitle "Full Title: " nl in
    let? description := Js.get r "description" in
    let? description_line := when description "Description: " nl in
    let? materials := Js.get r "materials" in
    let? materials_line :=
      joined_when_length "result.materials" materials "Materials: " nl in
    let? dimensions := Js.get r "dimensions" in
    let? dimensions_line :=
      joined_when_length "result.dimensions" dimensions "Dimensions: " nl in
    let? image_line := when imageUrl "" "" in
    let? links := Js.get r "links" in
    let? web_text := shown (Js.get_opt links "web") in
    Returned
      ("Here are the details of the artwork:" ++ nl
       ++ nl
       ++ "Title: " ++ title_text ++ nl
       ++ "Artist: " ++ artist_text ++ nl
       ++ longTitle_line ++ nl
       ++ description_line ++ nl
       ++ materials_line ++ nl
       ++ dimensions_line ++ nl
       ++ image_line ++ nl
       ++ nl
       ++ "You can view more details on the Rijksmuseum website: " ++ web_text).

(** The callback of [result.map] in [formatArtistTimeline]. *)
Definition timeline_entry (item : json) (index : nat) : Outcome string :=
  let? date := Js.get (Some item) "date" in
  let? date_text := shown date in
  let? title := Js.get (Some item) "title" in
  let? title_text := shown title in
  Returned (date_text ++ ": " ++ title_text).

(** [formatArtistTimeline] *)
Definition formatArtistTimeline (result : json) : Outcome string :=
  match result with
  | JArr items =>
      let? lines := JsCall.map_from timeline_entry 0 items in
      Returned ("Artist Timeline:" ++ nl ++ nl ++ JsString.join nl lines)
  | _ => Returned "No timeline available"
  end.

Definition indent : string := "         ".

(** The callback of [result.artworks.map] in [formatArtworkSearchResult]. *)
Definition format_artwork (artwork : json) (index : nat) : Outcome string :=
  let a := Some artwork in
  let? title := Js.get a "title" in
  let? title_text := shown title in
  let? objectNumber := Js.get a "objectNumber" in
  let? objectNumber_text := shown objectNumber in
  let? longTitle := Js.get a "longTitle" in
  let? created := JsCall.split_pop "artwork.longTitle" longTitle ", " in
  let? productionPlaces := Js.get a "productionPlaces" in
  let? location :=
    joined_when_length "artwork.productionPlaces" productionPlaces "Location: " "" in
  let? webImage := Js.get a "webImage" in
  let? image := when (Js.get_opt webImage "url") nl "" in
  Returned
    (Js.number_to_string (Z.of_nat index + 1) ++ ". "
     ++ dquote ++ title_text ++ dquote
     ++ " (" ++ objectNumber_text ++ ")" ++ nl
     ++ indent ++ "Created: " ++ created ++ nl
     ++ indent ++ location ++ nl
     ++ indent ++ image).

(** [formatArtworkSearchResult] *)
Definition formatArtworkSearchResult (result : json) : Outcome string :=
  if negb (Js.truthy (Some result)) then Returned "No artworks found"
  else
    let? artworks := Js.get (Some result) "artworks" in
    match artworks with
    | Some (JArr []) => Returned "No artworks found"
    | Some (JArr (first :: rest)) =>
        let? maker := Js.get (Some first) "principalOrFirstMaker" in
        let? maker_text := shown maker in
        let? entries := JsCall.map_from format_artwork 0 (first :: rest) in
        Returned
          ("I found " ++ Js.number_to_string (Z.of_nat (List.length (first :: rest)))
           ++ " artworks by " ++ maker_text
           ++ " in the Rijksmuseum collection:" ++ nl
           ++ nl
           ++ JsString.join (nl ++ nl) entries ++ nl
           ++ nl
           ++ "I can provide more details about any of these artworks if you're interested. Just ask about a specific artwork by its title or number.")
    | _ => Returned "No artworks found"
    end.

End Format.

Section Assembler.

Variable H : Host.

Definition api_apology : string :=
  "I apologize, but I couldn't fetch the current, accurate information from the Rijksmuseum API at the moment. I can share what I know about this topic from my general knowledge, but please note that this information might not be completely up-to-date or accurate. Would you like me to proceed with what I know?".

Definition error_apology : string :=
  "I encountered an error while trying to fetch information from the Rijksmuseum. Would you like me to share what I know about this topic from my general knowledge?".

(** The [switch (tool.name)] of [getRelevantContext]. *)
Definition format_result (tool : MCPTool) (result : json) : Outcome string :=
  if String.eqb (name tool) "search_artwork" then Format.formatArtworkSearchResult result
  else if String.eqb (name tool) "get_artwork_details" then Format.formatArtworkDetails result
  else if String.eqb (name tool) "get_artist_timeline" then Format.formatArtistTimeline result
  else Returned ("Result from " ++ name tool ++ ": " ++ JSON_stringify H result).

(** The [for (const tool of this.availableTools)] loop. *)
Fixpoint first_matching (message : string) (tools : list MCPTool) : M (option string) :=
  match tools with
  | [] => ret None
  | tool :: rest =>
      matches <- lift (Intent.matchesToolIntent message tool) ;;
      if matches then
        let args := Intent.extractToolArgs message tool in
        try_catch
          (result <- callTool H (name tool) args 0 ;;
           formatted <- lift (format_result tool result) ;;
           ret (Some formatted))
          (fun _ => ret (Some api_apology))
      else first_matching message rest
  end.

(** [getRelevantContext] *)
Definition getRelevantContext (message : string) : M (option string) :=
  try_catch
    (tools <- read availableTools ;;
     first_matching message tools)
    (fun _ => ret (Some error_apology)).

End Assembler.

(* ================================================================== *)
(** * MCPClient: direct actions and the conversation bridge *)
(* ================================================================== *)

Section Bridge.
Import Regex.

Variable H : Host.

(* /(?:show|open|view|display)\s+(?:the\s+)?image\s+(?:of\s+)?(.+)/i *)
Definition re_show_image : re :=
  Intent.seqs
    [Intent.words ["show"; "open"; "view"; "display"]; Plus space;
     Opt (Intent.seqs [lit "the"; Plus space]);
     lit "image"; Plus space;
     Opt (Intent.seqs [lit "of"; Plus space]);
     Group 1 (Plus dot)].

(* /(?:tell|show|give)\s+(?:me\s+)?(?:more\s+)?(?:details|information)\s+(?:about\s+)?(.+)/i *)
Definition re_tell_details : re :=
  Intent.seqs
    [Intent.words ["tell"; "show"; "give"]; Plus space;
     Opt (Intent.seqs [lit "me"; Plus space]);
     Opt (Intent.seqs [lit "more"; Plus space]);
     Intent.words ["details"; "information"]; Plus space;
     Opt (Intent.seqs [lit "about"; Plus space]);
     Group 1 (Plus dot)].

(** [a => a.title.toLowerCase().includes(artworkName) ||
         a.artist.toLowerCase().includes(artworkName)] *)
Definition mentions (artworkName : string) (a : json) : Outcome bool :=
  let? title := Js.get (Some a) "title" in
  let? lowerTitle := JsCall.toLowerCase "a.title" title in
  if JsString.includes lowerTitle artworkName then Returned true
  else
    let? artist := Js.get (Some a) "artist" in
    let? lowerArtist := JsCall.toLowerCase "a.artist" artist in
    Returned (JsString.includes lowerArtist artworkName).

(** [this.recentArtworks.find(...)] *)
Definition find_recent (artworkName : string) : M jsval :=
  cache <- read recentArtworks ;;
  lift (let? items := as_array "find" cache in find (mentions artworkName) items).

(** The first [if] of [extractAndExecuteActions]: direct image requests. *)
Definition try_open_image (lowerMessage : string) : M (option string) :=
  match exec re_show_image lowerMessage with
  | Some imageMatch =>
      let artworkName := Intent.group1_or (Some imageMatch) "" in
      artwork <- find_recent artworkName ;;
      if Js.truthy (Js.get_opt artwork "imageUrl") then
        imageUrl <- lift (Js.get artwork "imageUrl") ;;
        openImageInBrowser H imageUrl ;;
        title <- lift (Js.get artwork "title") ;;
        title_text <- lift (Js.to_string title) ;;
        artist <- lift (Js.get artwork "artist") ;;
        artist_text <- lift (Js.to_string artist) ;;
        ret (Some ("I've opened the image of " ++ dquote ++ title_text ++ dquote
                   ++ " by " ++ artist_text ++ " in your browser."))
      else ret None
  | None => ret None
  end.

(** The second [if]: artwork detail requests. *)
Definition try_get_details (lowerMessage : string) : M (option string) :=
  match exec re_tell_details lowerMessage with
  | Some detailsMatch =>
      let artworkName := Intent.group1_or (Some detailsMatch) "" in
      artwork <- find_recent artworkName ;;
      if Js.truthy artwork then
        objectNumber <- lift (Js.get artwork "objectNumber") ;;
        getArtworkDetails H objectNumber ;;
        title <- lift (Js.get artwork "title") ;;
        title_text <- lift (Js.to_string title) ;;
        artist <- lift (Js.get artwork "artist") ;;
        artist_text <- lift (Js.to_string artist) ;;
        ret (Some ("I've retrieved the details for " ++ dquote ++ title_text ++ dquote
                   ++ " by " ++ artist_text ++ "."))
      else ret None
  | None => ret None
  end.

(** [extractAndExecuteActions] *)
Definition extractAndExecuteActions (message : string) : M (option string) :=
  let lowerMessage := JsString.toLowerCase message in
  opened <- try_open_image lowerMessage ;;
  match opened with
  | Some summary => ret (Some summary)
  | None => try_get_details lowerMessage
  end.

(** [context?.includes("apologize") || context?.includes("encountered an error")] *)
Definition is_error_context (context : option string) : bool :=
  match context with
  | Some c => JsString.includes c "apologize" || JsString.includes c "encountered an error"
  | None => false
  end.

Definition nonempty (s : option string) : bool :=
  match s with
  | Some c => negb (JsString.is_empty c)
  | None => false
  end.

(** The template literal [fullContext]. *)
Definition fullContext (actionResult context : option string) (message : string) : string :=
  nl
  ++ "Assistant: I am an AI assistant with access to the Rijksmuseum's art collection. When showing artwork details, I should include both the artwork information and its image URLs directly in my response without any prefixes or labels." ++ nl
  ++ (if nonempty actionResult
      then nl ++ "Last action: " ++ match actionResult with Some a => a | None => "" end
      else "") ++ nl
  ++ (if nonempty context
      then nl ++ "Context from Rijksmuseum: " ++ match context with Some c => c | None => "" end
      else "") ++ nl
  ++ nl
  ++ "User's message: " ++ message ++ nl
  ++ nl
  ++ "I should respond to the user's message using the context above when relevant. If there are image URLs in the context, I should include them in my response exactly as they appear, without adding any labels or prefixes like "
  ++ dquote ++ "Image URL:" ++ dquote ++ ".".

(** [error.message] *)
Definition message_of (error : Thrown) : Outcome jsval :=
  match error with
  | ThrowError e => Returned (Some (JStr (err_message e)))
  | ThrowValue v => Js.get v "message"
  end.

(** The callbacks [processMessage] hands to [streamChat]. *)
Definition relay : StreamCallbacks :=
  {| onToken := fun token =>
       webContents_send "chat-token" [("type", Some (JStr "assistant")); ("content", token)];
     onComplete := Some (fun fullResponse =>
       webContents_send "chat-complete"
         [("type", Some (JStr "assistant")); ("content", Some (JStr fullResponse))]);
     onError := Some (fun error =>
       (* the arguments of [mainWindow?.webContents.send] are evaluated
          only when there is a window *)
       when_window
         (m <- lift (message_of error) ;;
          webContents_send "chat-error" [("error", m)])) |}.

(** [processMessage] *)
Definition processMessage (message : string) : M unit :=
  try_catch
    ((* First try to execute any direct actions *)
     actionResult <- extractAndExecuteActions message ;;
     (* Get additional context *)
     context <- getRelevantContext H message ;;
     (* If we got an error context, send that directly to the user *)
     if is_error_context context then
       let text := match context with Some c => c | None => "" end in
       webContents_send "chat-token"
         [("type", Some (JStr "assistant")); ("content", Some (JStr text))] ;;
       webContents_send "chat-complete"
         [("type", Some (JStr "assistant")); ("content", Some (JStr text))]
     else
       (* Use streaming with combined context *)
       LLM.streamChat H message relay (Some (fullContext actionResult context message)))
    (fun _ =>
       webContents_send "chat-error" [("error", Some (JStr "Failed to process message"))]).

(** [clearChatHistory] *)
Definition clearChatHistory : M unit := LLM.clearHistory H.

End Bridge.

(* ================================================================== *)
(** * Vocabulary of the statements *)
(* ================================================================== *)

(** In the matcher, a continuation called from position [pos] with input
    [s] receives a position [pos'] and an input [s'] further on. *)
Definition reaches (pos : nat) (s : list ascii) (pos' : nat) (s' : list ascii) : Prop :=
  pos' + List.length s' = pos + List.length s /\ pos <= pos'.

(** A matching step that only looks at its continuation where it can
    call it. *)
Definition local (A : Type)
  (step : nat -> list ascii -> Regex.caps -> Regex.cont A -> option A) : Prop :=
  forall pos s c k k',
    (forall pos' s' c', reaches pos s pos' s' -> k pos' s' c' = k' pos' s' c') ->
    step pos s c k = step pos s c k'.

(** A result of a matching step is a result of its continuation, called
    further on in the input. *)
Definition answers (A : Type)
  (step : nat -> list ascii -> Regex.caps -> Regex.cont A -> option A) : Prop :=
  forall pos s c k x,
    step pos s c k = Some x ->
    exists pos' s' c', reaches pos s pos' s' /\ k pos' s' c' = Some x.

(** The world after further events. *)
Definition logs (es : list Event) (w : World) : World :=
  mkWorld (mainWindow w) (recentArtworks w) (availableTools w)
          (llm_provider w) (llm_model w) (messageHistory w) (trace w ++ es)%list.

(** The transport rejects with an [Error] whose [status] is exactly 500. *)
Definition reports_500 (t : Thrown) : bool :=
  match t with
  | ThrowError e => status_is_500 e
  | ThrowValue _ => false
  end.

Definition rejects_500 (o : Outcome CallToolResult) : Prop :=
  exists t, o = Threw t /\ reports_500 t = true.

(** [k] failed attempts, each followed by the retry delay. *)
Fixpoint retried (tool : string) (args : jsobject) (k : nat) : list Event :=
  match k with
  | O => []
  | S k' => ToolRequest tool args :: Delay RETRY_DELAY :: retried tool args k'
  end.

Definition is_Delay (e : Event) : bool :=
  match e with Delay _ => true | _ => false end.

(** ** Concrete hosts and worlds, for the instances below *)

(** The document [{"objectNumber":"SK-C-5","title":"De Nachtwacht"}]. *)
Definition night_watch_doc : string :=
  "{" ++ dquote ++ "objectNumber" ++ dquote ++ ":" ++ dquote ++ "SK-C-5" ++ dquote ++ ","
  ++ dquote ++ "title" ++ dquote ++ ":" ++ dquote ++ "De Nachtwacht" ++ dquote ++ "}".

Definition night_watch_details : json :=
  JObj [("objectNumber", JStr "SK-C-5"); ("title", JStr "De Nachtwacht")].

(** A parser that knows three documents, enough for the instances. *)
Definition parse_some (s : string) : option json :=
  if String.eqb s "[]" then Some (JArr [])
  else if String.eqb s "null" then Some JNull
  else if String.eqb s night_watch_doc then Some night_watch_details
  else None.

Definition unreached {A : Type} : Outcome A := Threw (new_Error "no reply").

(** A host whose tool transport is [t] and whose model backends do not
    answer. *)
Definition tool_host (t : nat -> string -> jsobject -> Outcome CallToolResult) : Host :=
  mkHost parse_some (fun _ => "{}") (fun _ _ => false) t
         (fun _ _ => unreached) (fun _ _ => unreached) (fun _ _ _ _ => unreached).

Definition http_error (status : Z) : Thrown :=
  ThrowError (mkError "Error" "request failed" (Some (JNum status))).

Definition text_reply (s : string) : Outcome CallToolResult :=
  Returned (mkResult (Some [mkBlock "text" (Some s)])).

(** Status 500 on every attempt; status 404; status 500 three times and
    then a reply. *)
Definition host_500 : Host := tool_host (fun _ _ _ => Threw (http_error 500)).
Definition host_404 : Host := tool_host (fun _ _ _ => Threw (http_error 404)).
Definition host_flaky : Host :=
  tool_host (fun n _ _ => if Nat.ltb n 3 then Threw (http_error 500) else text_reply "[]").

(** A fresh client: a window, an empty cache, the tools given, no turn. *)
Definition fresh (provider : LLMProvider) (tools : list MCPTool) : World :=
  mkWorld true (JArr []) tools provider "mistral" [] [].

(** ** Steps that only talk to the tool provider *)

(** Events of the tool side: requests, retry delays, and the
    [mcp-message] notifications of the artwork views. *)
Definition tool_event (e : Event) : bool :=
  match e with
  | ToolRequest _ _ | Delay _ => true
  | Send channel _ => String.eqb channel "mcp-message"
  | ModelRequest _ _ _ _ => false
  end.

(** [w'] differs from [w] by a new cache and by further tool events. *)
Definition tool_step (w w' : World) : Prop :=
  exists cache es,
    w' = logs es (set_recentArtworks cache w) /\ forallb tool_event es = true.

(** Every run of [m] relates its initial and final worlds by [R]. *)
Definition respects (R : World -> World -> Prop) {A : Type} (m : M A) : Prop :=
  forall w, R w (snd (m w)).

(** The payload of the [chat-token] and [chat-complete] events. *)
Definition assistant_reply (content : jsval) : jsobject :=
  [("type", Some (JStr "assistant")); ("content", content)].

Definition search_tool : MCPTool := mkTool "search_artwork" None None.

(** The arguments extracted from "find sunflowers". *)
Definition sunflowers_args : jsobject :=
  [("query", Some (JStr "sunflowers")); ("pageSize", Some (JNum 10));
   ("imgonly", Some (JBool true)); ("s", Some (JStr "relevance"))].

Definition is_text_block (b : ContentBlock) : bool := String.eqb (type b) "text".

(** A text-typed block that carries no character. *)
Definition is_empty_text_block (b : ContentBlock) : bool :=
  is_text_block b
  && match text b with Some t => JsString.is_empty t | None => true end.

(** A host whose transport always answers with the same envelope. *)
Definition host_replying (response : CallToolResult) : Host :=
  tool_host (fun _ _ _ => Returned response).

(** ** Intent matching *)

(** Some trigger phrase of the tool occurs in the lower-cased message. *)
Definition triggered (message : string) (tool : MCPTool) : bool :=
  match Intent.own_property (name tool) Intent.toolTriggers with
  | Some triggers =>
      List.existsb
        (fun trigger => JsString.includes (JsString.toLowerCase message) trigger)
        triggers
  | None => false
  end.

(** No tool of the registry is named like a member of [Object.prototype]. *)
Definition plain_names (tools : list MCPTool) : bool :=
  List.forallb (fun t => negb (Intent.inherited (name t))) tools.

(** What [getRelevantContext] does with the tool it selected: the body of
    the [if] in its loop. *)
Definition invoke (H : Host) (message : string) (tool : MCPTool) : M (option string) :=
  try_catch
    (result <- callTool H (name tool) (Intent.extractToolArgs message tool) 0 ;;
     formatted <- lift (format_result H tool result) ;;
     ret (Some formatted))
    (fun _ => ret (Some api_apology)).

(** The tool names that have a formatter of their own. *)
Definition has_formatter (tool_name : string) : bool :=
  String.eqb tool_name "search_artwork"
  || String.eqb tool_name "get_artwork_details"
  || String.eqb tool_name "get_artist_timeline".

(** ** The recent-result cache *)

(** The entry carries the identifier [o]. *)
Definition objectNumber_is (o : string) (a : json) : bool :=
  match Js.get (Some a) "objectNumber" with
  | Returned (Some (JStr s)) => String.eqb s o
  | _ => false
  end.

(** The upsert as the specification words it: match by identifier,
    replace if present, append if absent. *)
Fixpoint spec_upsert (o : string) (r : json) (items : list json) : list json :=
  match items with
  | [] => [r]
  | a :: rest => if objectNumber_is o a then r :: rest else a :: spec_upsert o r rest
  end.

(** Reading a property of the entry does not throw. *)
Definition readable (a : json) : bool :=
  match a with JNull => false | _ => true end.

Definition cache_size (w : World) : nat :=
  match recentArtworks w with
  | JArr items => List.length items
  | _ => 0
  end.

Definition artwork (objectNumber title : string) : json :=
  JObj [("objectNumber", JStr objectNumber); ("title", JStr title)].

(** A client that has two artworks in its cache. *)
Definition two_artworks : World :=
  mkWorld true (JArr [artwork "SK-C-5" "The Night Watch"; artwork "SK-A-2344" "The Milkmaid"])
          [] ollama "mistral" [] [].

(** [n] resets in a row. *)
Fixpoint resets (H : Host) (n : nat) (w : World) : World :=
  match n with
  | O => w
  | S n' => resets H n' (snd (clearChatHistory H w))
  end.

(** ** The language-model port *)

(** A callback that returns and does nothing but add events. *)
Definition quiet (m : M unit) : Prop :=
  forall w, exists es, m w = (Returned tt, logs es w).

(** A callback that does nothing but add events, and may throw. *)
Definition harmless (m : M unit) : Prop :=
  forall w, exists o es, m w = (o, logs es w).

Record well_behaved (callbacks : StreamCallbacks) : Prop := mkWellBehaved {
  token_quiet : forall token, quiet (onToken callbacks token);
  complete_quiet : forall f fullResponse,
      onComplete callbacks = Some f -> quiet (f fullResponse);
  error_harmless : forall f error,
      onError callbacks = Some f -> harmless (f error)
}.

(** The model name each service puts in its requests. *)
Definition model_of (w : World) : string :=
  match llm_provider w with
  | claude => ClaudeService.model
  | ollama => llm_model w
  end.

(** The text deltas of a Claude stream, concatenated. *)
Fixpoint claude_text (chunks : list Chunk) : string :=
  match chunks with
  | [] => ""
  | content_block_delta (text_delta t) :: rest => t ++ claude_text rest
  | _ :: rest => claude_text rest
  end.

(** ** Conversion to a string *)

(** The value converts to a string: it is no object with a key [toString]
    of its own, and no array that holds one. *)
Fixpoint convertible_json (v : json) : bool :=
  match v with
  | JObj fields =>
      negb (List.existsb (fun field => String.eqb "toString" (fst field)) fields)
  | JArr items => List.forallb convertible_json items
  | _ => true
  end.

Definition convertible (v : jsval) : bool :=
  match v with
  | Some j => convertible_json j
  | None => true
  end.

(** The text of a value that converts. *)
Fixpoint plain_text_json (v : json) : string :=
  match v with
  | JNull => "null"
  | JBool true => "true"
  | JBool false => "false"
  | JNum n => Js.number_to_string n
  | JStr s => s
  | JArr items =>
      JsString.join ","
        (List.map (fun x => match x with JNull => "" | _ => plain_text_json x end) items)
  | JObj _ => "[object Object]"
  end.

Definition plain_text (v : jsval) : string :=
  match v with
  | Some j => plain_text_json j
  | None => "undefined"
  end.

(** The token carried by one line of an Ollama stream, if any. *)
Definition line_token (H : Host) (line : string) : option jsval :=
  match JSON_parse H line with
  | None => None
  | Some data =>
      match Js.get (Some data) "message" with
      | Returned message =>
          if Js.truthy (Js.get_opt message "content")
          then Some (Js.get_opt message "content")
          else None
      | Threw _ => None
      end
  end.

Definition lines_of (chunk : string) : list string :=
  List.filter (fun line => negb (JsString.is_empty (JsString.trim line)))
    (JsString.split chunk nl).

(** The tokens of some lines, concatenated; a token that does not convert
    to a string is relayed, but [fullResponse += token] throws inside the
    [try] of its line and the token is left out. *)
Fixpoint lines_text (H : Host) (lines : list string) : string :=
  match lines with
  | [] => ""
  | line :: rest =>
      match line_token H line with
      | Some token =>
          if convertible token then plain_text token ++ lines_text H rest
          else lines_text H rest
      | None => lines_text H rest
      end
  end.

(** The tokens of an Ollama stream, concatenated. *)
Fixpoint ollama_text (H : Host) (reads : list string) : string :=
  match reads with
  | [] => ""
  | chunk :: rest => lines_text H (lines_of chunk) ++ ollama_text H rest
  end.

(** What the backend does with a streaming request sent in world [w]:
    [Some R] when the stream runs to its end, [R] being the concatenation
    of its tokens; [None] when the request or the stream fails. *)
Definition stream_result (H : Host) (w : World) (request : list LLMMessage)
  : option string :=
  match llm_provider w with
  | claude =>
      match messages_stream H (model_requests (trace w)) request with
      | Returned (chunks, None) => Some (claude_text chunks)
      | _ => None
      end
  | ollama =>
      match fetch H (model_requests (trace w)) (llm_model w) request true with
      | Returned response =>
          if ok response then
            match body_reader response with
            | Some (reads, None) => Some (ollama_text H reads)
            | _ => None
            end
          else None
      | Threw _ => None
      end
  end.

(** A host whose Claude backend streams "Hel", a ping, "lo" and ends. *)
Definition host_streaming : Host :=
  mkHost parse_some (fun _ => "{}") (fun _ _ => false) (fun _ _ _ => unreached)
         (fun _ _ => Returned [mkBlock "text" (Some "Hello")])
         (fun _ _ =>
            Returned ([content_block_delta (text_delta "Hel"); other_chunk "ping";
                       content_block_delta (text_delta "lo")], None))
         (fun _ _ _ _ => unreached).

(** A cache entry with an image, and a client that holds it. *)
Definition night_watch : json :=
  JObj [("objectNumber", JStr "SK-C-5"); ("title", JStr "The Night Watch");
        ("artist", JStr "Rembrandt"); ("imageUrl", JStr "https://example.org/nw.jpg")].

Definition with_night_watch : World :=
  mkWorld true (JArr [night_watch]) [] claude "mistral" [] [].

(* ================================================================== *)
(** * Further vocabulary: the invoker, the handlers, the bridge *)
(* ================================================================== *)

(** What one attempt of [callTool] that is not retried amounts to: the
    payload of a reply with text, the invalid-format error for a reply
    without, the retry-exhaustion error for a last status 500, and the
    transport's own rejection otherwise. *)
Definition final_outcome (H : Host) (o : Outcome CallToolResult) : Outcome json :=
  match o with
  | Returned response =>
      match extract_text_content H response with
      | Some payload => Returned payload
      | None => Threw (new_Error "Invalid response format from server")
      end
  | Threw t => if reports_500 t then Threw retries_exhausted else Threw t
  end.

(** The events of one call of [callTool] that retried [k] times. *)
Definition attempts (tool : string) (args : jsobject) (k : nat) : list Event :=
  (retried tool args k ++ [ToolRequest tool args])%list.

(** [w'] is [w] after one call of [callTool] and nothing else: the cache,
    the history and the window are those of [w], and the new events are
    requests of that tool and retry delays. *)
Definition only_attempts (tool : string) (args : jsobject) (w w' : World) : Prop :=
  exists k, k <= MAX_RETRIES /\ w' = logs (attempts tool args k) w.

(** The call fails. *)
Definition fails {A : Type} (r : Outcome A * World) : Prop :=
  exists t, fst r = Threw t.

(** The arguments [searchArtworks] sends. *)
Definition search_args (query : string) : jsobject :=
  [("query", Some (JStr query)); ("pageSize", Some (JNum 10))].

Definition is_array (v : json) : bool :=
  match v with JArr _ => true | _ => false end.

(** The message is a direct request, for an image or for details. *)
Definition direct_request (message : string) : bool :=
  match Regex.exec re_show_image (JsString.toLowerCase message),
        Regex.exec re_tell_details (JsString.toLowerCase message) with
  | None, None => false
  | _, _ => true
  end.

Definition failed_to_process : Event :=
  Send "chat-error" [("error", Some (JStr "Failed to process message"))].

(** A host that answers every tool call with the document of The Night
    Watch, an object. *)
Definition host_night_watch : Host :=
  host_replying (mkResult (Some [mkBlock "text" (Some night_watch_doc)])).

(** The two events by which [processMessage] answers without the model. *)
Definition answered_with (text : string) : list Event :=
  [Send "chat-token" (assistant_reply (Some (JStr text)));
   Send "chat-complete" (assistant_reply (Some (JStr text)))].

(** The tool is the first of the registry that matches the message. *)
Definition first_match (message : string) (tool : MCPTool) (tools : list MCPTool) : Prop :=
  exists pre post,
    tools = (pre ++ tool :: post)%list
    /\ (forall t, In t pre -> Intent.matchesToolIntent message t = Returned false)
    /\ Intent.matchesToolIntent message tool = Returned true.

(** The call of the tool fails, or the formatter throws on its result. *)
Definition unusable (H : Host) (tool : MCPTool) (r : Outcome json * World) : Prop :=
  match fst r with
  | Returned result => exists t, format_result H tool result = Threw t
  | Threw _ => True
  end.

(** ** The relay of a stream to the window *)

(** The events that reach the window: all of them when there is one,
    none otherwise. *)
Definition delivered (w : World) (es : list Event) : list Event :=
  if mainWindow w then es else [].

(** The values a Claude stream hands to [onToken], in order. *)
Fixpoint claude_tokens (chunks : list Chunk) : list jsval :=
  match chunks with
  | [] => []
  | content_block_delta (text_delta t) :: rest => Some (JStr t) :: claude_tokens rest
  | _ :: rest => claude_tokens rest
  end.

(** The values the lines of an Ollama stream hand to [onToken]. *)
Fixpoint lines_tokens (H : Host) (lines : list string) : list jsval :=
  match lines with
  | [] => []
  | line :: rest =>
      match line_token H line with
      | Some token => token :: lines_tokens H rest
      | None => lines_tokens H rest
      end
  end.

Fixpoint ollama_tokens (H : Host) (reads : list string) : list jsval :=
  match reads with
  | [] => []
  | chunk :: rest => (lines_tokens H (lines_of chunk) ++ ollama_tokens H rest)%list
  end.

(** [fullResponse] after [fullResponse += token] for each token that
    converts to a string; for another token the addition throws and the
    token is left out. *)
Fixpoint text_of (tokens : list jsval) : string :=
  match tokens with
  | [] => ""
  | token :: rest =>
      if convertible token then plain_text token ++ text_of rest else text_of rest
  end.

(** What the backend does with a streaming request sent in world [w]: the
    tokens it delivers, and the failure that ends the stream, if any. *)
Definition stream_outcome (H : Host) (w : World) (request : list LLMMessage)
  : list jsval * option Thrown :=
  match llm_provider w with
  | claude =>
      match messages_stream H (model_requests (trace w)) request with
      | Returned (chunks, failure) => (claude_tokens chunks, failure)
      | Threw t => ([], Some t)
      end
  | ollama =>
      match fetch H (model_requests (trace w)) (llm_model w) request true with
      | Returned response =>
          if ok response then
            match body_reader response with
            | Some (reads, failure) => (ollama_tokens H reads, failure)
            | None => ([], Some (new_Error "Response body is not readable"))
            end
          else ([], Some (new_Error ("Ollama API error: " ++ statusText response)))
      | Threw t => ([], Some t)
      end
  end.

Definition token_events (tokens : list jsval) : list Event :=
  List.map (fun token => Send "chat-token" (assistant_reply token)) tokens.

Definition completion (fullResponse : string) : Event :=
  Send "chat-complete" (assistant_reply (Some (JStr fullResponse))).

(** What the [onError] callback of [processMessage] sends for an error
    when there is a window, and what the [catch] block of [streamChat] then
    throws: reading [error.message] throws when the value thrown is [null]
    or [undefined].  Without a window the message is not read. *)
Definition reported (error : Thrown) : list Event :=
  match message_of error with
  | Returned m => [Send "chat-error" [("error", m)]]
  | Threw _ => []
  end.

Definition rethrown (w : World) (error : Thrown) : Thrown :=
  if mainWindow w then
    match message_of error with
    | Returned _ => error
    | Threw t => t
    end
  else error.

(** ** The handlers of the main process *)

(** [ipcMain.on('chat-message', async (event, message) => { ... })]; the
    reply of the [catch] block goes to the frame the message came from. *)
Definition on_chat_message (H : Host) (message : string) : M unit :=
  try_catch (processMessage H message)
    (fun _ =>
       emit (Send "chat-response"
               [("type", Some (JStr "assistant"));
                ("content",
                 Some (JStr "Sorry, I encountered an error processing your message."))])).

(** Events of the conversation: requests to the model, and the three
    channels [processMessage] and its callbacks send on. *)
Definition chat_event (e : Event) : bool :=
  match e with
  | ModelRequest _ _ _ _ => true
  | Send channel _ =>
      String.eqb channel "chat-token" || String.eqb channel "chat-complete"
      || String.eqb channel "chat-error"
  | _ => false
  end.

(** The events that end the answer to a message. *)
Definition terminal (e : Event) : bool :=
  match e with
  | Send channel _ =>
      String.eqb channel "chat-complete" || String.eqb channel "chat-error"
  | _ => false
  end.

Definition on_channel (channel : string) (e : Event) : bool :=
  match e with
  | Send c _ => String.eqb c channel
  | _ => false
  end.

(** No line of the stream is a JSON document. *)
Definition unparseable (H : Host) (reads : list string) : Prop :=
  forall chunk line, In chunk reads -> In line (lines_of chunk) -> JSON_parse H line = None.

(** A host whose Ollama backend streams the two halves of one JSON line in
    two reads. *)
Definition host_split_line : Host :=
  mkHost parse_some (fun _ => "{}") (fun _ _ => false) (fun _ _ _ => unreached)
         (fun _ _ => unreached) (fun _ _ => unreached)
         (fun _ _ _ _ =>
            Returned (mkResponse true "OK" unreached
                        (Some (["{" ++ dquote ++ "message" ++ dquote ++ ":{";
                                dquote ++ "content" ++ dquote ++ ":" ++ dquote ++ "Hi"
                                ++ dquote ++ "}}"], None)))).

(** A host whose parser reads the line "token" as a message that carries
    the token "Hi". *)
Definition host_one_token : Host :=
  mkHost (fun line =>
            if String.eqb line "token"
            then Some (JObj [("message", JObj [("content", JStr "Hi")])])
            else None)
         (fun _ => "{}") (fun _ _ => false) (fun _ _ _ => unreached)
         (fun _ _ => unreached) (fun _ _ => unreached) (fun _ _ _ _ => unreached).

(** A host whose Ollama backend streams three lines: "Hi", a token that
    is an object with a key [toString], and "!". *)
Definition odd_token : json := JObj [("toString", JNum 1)].

Definition host_odd_token : Host :=
  mkHost (fun line =>
            if String.eqb line "first"
            then Some (JObj [("message", JObj [("content", JStr "Hi")])])
            else if String.eqb line "second"
            then Some (JObj [("message", JObj [("content", odd_token)])])
            else if String.eqb line "third"
            then Some (JObj [("message", JObj [("content", JStr "!")])])
            else None)
         (fun _ => "{}") (fun _ _ => false) (fun _ _ _ => unreached)
         (fun _ _ => unreached) (fun _ _ => unreached)
         (fun _ _ _ _ =>
            Returned (mkResponse true "OK" unreached
                        (Some (["first" ++ nl ++ "second"; "third"], None)))).

(** Callbacks whose [onToken] always throws. *)
Definition throwing_callbacks : StreamCallbacks :=
  mkCallbacks (fun _ => throw (new_Error "renderer gone")) None None.

(** ** The formatters *)

(** The expression returns a value. *)
Definition returns {A : Type} (o : Outcome A) : bool :=
  match o with
  | Returned _ => true
  | Threw _ => false
  end.

(** [v?.length ? v.join(', ') : ''] does not throw: [v?.length] is falsy,
    or [v] is an array whose elements convert to a string. *)
Definition joinable (v : jsval) : bool :=
  negb (Js.truthy (Js.get_opt v "length"))
  || match v with
     | Some (JArr items) => List.forallb convertible_json items
     | _ => false
     end.

(** The record can be rendered by [formatArtworkDetails]: the values it
    prints convert to a string, and [materials] and [dimensions] can be
    joined. *)
Definition details_well_formed (result : json) : bool :=
  let field := Js.get_opt (Some result) in
  convertible (field "title")
  && convertible (if Js.truthy (field "principalOrFirstMaker")
                  then field "principalOrFirstMaker" else field "artist")
  && convertible (field "longTitle")
  && convertible (field "description")
  && joinable (field "materials")
  && joinable (field "dimensions")
  && convertible (Js.get_opt (field "webImage") "url")
  && convertible (Js.get_opt (field "links") "web").

(** The entry can be rendered in the list of [formatArtistTimeline]. *)
Definition dated_well_formed (item : json) : bool :=
  readable item
  && convertible (Js.get_opt (Some item) "date")
  && convertible (Js.get_opt (Some item) "title").

(** The entry can be rendered in the list of [formatArtworkSearchResult]:
    it is not [null], its [longTitle] is a string, its [productionPlaces]
    can be joined, and the other values it prints convert to a string. *)
Definition listed_well_formed (a : json) : bool :=
  let field := Js.get_opt (Some a) in
  readable a
  && convertible (field "title")
  && convertible (field "objectNumber")
  && match field "longTitle" with Some (JStr _) => true | _ => false end
  && joinable (field "productionPlaces")
  && convertible (Js.get_opt (field "webImage") "url").

(** The result can be rendered by [formatArtworkSearchResult]. *)
Definition search_well_formed (result : json) : bool :=
  match Js.get_opt (Some result) "artworks" with
  | Some (JArr (first :: rest)) =>
      convertible (Js.get_opt (Some first) "principalOrFirstMaker")
      && List.forallb listed_well_formed (first :: rest)
  | _ => true
  end.

(** An artwork whose artist is an object with a key [toString]. *)
Definition odd_artist : json :=
  JObj [("title", JStr "The Milkmaid"); ("artist", JObj [("toString", JNum 1)])].

(** A search result whose only entry has no [longTitle]. *)
Definition untitled_result : json :=
  JObj [("artworks", JArr [JObj [("title", JStr "The Milkmaid")]])].

(** A host whose tool provider answers every search with
    [untitled_result]. *)
Definition host_untitled : Host :=
  mkHost (fun _ => Some untitled_result) (fun _ => "{}") (fun _ _ => false)
         (fun _ _ _ => text_reply "{}")
         (fun _ _ => unreached) (fun _ _ => unreached) (fun _ _ _ _ => unreached).

(** The names that have an entry in the trigger table. *)
Definition trigger_names : list string := List.map fst Intent.toolTriggers.

(** A registry that advertises a tool the trigger table does not know. *)
Definition favourites_tool : MCPTool := mkTool "search_favourites" None None.

(** What [formatArtworkDetails] makes of a string: every field reads as
    [undefined]. *)
Definition details_of_nothing : string :=
  "Here are the details of the artwork:" ++ nl
  ++ nl
  ++ "Title: undefined" ++ nl
  ++ "Artist: undefined" ++ nl
  ++ nl ++ nl ++ nl ++ nl ++ nl
  ++ nl
  ++ "You can view more details on the Rijksmuseum website: undefined".

(** A host whose tool provider answers in plain words. *)
Definition host_plain_words : Host :=
  tool_host (fun _ _ _ => text_reply "The Night Watch hangs in the Gallery of Honour.").

(** ** The arguments extracted from a message *)

Definition is_quote (c : ascii) : bool :=
  Nat.eqb (JsString.code c) 34 || Nat.eqb (JsString.code c) 39.

(** Every character of the string has the property. *)
Definition all_chars (q : ascii -> bool) (s : string) : bool :=
  List.forallb q (list_ascii_of_string s).

(** The string holds no double quote and no apostrophe. *)
Definition quote_free (s : string) : bool :=
  all_chars (fun c => negb (is_quote c)) s.

(** The string holds no upper-case letter. *)
Definition lower_cased (s : string) : bool :=
  all_chars (fun c => negb (JsString.is_upper c)) s.

(** [args[key]] *)
Fixpoint argument (key : string) (args : jsobject) : jsval :=
  match args with
  | [] => undefined
  | (k, v) :: rest => if String.eqb key k then v else argument key rest
  end.

(** ** The summaries of the direct actions *)

Definition opened_summary (artwork : json) : string :=
  "I've opened the image of " ++ dquote
  ++ plain_text (Js.get_opt (Some artwork) "title") ++ dquote
  ++ " by " ++ plain_text (Js.get_opt (Some artwork) "artist") ++ " in your browser.".

Definition retrieved_summary (artwork : json) : string :=
  "I've retrieved the details for " ++ dquote
  ++ plain_text (Js.get_opt (Some artwork) "title") ++ dquote
  ++ " by " ++ plain_text (Js.get_opt (Some artwork) "artist") ++ ".".

(** The title and the artist of the entry convert to a string. *)
Definition nameable (artwork : json) : bool :=
  convertible (Js.get_opt (Some artwork) "title")
  && convertible (Js.get_opt (Some artwork) "artist").

(** The artwork of the cache that a direct request names: the capture of
    the request pattern [r], looked up with [find]. *)
Definition requested (r : Regex.re) (message : string) (w : World) : Outcome jsval :=
  match Regex.exec r (JsString.toLowerCase message) with
  | Some m =>
      let? items := as_array "find" (recentArtworks w) in
      find (mentions (Intent.group1_or (Some m) "")) items
  | None => Returned undefined
  end.

Unset Implicit Arguments.

(* ================================================================== *)
(** * Basic facts: strings, the monad, traces *)
(* ================================================================== *)

Lemma startsWith_spec (s p : string) :
  JsString.startsWith s p = true <-> exists rest, s = (p ++ rest)%string.
Proof.
  revert s. induction p as [|a p IH]; intro s; simpl.
  - destruct s; split; intros; eauto.
  - destruct s as [|b s]; simpl.
    + split; [discriminate|]. intros [rest E]. discriminate.
    + rewrite andb_true_iff, IH. split.
      * intros [E [rest ->]]. apply Ascii.eqb_eq in E as ->. now exists rest.
      * intros [rest [= -> ->]]. split; [apply Ascii.eqb_refl|now exists rest].
Qed.

(** [includes] is the substring test. *)
Lemma includes_spec (s t : string) :
  JsString.includes s t = true <-> exists a b, s = (a ++ t ++ b)%string.
Proof.
  induction s as [|c s IH]; cbn [JsString.includes].
  - rewrite orb_false_r, startsWith_spec. split.
    + intros [rest E]. now exists "", rest.
    + intros [[|x a] [b E]]; [now exists b|discriminate].
  - rewrite orb_true_iff, startsWith_spec, IH. split.
    + intros [[rest E]|[a [b ->]]].
      * now exists "", rest.
      * now exists (String c a), b.
    + intros [[|x a] [b E]].
      * left. now exists b.
      * right. injection E as -> ->. now exists a, b.
Qed.

(* ================================================================== *)
(** * The matcher never runs out of fuel *)
(* ================================================================== *)

Section RegexFacts.
Import Regex.
Variable A : Type.

Lemma reaches_refl (pos : nat) (s : list ascii) : reaches pos s pos s.
Proof. split; lia. Qed.

Lemma reaches_trans (p1 p2 p3 : nat) (s1 s2 s3 : list ascii) :
  reaches p1 s1 p2 s2 -> reaches p2 s2 p3 s3 -> reaches p1 s1 p3 s3.
Proof. unfold reaches. lia. Qed.

Lemma iterate_ext (step : nat -> list ascii -> caps -> cont A -> option A)
  (greedy : bool) :
  local step ->
  forall fuel pos s c k k',
    (forall pos' s' c', reaches pos s pos' s' -> k pos' s' c' = k' pos' s' c') ->
    iterate step greedy k fuel pos s c = iterate step greedy k' fuel pos s c.
Proof.
  intros Hstep. induction fuel as [|fuel IH]; intros pos s c k k' Hk; simpl.
  - apply Hk, reaches_refl.
  - rewrite (Hk pos s c (reaches_refl pos s)).
    rewrite (Hstep pos s c
               (fun pos' s' c' =>
                  if Nat.ltb pos pos' then iterate step greedy k fuel pos' s' c' else None)
               (fun pos' s' c' =>
                  if Nat.ltb pos pos' then iterate step greedy k' fuel pos' s' c' else None));
      [reflexivity|].
    intros pos' s' c' R. destruct (Nat.ltb pos pos'); [|reflexivity].
    apply IH. intros p2 s2 c2 R2. apply Hk. eapply reaches_trans; eassumption.
Qed.

Lemma run_ext (r : re) : local (run (A := A) r).
Proof.
  induction r as [| |p|r1 IH1 r2 IH2|r1 IH1 r2 IH2|greedy r1 IH1|i r1 IH1];
    intros pos s c k k' Hk; simpl.
  - apply Hk, reaches_refl.
  - destruct (Nat.eqb pos 0); [apply Hk, reaches_refl|reflexivity].
  - destruct s as [|a s']; [reflexivity|].
    destruct (p a); [|reflexivity]. apply Hk. split; simpl; lia.
  - apply IH1. intros p1 s1 c1 R1. apply IH2. intros p2 s2 c2 R2.
    apply Hk. eapply reaches_trans; eassumption.
  - now rewrite (IH1 pos s c k k' Hk), (IH2 pos s c k k' Hk).
  - now apply iterate_ext.
  - apply IH1. intros p1 s1 c1 R1. now apply Hk.
Qed.

Lemma iterate_fails (step : nat -> list ascii -> caps -> cont A -> option A)
  (greedy : bool) :
  local step ->
  (forall pos s c, step pos s c (fun _ _ _ => None) = None) ->
  forall fuel pos s c, iterate step greedy (fun _ _ _ => None) fuel pos s c = None.
Proof.
  intros Hstep Hnone. induction fuel as [|fuel IH]; intros pos s c; simpl; [reflexivity|].
  rewrite (Hstep pos s c _ (fun _ _ _ => None)).
  - rewrite Hnone. now destruct greedy.
  - intros pos' s' c' _. destruct (Nat.ltb pos pos'); [apply IH|reflexivity].
Qed.

Lemma run_fails (r : re) :
  forall pos s c, run (A := A) r pos s c (fun _ _ _ => None) = None.
Proof.
  induction r as [| |p|r1 IH1 r2 IH2|r1 IH1 r2 IH2|greedy r1 IH1|i r1 IH1];
    intros pos s c; simpl.
  - reflexivity.
  - now destruct (Nat.eqb pos 0).
  - destruct s as [|a s']; [reflexivity|]. now destruct (p a).
  - rewrite (run_ext r1 pos s c _ (fun _ _ _ => None)); [apply IH1|].
    intros p1 s1 c1 _. apply IH2.
  - now rewrite IH1, IH2.
  - apply iterate_fails; [apply run_ext|exact IH1].
  - apply IH1.
Qed.

(** With the input exhausted, no further iteration succeeds. *)
Lemma iterate_at_end (r : re) (greedy : bool) (k : cont A) (fuel pos : nat) (c : caps) :
  iterate (run r) greedy k fuel pos [] c = k pos [] c.
Proof.
  destruct fuel as [|fuel]; simpl; [reflexivity|].
  rewrite (run_ext r pos [] c _ (fun _ _ _ => None)).
  - rewrite run_fails. destruct greedy; [reflexivity|]. now destruct (k pos [] c).
  - intros pos' s' c' [R1 R2]. simpl in R1.
    assert (Nat.ltb pos pos' = false) as -> by (apply Nat.ltb_ge; lia). reflexivity.
Qed.

(** Any fuel that is at least the length of the input gives the same
    result: the bound on the number of iterations is never the reason why
    a repetition stops. *)
Lemma iterate_fuel (r : re) (greedy : bool) (k : cont A) :
  forall f1 f2 pos s c,
    List.length s <= f1 -> List.length s <= f2 ->
    iterate (run r) greedy k f1 pos s c = iterate (run r) greedy k f2 pos s c.
Proof.
  induction f1 as [|f1 IH]; intros f2 pos s c H1 H2.
  - destruct s; [|simpl in H1; lia]. now rewrite !iterate_at_end.
  - destruct f2 as [|f2].
    + destruct s; [|simpl in H2; lia]. now rewrite !iterate_at_end.
    + simpl.
      rewrite (run_ext r pos s c
                 (fun pos' s' c' =>
                    if Nat.ltb pos pos' then iterate (run r) greedy k f1 pos' s' c' else None)
                 (fun pos' s' c' =>
                    if Nat.ltb pos pos' then iterate (run r) greedy k f2 pos' s' c' else None));
        [reflexivity|].
      intros pos' s' c' [R1 R2]. destruct (Nat.ltb pos pos') eqn:L; [|reflexivity].
      apply Nat.ltb_lt in L. apply IH; lia.
Qed.

Lemma star_fuel_enough (r : re) (greedy : bool) (k : cont A) (fuel pos : nat)
  (s : list ascii) (c : caps) :
  List.length s <= fuel ->
  iterate (run r) greedy k fuel pos s c = run (Star greedy r) pos s c k.
Proof. intro Hfuel. simpl. now apply iterate_fuel. Qed.

Lemma iterate_some (step : nat -> list ascii -> caps -> cont A -> option A)
  (greedy : bool) (k : cont A) (x : A) :
  answers step ->
  forall fuel pos s c,
    iterate step greedy k fuel pos s c = Some x ->
    exists pos' s' c', reaches pos s pos' s' /\ k pos' s' c' = Some x.
Proof.
  intros Hstep. induction fuel as [|fuel IH]; intros pos s c E; simpl in E.
  - exists pos, s, c. split; [apply reaches_refl|exact E].
  - assert (forall y,
              step pos s c
                (fun pos' s' c' =>
                   if Nat.ltb pos pos' then iterate step greedy k fuel pos' s' c' else None)
              = Some y -> y = x ->
              exists pos' s' c', reaches pos s pos' s' /\ k pos' s' c' = Some x) as More.
    { intros y Ey ->. apply Hstep in Ey as [p1 [s1 [c1 [R1 E1]]]].
      destruct (Nat.ltb pos p1); [|discriminate].
      apply IH in E1 as [p2 [s2 [c2 [R2 E2]]]].
      exists p2, s2, c2. split; [eapply reaches_trans; eassumption|exact E2]. }
    destruct greedy.
    + destruct (step pos s c _) as [y|] eqn:Ey.
      * apply (More y eq_refl). now injection E.
      * exists pos, s, c. split; [apply reaches_refl|exact E].
    + destruct (k pos s c) as [y|] eqn:Ek.
      * exists pos, s, c. split; [apply reaches_refl|]. now rewrite Ek.
      * now apply (More x).
Qed.

Lemma run_some (r : re) : answers (run (A := A) r).
Proof.
  induction r as [| |p|r1 IH1 r2 IH2|r1 IH1 r2 IH2|greedy r1 IH1|i r1 IH1];
    intros pos s c k x E; simpl in E.
  - exists pos, s, c. split; [apply reaches_refl|exact E].
  - destruct (Nat.eqb pos 0); [|discriminate].
    exists pos, s, c. split; [apply reaches_refl|exact E].
  - destruct s as [|a s']; [discriminate|]. destruct (p a); [|discriminate].
    exists (S pos), s', c. split; [split; simpl; lia|exact E].
  - apply IH1 in E as [p1 [s1 [c1 [R1 E1]]]].
    apply IH2 in E1 as [p2 [s2 [c2 [R2 E2]]]].
    exists p2, s2, c2. split; [eapply reaches_trans; eassumption|exact E2].
  - destruct (run r1 pos s c k) as [y|] eqn:E1.
    + injection E as ->. now apply IH1 in E1.
    + now apply IH2 in E.
  - now apply iterate_some in E.
  - apply IH1 in E as [p1 [s1 [c1 [R1 E1]]]]. now exists p1, s1, ((i, firstn (p1 - pos) s) :: c1).
Qed.

End RegexFacts.

(** A match lies inside the input that was searched. *)
Lemma search_bounds (r : Regex.re) :
  forall s pos m,
    Regex.search r pos s = Some m ->
    pos <= Regex.m_start m /\ Regex.m_start m <= Regex.m_end m
    /\ Regex.m_end m <= pos + List.length s.
Proof.
  induction s as [|a s IH]; intros pos m E; simpl in E.
  - destruct (Regex.run r pos [] [] _) as [[e c]|] eqn:R; [|discriminate].
    injection E as <-. simpl.
    apply run_some in R as [p' [s' [c' [[R1 R2] [= -> _]]]]]. simpl in R1. lia.
  - destruct (Regex.run r pos (a :: s) [] _) as [[e c]|] eqn:R.
    + injection E as <-. simpl.
      apply run_some in R as [p' [s' [c' [[R1 R2] [= -> _]]]]]. simpl in R1. lia.
    + apply IH in E. simpl. lia.
Qed.

(** Any fuel above the length of the input gives the same replacement. *)
Lemma replace_from_fuel (r : Regex.re) (rep : list ascii) :
  forall f1 f2 pos s,
    List.length s < f1 -> List.length s < f2 ->
    Regex.replace_from f1 r rep pos s = Regex.replace_from f2 r rep pos s.
Proof.
  induction f1 as [|f1 IH]; intros f2 pos s H1 H2; [lia|].
  destruct f2 as [|f2]; [lia|]. simpl.
  destruct (Regex.search r pos s) as [m|] eqn:E; [|reflexivity].
  apply search_bounds in E as [B1 [B2 B3]].
  destruct (Nat.eqb (Regex.m_end m) (Regex.m_start m)) eqn:Empty.
  - destruct (skipn (Regex.m_start m - pos) s) as [|a rest] eqn:K; [reflexivity|].
    assert (List.length rest < List.length s).
    { pose proof (length_skipn (Regex.m_start m - pos) s) as L.
      rewrite K in L. simpl in L. lia. }
    do 3 f_equal. apply IH; lia.
  - apply Nat.eqb_neq in Empty.
    assert (List.length (skipn (Regex.m_end m - pos) s) < List.length s)
      by (rewrite length_skipn; lia).
    do 2 f_equal. apply IH; lia.
Qed.

(** The monad laws, and the two rules of [try]/[catch], run by run. *)
Lemma bind_ret {A B : Type} (a : A) (k : A -> M B) (w : World) :
  bind (ret a) k w = k a w.
Proof. reflexivity. Qed.

Lemma bind_throw {A B : Type} (t : Thrown) (k : A -> M B) (w : World) :
  bind (throw t) k w = throw t w.
Proof. reflexivity. Qed.

Lemma ret_bind {A : Type} (m : M A) (w : World) : bind m ret w = m w.
Proof. unfold bind. now destruct (m w) as [[a|t] w']. Qed.

Lemma bind_bind {A B C : Type} (m : M A) (k : A -> M B) (h : B -> M C) (w : World) :
  bind (bind m k) h w = bind m (fun a => bind (k a) h) w.
Proof. unfold bind. now destruct (m w) as [[a|t] w']. Qed.

Lemma try_catch_ret {A : Type} (a : A) (h : Thrown -> M A) (w : World) :
  try_catch (ret a) h w = ret a w.
Proof. reflexivity. Qed.

Lemma try_catch_throw {A : Type} (t : Thrown) (h : Thrown -> M A) (w : World) :
  try_catch (throw t) h w = h t w.
Proof. reflexivity. Qed.

Lemma logs_nil (w : World) : logs [] w = w.
Proof. destruct w; unfold logs; simpl. now rewrite app_nil_r. Qed.

Lemma log_is_logs (e : Event) (w : World) : log e w = logs [e] w.
Proof. reflexivity. Qed.

Lemma logs_logs (a b : list Event) (w : World) :
  logs b (logs a w) = logs (a ++ b) w.
Proof. unfold logs; simpl. now rewrite app_assoc. Qed.

Lemma tool_requests_app (a b : list Event) :
  tool_requests (a ++ b) = tool_requests a + tool_requests b.
Proof. unfold tool_requests. now rewrite filter_app, length_app. Qed.

Lemma model_requests_app (a b : list Event) :
  model_requests (a ++ b) = model_requests a + model_requests b.
Proof. unfold model_requests. now rewrite filter_app, length_app. Qed.

Lemma delays_retried (tool : string) (args : jsobject) (k : nat) :
  filter is_Delay (retried tool args k) = repeat (Delay RETRY_DELAY) k.
Proof. induction k as [|k IH]; [reflexivity|]. simpl. now rewrite IH. Qed.

(* ================================================================== *)
(** * The tool invoker *)
(* ================================================================== *)

Section InvokerFacts.
Variable H : Host.

(** One attempt: the request is logged, and the attempt returns the
    extracted payload, or throws what the transport threw, or throws the
    invalid-format error. *)
Lemma callTool_try_run (tool : string) (args : jsobject) (w : World) :
  callTool_try H tool args w =
  (match transport H (tool_requests (trace w)) tool args with
   | Returned response =>
       match extract_text_content H response with
       | Some result => Returned result
       | None => Threw (new_Error "Invalid response format from server")
       end
   | Threw t => Threw t
   end, logs [ToolRequest tool args] w).
Proof.
  unfold callTool_try, bind, client_request. rewrite log_is_logs.
  destruct (transport H (tool_requests (trace w)) tool args) as [response|t]; [|reflexivity].
  destruct (extract_text_content H response); reflexivity.
Qed.

(** The recursion of the source: [callTool(name, args, retryCount)] calls
    [callTool(name, args, retryCount + 1)] while [retryCount < MAX_RETRIES]. *)
Lemma callTool_unfold (tool : string) (args : jsobject) (retryCount : nat) (w : World) :
  callTool H tool args retryCount w =
  try_catch (callTool_try H tool args)
    (fun error =>
       match error with
       | ThrowError e =>
           if status_is_500 e && Nat.ltb retryCount MAX_RETRIES then
             sleep RETRY_DELAY ;; callTool H tool args (retryCount + 1)
           else if status_is_500 e then throw retries_exhausted
           else throw error
       | ThrowValue _ => throw error
       end) w.
Proof.
  unfold callTool.
  destruct (Nat.ltb retryCount MAX_RETRIES) eqn:E.
  - apply Nat.ltb_lt in E.
    replace (MAX_RETRIES - retryCount) with (S (MAX_RETRIES - (retryCount + 1))) by lia.
    simpl. unfold try_catch.
    destruct (callTool_try H tool args w) as [[a|[e|v]] w']; try reflexivity.
    now destruct (status_is_500 e).
  - apply Nat.ltb_ge in E.
    replace (MAX_RETRIES - retryCount) with 0 by lia.
    simpl. unfold try_catch.
    destruct (callTool_try H tool args w) as [[a|[e|v]] w']; try reflexivity.
    now destruct (status_is_500 e).
Qed.

Lemma callTool_remaining_run (remaining : nat) (tool : string) (args : jsobject)
  (w : World) :
  callTool_remaining H remaining tool args w =
  match transport H (tool_requests (trace w)) tool args with
  | Returned response =>
      (match extract_text_content H response with
       | Some result => Returned result
       | None => Threw (new_Error "Invalid response format from server")
       end, logs [ToolRequest tool args] w)
  | Threw t =>
      if reports_500 t then
        match remaining with
        | S remaining' =>
            callTool_remaining H remaining' tool args
              (logs [ToolRequest tool args; Delay RETRY_DELAY] w)
        | O => (Threw retries_exhausted, logs [ToolRequest tool args] w)
        end
      else (Threw t, logs [ToolRequest tool args] w)
  end.
Proof.
  destruct remaining as [|r]; simpl; unfold try_catch; rewrite callTool_try_run;
    destruct (transport H (tool_requests (trace w)) tool args) as [response|[e|v]];
    simpl; try reflexivity;
    try (destruct (extract_text_content H response); reflexivity);
    destruct (status_is_500 e); try reflexivity.
  unfold bind, sleep, emit. rewrite log_is_logs, logs_logs. reflexivity.
Qed.

Lemma tool_requests_logs (es : list Event) (w : World) :
  tool_requests (trace (logs es w)) = tool_requests (trace w) + tool_requests es.
Proof. unfold logs; simpl. apply tool_requests_app. Qed.

(** Every attempt rejected with status 500: [remaining + 1] attempts, a
    delay before each retry, then the retry-exhaustion error. *)
Lemma callTool_remaining_exhausts (tool : string) (args : jsobject) :
  forall (remaining : nat) (w : World),
    (forall i, i <= remaining ->
       rejects_500 (transport H (tool_requests (trace w) + i) tool args)) ->
    callTool_remaining H remaining tool args w =
    (Threw retries_exhausted,
     logs (retried tool args remaining ++ [ToolRequest tool args]) w).
Proof.
  induction remaining as [|r IH]; intros w Hall; rewrite callTool_remaining_run.
  - destruct (Hall 0 (Nat.le_refl 0)) as [t [Ht H5]].
    rewrite Nat.add_0_r in Ht. rewrite Ht, H5. reflexivity.
  - destruct (Hall 0 (Nat.le_0_l _)) as [t [Ht H5]].
    rewrite Nat.add_0_r in Ht. rewrite Ht, H5.
    rewrite IH.
    + rewrite logs_logs. reflexivity.
    + intros i Hi. rewrite tool_requests_logs.
      change (tool_requests [ToolRequest tool args; Delay RETRY_DELAY]) with 1.
      rewrite <- Nat.add_assoc. apply Hall. simpl. lia.
Qed.

(** [k] attempts rejected with status 500, [k] within the retries still
    allowed, then a reply: [k] delays, and the outcome of that reply. *)
Lemma callTool_remaining_recovers (tool : string) (args : jsobject)
  (response : CallToolResult) :
  forall (k remaining : nat) (w : World),
    k <= remaining ->
    (forall i, i < k ->
       rejects_500 (transport H (tool_requests (trace w) + i) tool args)) ->
    transport H (tool_requests (trace w) + k) tool args = Returned response ->
    callTool_remaining H remaining tool args w =
    (match extract_text_content H response with
     | Some result => Returned result
     | None => Threw (new_Error "Invalid response format from server")
     end,
     logs (retried tool args k ++ [ToolRequest tool args]) w).
Proof.
  induction k as [|k IH]; intros remaining w Hk Hfail Hok; rewrite callTool_remaining_run.
  - rewrite Nat.add_0_r in Hok. rewrite Hok. reflexivity.
  - destruct remaining as [|r]; [lia|].
    destruct (Hfail 0 (Nat.lt_0_succ _)) as [t [Ht H5]].
    rewrite Nat.add_0_r in Ht. rewrite Ht, H5.
    rewrite IH.
    + rewrite logs_logs. reflexivity.
    + lia.
    + intros i Hi. rewrite tool_requests_logs.
      change (tool_requests [ToolRequest tool args; Delay RETRY_DELAY]) with 1.
      rewrite <- Nat.add_assoc. apply Hfail. simpl. lia.
    + rewrite tool_requests_logs.
      change (tool_requests [ToolRequest tool args; Delay RETRY_DELAY]) with 1.
      rewrite <- Nat.add_assoc. exact Hok.
Qed.

End InvokerFacts.

(** C1. Retry policy of [callTool].  With the transport rejecting every
    attempt with status exactly 500 (an [Error] whose [status] is the
    number 500), the tool is requested four times, a
    delay of 1000 ms precedes each of the three retries, and the call fails
    with the retry-exhaustion error.  With the first attempt rejected with
    anything else, there is that one request and the rejection propagates
    unchanged.  With status 500 on the first [k <= 3] attempts and then a
    reply with text content, the payload of that reply is returned, after
    exactly [k] delays. *)
Theorem callTool_retry_policy (H : Host) (tool : string) (args : jsobject) (w : World) :
  let n := tool_requests (trace w) in
  ((forall i, i <= 3 -> rejects_500 (transport H (n + i) tool args)) ->
   callTool H tool args 0 w =
   (Threw retries_exhausted,
    logs [ToolRequest tool args; Delay 1000;
          ToolRequest tool args; Delay 1000;
          ToolRequest tool args; Delay 1000;
          ToolRequest tool args] w))
  /\
  (forall t, transport H n tool args = Threw t -> reports_500 t = false ->
   callTool H tool args 0 w = (Threw t, logs [ToolRequest tool args] w))
  /\
  (forall k response payload,
     k <= 3 ->
     (forall i, i < k -> rejects_500 (transport H (n + i) tool args)) ->
     transport H (n + k) tool args = Returned response ->
     extract_text_content H response = Some payload ->
     callTool H tool args 0 w =
     (Returned payload, logs (retried tool args k ++ [ToolRequest tool args]) w)
     /\ filter is_Delay (retried tool args k ++ [ToolRequest tool args])
        = repeat (Delay 1000) k).
Proof.
  intro n. unfold callTool. change (MAX_RETRIES - 0) with 3. split; [|split].
  - intro Hall. now rewrite callTool_remaining_exhausts.
  - intros t Ht H5. rewrite callTool_remaining_run. fold n. now rewrite Ht, H5.
  - intros k response payload Hk Hfail Hreply Hpayload. split.
    + rewrite (callTool_remaining_recovers H tool args response k 3 w Hk Hfail Hreply).
      now rewrite Hpayload.
    + rewrite filter_app, delays_retried. simpl. now rewrite app_nil_r.
Qed.

Lemma callTool_retry_policy_witness :
  callTool host_500 "search_artwork" [] 0 (fresh ollama []) =
    (Threw retries_exhausted,
     logs [ToolRequest "search_artwork" []; Delay 1000;
           ToolRequest "search_artwork" []; Delay 1000;
           ToolRequest "search_artwork" []; Delay 1000;
           ToolRequest "search_artwork" []] (fresh ollama []))
  /\ callTool host_404 "search_artwork" [] 0 (fresh ollama []) =
    (Threw (http_error 404), logs [ToolRequest "search_artwork" []] (fresh ollama []))
  /\ callTool host_flaky "search_artwork" [] 0 (fresh ollama []) =
    (Returned (JArr []),
     logs (retried "search_artwork" [] 3 ++ [ToolRequest "search_artwork" []])
       (fresh ollama [])).
Proof.
  split; [|split].
  - apply (proj1 (callTool_retry_policy host_500 "search_artwork" [] (fresh ollama []))).
    intros i _. exists (http_error 500). split; reflexivity.
  - apply (proj1 (proj2 (callTool_retry_policy host_404 "search_artwork" []
                           (fresh ollama [])))); reflexivity.
  - apply (proj2 (proj2 (callTool_retry_policy host_flaky "search_artwork" []
                           (fresh ollama [])))
             3 (mkResult (Some [mkBlock "text" (Some "[]")])) (JArr [])).
    + apply Nat.le_refl.
    + intros i Hi. exists (http_error 500). split; [|reflexivity].
      simpl. destruct i as [|[|[|i]]]; try reflexivity. lia.
    + reflexivity.
    + reflexivity.
Defined.

(* ================================================================== *)
(** * Frame reasoning in the monad *)
(* ================================================================== *)

Section Respects.
Variable R : World -> World -> Prop.
Hypothesis R_refl : forall w, R w w.
Hypothesis R_trans : forall w1 w2 w3, R w1 w2 -> R w2 w3 -> R w1 w3.

Lemma respects_ret {A : Type} (a : A) : respects R (ret a).
Proof. intro w. apply R_refl. Qed.

Lemma respects_throw {A : Type} (t : Thrown) : respects R (@throw A t).
Proof. intro w. apply R_refl. Qed.

Lemma respects_lift {A : Type} (o : Outcome A) : respects R (lift o).
Proof. intro w. apply R_refl. Qed.

Lemma respects_read {A : Type} (f : World -> A) : respects R (read f).
Proof. intro w. apply R_refl. Qed.

Lemma respects_bind {A B : Type} (m : M A) (k : A -> M B) :
  respects R m -> (forall a, respects R (k a)) -> respects R (bind m k).
Proof.
  intros Hm Hk w. unfold bind. specialize (Hm w).
  destruct (m w) as [[a|t] w1]; simpl in *; [|exact Hm].
  eapply R_trans; [exact Hm|apply Hk].
Qed.

Lemma respects_try_catch {A : Type} (m : M A) (h : Thrown -> M A) :
  respects R m -> (forall t, respects R (h t)) -> respects R (try_catch m h).
Proof.
  intros Hm Hh w. unfold try_catch. specialize (Hm w).
  destruct (m w) as [[a|t] w1]; simpl in *; [exact Hm|].
  eapply R_trans; [exact Hm|apply Hh].
Qed.

End Respects.

Lemma set_recentArtworks_logs (c : json) (es : list Event) (w : World) :
  set_recentArtworks c (logs es w) = logs es (set_recentArtworks c w).
Proof. reflexivity. Qed.

Lemma set_recentArtworks_twice (c c' : json) (w : World) :
  set_recentArtworks c' (set_recentArtworks c w) = set_recentArtworks c' w.
Proof. reflexivity. Qed.

Lemma tool_step_refl (w : World) : tool_step w w.
Proof.
  exists (recentArtworks w), []. split; [|reflexivity].
  destruct w; unfold logs, set_recentArtworks; simpl. now rewrite app_nil_r.
Qed.

Lemma tool_step_trans (w1 w2 w3 : World) :
  tool_step w1 w2 -> tool_step w2 w3 -> tool_step w1 w3.
Proof.
  intros [c1 [e1 [-> F1]]] [c2 [e2 [-> F2]]].
  exists c2, (e1 ++ e2)%list. split.
  - now rewrite set_recentArtworks_logs, set_recentArtworks_twice, logs_logs.
  - rewrite forallb_app, F1, F2. reflexivity.
Qed.

Lemma tool_step_logs (es : list Event) (w : World) :
  forallb tool_event es = true -> tool_step w (logs es w).
Proof.
  intro F. exists (recentArtworks w), es. split; [|exact F].
  destruct w; reflexivity.
Qed.

Lemma tool_step_cache (c : json) (w : World) : tool_step w (set_recentArtworks c w).
Proof. exists c, []. split; [|reflexivity]. now rewrite logs_nil. Qed.

(** What a tool step leaves alone. *)
Lemma tool_step_frame (w w' : World) :
  tool_step w w' ->
  mainWindow w' = mainWindow w /\ availableTools w' = availableTools w
  /\ llm_provider w' = llm_provider w /\ llm_model w' = llm_model w
  /\ messageHistory w' = messageHistory w
  /\ model_requests (trace w') = model_requests (trace w)
  /\ exists es, trace w' = (trace w ++ es)%list /\ forallb tool_event es = true.
Proof.
  intros [c [es [-> F]]]. repeat split; simpl.
  - rewrite model_requests_app.
    assert (model_requests es = 0) as ->; [|lia].
    unfold model_requests. induction es as [|e es IH]; [reflexivity|].
    simpl in F. apply andb_prop in F as [Fe F].
    destruct e; simpl in *; try discriminate; auto.
  - exists es. split; [reflexivity|exact F].
Qed.

Create HintDb tool_steps.

#[local] Hint Resolve tool_step_refl tool_step_trans : tool_steps.

Ltac tool_steps :=
  repeat first
    [ solve [auto with tool_steps]
    | apply respects_ret; [exact tool_step_refl]
    | apply respects_throw; [exact tool_step_refl]
    | apply respects_lift; [exact tool_step_refl]
    | apply respects_read; [exact tool_step_refl]
    | apply respects_bind; [exact tool_step_trans| |intro]
    | apply respects_try_catch; [exact tool_step_trans| |intro]
    | match goal with
      | |- respects _ (if ?b then _ else _) => destruct b
      | |- respects _ (match ?x with _ => _ end) => destruct x
      end ].

Section ToolSteps.
Variable H : Host.

Lemma callTool_remaining_tool_step (tool : string) (args : jsobject) :
  forall remaining, respects tool_step (callTool_remaining H remaining tool args).
Proof.
  induction remaining as [|r IH]; intro w; rewrite callTool_remaining_run;
    destruct (transport H (tool_requests (trace w)) tool args) as [response|t];
    simpl; try (now apply tool_step_logs);
    destruct (reports_500 t); simpl; try (now apply tool_step_logs).
  eapply tool_step_trans; [|apply IH]. now apply tool_step_logs.
Qed.

Lemma callTool_tool_step (tool : string) (args : jsobject) (retryCount : nat) :
  respects tool_step (callTool H tool args retryCount).
Proof. apply callTool_remaining_tool_step. Qed.

Lemma webContents_send_mcp_tool_step (payload : jsobject) :
  respects tool_step (webContents_send "mcp-message" payload).
Proof.
  intro w. unfold webContents_send. destruct (mainWindow w); simpl.
  - now apply tool_step_logs.
  - apply tool_step_refl.
Qed.

Lemma update_cache_tool_step (c : json) :
  respects tool_step (update (set_recentArtworks c)).
Proof. intro w. apply tool_step_cache. Qed.

#[local] Hint Resolve callTool_tool_step webContents_send_mcp_tool_step
  update_cache_tool_step : tool_steps.

Lemma searchArtworks_tool_step (query : string) :
  respects tool_step (searchArtworks H query).
Proof. unfold searchArtworks. tool_steps. Qed.

Lemma getArtworkDetails_tool_step (objectNumber : jsval) :
  respects tool_step (getArtworkDetails H objectNumber).
Proof. unfold getArtworkDetails. tool_steps. Qed.

Lemma openImageInBrowser_tool_step (imageUrl : jsval) :
  respects tool_step (openImageInBrowser H imageUrl).
Proof. unfold openImageInBrowser. tool_steps. Qed.

#[local] Hint Resolve getArtworkDetails_tool_step openImageInBrowser_tool_step
  : tool_steps.

Lemma extractAndExecuteActions_tool_step (message : string) :
  respects tool_step (extractAndExecuteActions H message).
Proof.
  unfold extractAndExecuteActions, try_open_image, try_get_details, find_recent.
  tool_steps.
Qed.

Lemma first_matching_tool_step (message : string) :
  forall tools, respects tool_step (first_matching H message tools).
Proof.
  induction tools as [|tool rest IH]; simpl; tool_steps.
Qed.

Lemma getRelevantContext_tool_step (message : string) :
  respects tool_step (getRelevantContext H message).
Proof.
  unfold getRelevantContext. tool_steps. apply first_matching_tool_step.
Qed.

End ToolSteps.

(* ================================================================== *)
(** * The conversation bridge *)
(* ================================================================== *)

Section BridgeFacts.
Variable H : Host.

(** [getRelevantContext] never throws to its caller. *)
Lemma getRelevantContext_returns (message : string) (w : World) :
  exists context w', getRelevantContext H message w = (Returned context, w').
Proof.
  unfold getRelevantContext, try_catch.
  destruct (bind (read availableTools) (fun tools => first_matching H message tools) w)
    as [[context|t] w'].
  - now exists context, w'.
  - now exists (Some error_apology), w'.
Qed.

End BridgeFacts.

(** C3. Apology short-circuit of [processMessage].  When the context
    assembler returns a string that contains "apologize" or "encountered an
    error", [processMessage] sends that string as a [chat-token] event and
    then as a [chat-complete] event (to the window, when there is one) and
    returns; everything that happened before is a tool-side event, so no
    request reaches the language-model backend for that message. *)
Theorem processMessage_error_context (H : Host) (message : string)
  (w w1 w2 : World) (actionResult : option string) (context : string) :
  extractAndExecuteActions H message w = (Returned actionResult, w1) ->
  getRelevantContext H message w1 = (Returned (Some context), w2) ->
  JsString.includes context "apologize" = true
  \/ JsString.includes context "encountered an error" = true ->
  processMessage H message w =
    (Returned tt,
     if mainWindow w
     then logs [Send "chat-token" (assistant_reply (Some (JStr context)));
                Send "chat-complete" (assistant_reply (Some (JStr context)))] w2
     else w2)
  /\ (exists es, trace w2 = (trace w ++ es)%list /\ forallb tool_event es = true)
  /\ model_requests (trace (snd (processMessage H message w)))
     = model_requests (trace w).
Proof.
  intros Hact Hctx Hphrase.
  assert (tool_step w w1) as S1
    by (pose proof (extractAndExecuteActions_tool_step H message w) as S;
        now rewrite Hact in S).
  assert (tool_step w1 w2) as S2
    by (pose proof (getRelevantContext_tool_step H message w1) as S;
        now rewrite Hctx in S).
  pose proof (tool_step_frame _ _ (tool_step_trans _ _ _ S1 S2))
    as [Hwin [_ [_ [_ [_ [Hreq Htrace]]]]]].
  assert (is_error_context (Some context) = true) as Herr
    by (simpl; destruct Hphrase as [-> | ->]; [reflexivity|apply orb_true_r]).
  assert (processMessage H message w =
          (Returned tt,
           if mainWindow w
           then logs [Send "chat-token" (assistant_reply (Some (JStr context)));
                      Send "chat-complete" (assistant_reply (Some (JStr context)))] w2
           else w2)) as Run.
  { unfold processMessage, try_catch, bind. rewrite Hact, Hctx, Herr.
    unfold webContents_send. rewrite <- Hwin.
    destruct (mainWindow w2) eqn:Hw; simpl; [|now rewrite Hw].
    unfold emit. simpl. rewrite Hw. simpl.
    now rewrite !log_is_logs, logs_logs. }
  split; [exact Run|]. split; [exact Htrace|].
  rewrite Run. simpl. destruct (mainWindow w); [|exact Hreq].
  simpl. rewrite model_requests_app, Hreq. simpl. unfold model_requests. simpl. lia.
Qed.

Lemma processMessage_error_context_witness :
  processMessage host_404 "find sunflowers" (fresh ollama [search_tool]) =
  (Returned tt,
   logs [Send "chat-token" (assistant_reply (Some (JStr api_apology)));
         Send "chat-complete" (assistant_reply (Some (JStr api_apology)))]
     (logs [ToolRequest "search_artwork" sunflowers_args] (fresh ollama [search_tool]))).
Proof.
  refine (proj1 (@processMessage_error_context host_404 "find sunflowers"
                   (fresh ollama [search_tool]) (fresh ollama [search_tool])
                   (logs [ToolRequest "search_artwork" sunflowers_args]
                      (fresh ollama [search_tool]))
                   None api_apology _ _ _)).
  - vm_compute. reflexivity.
  - vm_compute. reflexivity.
  - left. vm_compute. reflexivity.
Defined.

(* ================================================================== *)
(** * The response envelope *)
(* ================================================================== *)

Lemma textContent_of_no_text (items : list ContentBlock) :
  forallb (fun b => negb (is_text_block b)) items = true ->
  textContent_of items = "".
Proof.
  intro F. unfold textContent_of.
  assert (filter (fun item => String.eqb (type item) "text") items = []) as ->;
    [|reflexivity].
  induction items as [|b items IH]; [reflexivity|].
  simpl in *. apply andb_prop in F as [Fb F]. unfold is_text_block in Fb.
  destruct (String.eqb (type b) "text"); [discriminate|auto].
Qed.

Lemma filter_text_middle (pre post : list ContentBlock) (b : ContentBlock) :
  forallb (fun b => negb (is_text_block b)) pre = true ->
  forallb (fun b => negb (is_text_block b)) post = true ->
  is_text_block b = true ->
  filter (fun item => String.eqb (type item) "text") (pre ++ b :: post) = [b].
Proof.
  intros Fpre Fpost Hb. rewrite filter_app. simpl.
  unfold is_text_block in Hb. rewrite Hb.
  assert (forall l, forallb (fun b => negb (is_text_block b)) l = true ->
                    filter (fun item => String.eqb (type item) "text") l = []) as E.
  { induction l as [|x l IH]; [reflexivity|]. simpl. intro F.
    apply andb_prop in F as [Fx F]. unfold is_text_block in Fx.
    destruct (String.eqb (type x) "text"); [discriminate|auto]. }
  now rewrite (E pre Fpre), (E post Fpost).
Qed.

Lemma textContent_of_single_empty (pre post : list ContentBlock) (b : ContentBlock) :
  forallb (fun b => negb (is_text_block b)) pre = true ->
  forallb (fun b => negb (is_text_block b)) post = true ->
  is_empty_text_block b = true ->
  textContent_of (pre ++ b :: post) = "".
Proof.
  intros Fpre Fpost Hb. unfold is_empty_text_block in Hb.
  apply andb_prop in Hb as [Ht He].
  unfold textContent_of. rewrite (filter_text_middle pre post b Fpre Fpost Ht).
  simpl. destruct (text b) as [[|c t]|]; [reflexivity|discriminate|reflexivity].
Qed.

(** C4 (as amended). Response envelope of [callTool].  The texts of the
    text-typed content blocks are joined with a newline; a non-empty
    concatenation is returned parsed when [JSON.parse] accepts it and as
    the raw text otherwise; an empty concatenation (no content array, no
    text-typed block, or one text-typed block that is empty) makes the
    call fail with the invalid-response-format error.  Each case after
    exactly one request. *)
Theorem callTool_response_envelope (H : Host) (tool : string) (args : jsobject)
  (w : World) (response : CallToolResult) :
  transport H (tool_requests (trace w)) tool args = Returned response ->
  (forall items,
     result_content response = Some items ->
     textContent_of items =
       JsString.join nl
         (List.map (fun b => match text b with Some t => t | None => "" end)
            (List.filter is_text_block items))
     /\ (textContent_of items <> "" ->
         callTool H tool args 0 w =
         (Returned match JSON_parse H (textContent_of items) with
                   | Some parsed => parsed
                   | None => JStr (textContent_of items)
                   end,
          logs [ToolRequest tool args] w))
     /\ (textContent_of items = "" ->
         callTool H tool args 0 w =
         (Threw (new_Error "Invalid response format from server"),
          logs [ToolRequest tool args] w)))
  /\ (result_content response = None ->
      callTool H tool args 0 w =
      (Threw (new_Error "Invalid response format from server"),
       logs [ToolRequest tool args] w))
  /\ (forall items, forallb (fun b => negb (is_text_block b)) items = true ->
      textContent_of items = "")
  /\ (forall pre b post,
        forallb (fun b => negb (is_text_block b)) pre = true ->
        forallb (fun b => negb (is_text_block b)) post = true ->
        is_empty_text_block b = true ->
        textContent_of (pre ++ b :: post) = "").
Proof.
  intro Hreply.
  assert (callTool H tool args 0 w =
          (match extract_text_content H response with
           | Some result => Returned result
           | None => Threw (new_Error "Invalid response format from server")
           end, logs [ToolRequest tool args] w)) as Run
    by (unfold callTool; now rewrite callTool_remaining_run, Hreply).
  split; [|split; [|split]].
  - intros items Hitems. split; [reflexivity|]. split; intro Htext.
    + rewrite Run. unfold extract_text_content. rewrite Hitems.
      destruct (textContent_of items) eqn:E; [contradiction|]. simpl.
      now destruct (JSON_parse H (String a s)).
    + rewrite Run. unfold extract_text_content. now rewrite Hitems, Htext.
  - intro Hnone. rewrite Run. unfold extract_text_content. now rewrite Hnone.
  - exact textContent_of_no_text.
  - intros pre b post. apply textContent_of_single_empty.
Qed.

Lemma callTool_response_envelope_witness :
  callTool (host_replying (mkResult (Some [mkBlock "image" None; mkBlock "text" (Some "[]")])))
    "search_artwork" [] 0 (fresh ollama []) =
  (Returned (JArr []), logs [ToolRequest "search_artwork" []] (fresh ollama [])).
Proof.
  refine (proj1 (proj2 (proj1 (@callTool_response_envelope
            (host_replying (mkResult (Some [mkBlock "image" None; mkBlock "text" (Some "[]")])))
            "search_artwork" [] (fresh ollama [])
            (mkResult (Some [mkBlock "image" None; mkBlock "text" (Some "[]")]))
            eq_refl)
          [mkBlock "image" None; mkBlock "text" (Some "[]")] eq_refl)) _).
  discriminate.
Defined.

(** Two text-typed blocks that are both empty are joined to a newline,
    which is not empty: the call returns it as raw text. *)
Lemma two_empty_text_blocks_are_returned :
  forallb is_empty_text_block [mkBlock "text" (Some ""); mkBlock "text" (Some "")] = true
  /\ callTool (host_replying (mkResult (Some [mkBlock "text" (Some ""); mkBlock "text" (Some "")])))
       "search_artwork" [] 0 (fresh ollama []) =
     (Returned (JStr nl), logs [ToolRequest "search_artwork" []] (fresh ollama [])).
Proof. split; reflexivity. Qed.

(* ================================================================== *)
(** * The intent matcher *)
(* ================================================================== *)

Lemma inherited_not_own (key : string) :
  Intent.inherited key = true -> Intent.own_property key Intent.toolTriggers = None.
Proof.
  unfold Intent.inherited, Intent.Object_prototype. simpl.
  repeat match goal with
         | |- context [String.eqb key ?k] =>
             destruct (String.eqb_spec key k); [subst; intros _; reflexivity|]
         end.
  discriminate.
Qed.

(** For a tool whose name is not inherited, the matcher answers whether
    a trigger phrase occurs. *)
Lemma matchesToolIntent_plain (message : string) (tool : MCPTool) :
  Intent.inherited (name tool) = false ->
  Intent.matchesToolIntent message tool = Returned (triggered message tool).
Proof.
  intro Hplain. unfold Intent.matchesToolIntent, triggered.
  destruct (Intent.own_property (name tool) Intent.toolTriggers); [reflexivity|].
  now rewrite Hplain.
Qed.

(** For a tool whose name is inherited, the matcher throws. *)
Lemma matchesToolIntent_inherited (message : string) (tool : MCPTool) :
  Intent.inherited (name tool) = true ->
  Intent.matchesToolIntent message tool
  = Threw (JsCall.not_a_function "triggers.some").
Proof.
  intro Hin. unfold Intent.matchesToolIntent.
  now rewrite (inherited_not_own _ Hin), Hin.
Qed.

Section MatcherFacts.
Variable H : Host.

Lemma first_matching_cons (message : string) (tool : MCPTool) (rest : list MCPTool)
  (w : World) :
  first_matching H message (tool :: rest) w =
  match Intent.matchesToolIntent message tool with
  | Returned true => invoke H message tool w
  | Returned false => first_matching H message rest w
  | Threw t => (Threw t, w)
  end.
Proof.
  simpl. unfold bind, lift.
  destruct (Intent.matchesToolIntent message tool) as [[|]|t]; reflexivity.
Qed.

(** Tools that do not match are passed over. *)
Lemma first_matching_skip (message : string) (pre rest : list MCPTool) (w : World) :
  (forall t, In t pre -> Intent.matchesToolIntent message t = Returned false) ->
  first_matching H message (pre ++ rest) w = first_matching H message rest w.
Proof.
  induction pre as [|t pre IH]; intro Hpre; [reflexivity|].
  rewrite <- app_comm_cons, first_matching_cons, (Hpre t (or_introl eq_refl)).
  apply IH. intros t' Hin. apply Hpre. now right.
Qed.

Lemma getRelevantContext_run (message : string) (w : World) :
  getRelevantContext H message w =
  match first_matching H message (availableTools w) w with
  | (Returned context, w') => (Returned context, w')
  | (Threw _, w') => (Returned (Some error_apology), w')
  end.
Proof. reflexivity. Qed.

(** The first effect of invoking a tool is the request for that tool. *)
Lemma callTool_remaining_first_request (tool : string) (args : jsobject) :
  forall remaining w,
    exists es, snd (callTool_remaining H remaining tool args w)
               = logs (ToolRequest tool args :: es) w.
Proof.
  induction remaining as [|r IH]; intro w; rewrite callTool_remaining_run;
    destruct (transport H (tool_requests (trace w)) tool args) as [response|t];
    simpl; try (now exists []);
    destruct (reports_500 t); simpl; try (now exists []).
  destruct (IH (logs [ToolRequest tool args; Delay RETRY_DELAY] w)) as [es E].
  rewrite E, logs_logs. now exists (Delay RETRY_DELAY :: ToolRequest tool args :: es).
Qed.

Lemma invoke_first_request (message : string) (tool : MCPTool) (w : World) :
  exists es, trace (snd (invoke H message tool w))
             = (trace w ++ ToolRequest (name tool) (Intent.extractToolArgs message tool) :: es)%list.
Proof.
  destruct (callTool_remaining_first_request (name tool)
              (Intent.extractToolArgs message tool) (MAX_RETRIES - 0) w) as [es E].
  exists es. unfold invoke, try_catch, bind, callTool.
  destruct (callTool_remaining H (MAX_RETRIES - 0) (name tool)
              (Intent.extractToolArgs message tool) w) as [[result|t] w'];
    simpl in E; subst w'; [|reflexivity].
  unfold lift. now destruct (format_result H tool result).
Qed.

Lemma invoke_returns (message : string) (tool : MCPTool) (w : World) :
  exists context w', invoke H message tool w = (Returned (Some context), w').
Proof.
  unfold invoke, try_catch, bind, lift.
  destruct (callTool H (name tool) (Intent.extractToolArgs message tool) 0 w)
    as [[result|t] w']; [|now exists api_apology, w'].
  destruct (format_result H tool result) as [formatted|t];
    [now exists formatted, w'|now exists api_apology, w'].
Qed.

Lemma first_matching_none (message : string) (tools : list MCPTool) (w : World) :
  plain_names tools = true ->
  forallb (fun t => negb (triggered message t)) tools = true ->
  first_matching H message tools w = (Returned None, w).
Proof.
  induction tools as [|t tools IH]; intros Hplain Hnone; [reflexivity|].
  simpl in Hplain, Hnone.
  apply andb_prop in Hplain as [Ht Hplain]. apply andb_prop in Hnone as [Hn Hnone].
  rewrite first_matching_cons, matchesToolIntent_plain by now apply negb_true_iff.
  apply negb_true_iff in Hn. rewrite Hn. now apply IH.
Qed.

Lemma first_matching_first (message : string) (pre post : list MCPTool)
  (tool : MCPTool) (w : World) :
  plain_names (pre ++ [tool]) = true ->
  forallb (fun t => negb (triggered message t)) pre = true ->
  triggered message tool = true ->
  first_matching H message (pre ++ tool :: post) w = invoke H message tool w.
Proof.
  intros Hplain Hpre Htool.
  unfold plain_names in Hplain. rewrite forallb_app in Hplain.
  apply andb_prop in Hplain as [Hp1 Hp2]. simpl in Hp2.
  apply andb_prop in Hp2 as [Hp2 _].
  rewrite first_matching_skip.
  - rewrite first_matching_cons, matchesToolIntent_plain by now apply negb_true_iff.
    now rewrite Htool.
  - intros t Hin. rewrite forallb_forall in Hp1, Hpre.
    rewrite matchesToolIntent_plain by (apply negb_true_iff; now apply Hp1).
    f_equal. apply negb_true_iff. now apply Hpre.
Qed.

End MatcherFacts.

(** C2, at the input where the code departs from it.  In a registry that
    holds a tool named "constructor", [toolTriggers[tool.name]] is the
    inherited [Object] function, [triggers.some] is not a function, and the
    TypeError ends in the outer [catch] of [getRelevantContext]: for
    "hello", which contains no trigger phrase of any tool, the result is the
    error apology and not [undefined]; and for "find sunflowers" the tool
    search_artwork, the first one a trigger phrase of which occurs, is not
    selected (no request is made). *)
Theorem getRelevantContext_inherited_tool_name (H : Host) (provider : LLMProvider) :
  forallb (fun entry =>
             forallb (fun trigger => negb (JsString.includes "hello" trigger))
               (snd entry))
    Intent.toolTriggers = true
  /\ getRelevantContext H "hello" (fresh provider [mkTool "constructor" None None])
     = (Returned (Some error_apology), fresh provider [mkTool "constructor" None None])
  /\ triggered "find sunflowers" search_tool = true
  /\ getRelevantContext H "find sunflowers"
       (fresh provider [mkTool "constructor" None None; search_tool])
     = (Returned (Some error_apology),
        fresh provider [mkTool "constructor" None None; search_tool]).
Proof. repeat split; vm_compute; reflexivity. Qed.

(** X1. In a registry whose tool names are not inherited members of
    [Object.prototype], the first tool in registry order one of whose
    trigger phrases occurs in the lower-cased message is the one invoked,
    with the arguments extracted for it; when no trigger phrase of any
    tool occurs, the result is [undefined] and nothing happens. *)
Theorem first_match_wins_plain_registry (H : Host) (message : string) (w : World) :
  plain_names (availableTools w) = true ->
  (forallb (fun t => negb (triggered message t)) (availableTools w) = true ->
   getRelevantContext H message w = (Returned None, w))
  /\ (forall pre tool post,
        availableTools w = (pre ++ tool :: post)%list ->
        forallb (fun t => negb (triggered message t)) pre = true ->
        triggered message tool = true ->
        getRelevantContext H message w = invoke H message tool w
        /\ exists es,
             trace (snd (getRelevantContext H message w))
             = (trace w ++ ToolRequest (name tool) (Intent.extractToolArgs message tool)
                  :: es)%list).
Proof.
  intro Hplain. split.
  - intro Hnone. rewrite getRelevantContext_run.
    now rewrite first_matching_none.
  - intros pre tool post Htools Hpre Htool.
    assert (getRelevantContext H message w = invoke H message tool w) as E.
    { rewrite getRelevantContext_run, Htools, first_matching_first; auto.
      - destruct (invoke_returns H message tool w) as [c [w' ->]]. reflexivity.
      - rewrite Htools in Hplain. unfold plain_names in *.
        rewrite forallb_app in *. simpl in *.
        apply andb_prop in Hplain as [-> Hp]. apply andb_prop in Hp as [-> _].
        reflexivity. }
    split; [exact E|]. rewrite E. apply invoke_first_request.
Qed.

Lemma first_match_wins_plain_registry_witness :
  getRelevantContext host_404 "hello there" (fresh ollama [search_tool])
  = (Returned None, fresh ollama [search_tool]).
Proof.
  apply (proj1 (@first_match_wins_plain_registry host_404 "hello there"
                  (fresh ollama [search_tool]) eq_refl)).
  vm_compute. reflexivity.
Defined.

(* ================================================================== *)
(** * The scenario "find sunflowers" *)
(* ================================================================== *)

Lemma triggered_find_sunflowers (t : MCPTool) :
  triggered "find sunflowers" t = String.eqb (name t) "search_artwork".
Proof.
  destruct t as [n d s]. unfold triggered. simpl name.
  cbn [Intent.own_property Intent.toolTriggers].
  repeat match goal with
         | |- context [String.eqb n ?k] =>
             destruct (String.eqb_spec n k); [subst; vm_compute; reflexivity|]
         end.
  reflexivity.
Qed.

Lemma extractToolArgs_find_sunflowers (t : MCPTool) :
  name t = "search_artwork" ->
  Intent.extractToolArgs "find sunflowers" t = sunflowers_args.
Proof. destruct t as [n d s]. simpl. intros ->. vm_compute. reflexivity. Qed.

Lemma getRelevantContext_world (H : Host) (message : string) (w : World) :
  snd (getRelevantContext H message w)
  = snd (first_matching H message (availableTools w) w).
Proof.
  rewrite getRelevantContext_run.
  now destruct (first_matching H message (availableTools w) w) as [[c|t] w'].
Qed.

Lemma first_matching_find_sunflowers (H : Host) (d : option string) (s : option json)
  (post : list MCPTool) :
  forall (pre : list MCPTool) (w : World),
    plain_names pre = true ->
    exists es,
      trace (snd (first_matching H "find sunflowers"
                    (pre ++ mkTool "search_artwork" d s :: post) w))
      = (trace w ++ ToolRequest "search_artwork" sunflowers_args :: es)%list.
Proof.
  induction pre as [|t pre IH]; intros w Hplain.
  - simpl app. rewrite first_matching_cons, matchesToolIntent_plain by reflexivity.
    rewrite triggered_find_sunflowers. simpl String.eqb.
    destruct (invoke_first_request H "find sunflowers" (mkTool "search_artwork" d s) w)
      as [es E].
    exists es. rewrite E. now rewrite extractToolArgs_find_sunflowers.
  - simpl in Hplain. apply andb_prop in Hplain as [Ht Hplain].
    rewrite <- app_comm_cons, first_matching_cons, matchesToolIntent_plain
      by now apply negb_true_iff.
    rewrite triggered_find_sunflowers.
    destruct (String.eqb_spec (name t) "search_artwork") as [E|_].
    + destruct (invoke_first_request H "find sunflowers" t w) as [es Es].
      exists es. rewrite Es, E. now rewrite extractToolArgs_find_sunflowers.
    + now apply IH.
Qed.

(** The scenario "find sunflowers" in a registry of plain names.  In a
    registry that contains the tool search_artwork, no tool before it being
    named like a member of [Object.prototype], the matcher accepts
    search_artwork for the message "find sunflowers", the arguments
    extracted for it are exactly
    [{query: "sunflowers", pageSize: 10, imgonly: true, s: "relevance"}],
    and the request the context assembler issues first is the call of
    search_artwork with these arguments. *)
Theorem find_sunflowers_selects_search_artwork (H : Host) (w : World)
  (pre post : list MCPTool) (d : option string) (s : option json) :
  availableTools w = (pre ++ mkTool "search_artwork" d s :: post)%list ->
  plain_names pre = true ->
  Intent.matchesToolIntent "find sunflowers" (mkTool "search_artwork" d s) = Returned true
  /\ Intent.extractToolArgs "find sunflowers" (mkTool "search_artwork" d s)
     = [("query", Some (JStr "sunflowers")); ("pageSize", Some (JNum 10));
        ("imgonly", Some (JBool true)); ("s", Some (JStr "relevance"))]
  /\ exists es,
       trace (snd (getRelevantContext H "find sunflowers" w))
       = (trace w ++ ToolRequest "search_artwork"
                       [("query", Some (JStr "sunflowers")); ("pageSize", Some (JNum 10));
                        ("imgonly", Some (JBool true)); ("s", Some (JStr "relevance"))]
            :: es)%list.
Proof.
  intros Htools Hplain. split; [|split].
  - vm_compute. reflexivity.
  - vm_compute. reflexivity.
  - rewrite getRelevantContext_world, Htools.
    now apply first_matching_find_sunflowers.
Qed.

Lemma find_sunflowers_selects_search_artwork_witness :
  exists es,
    trace (snd (getRelevantContext host_flaky "find sunflowers"
                  (fresh ollama [mkTool "get_artwork_details" None None; search_tool])))
    = (ToolRequest "search_artwork" sunflowers_args :: es)%list.
Proof.
  apply (proj2 (proj2 (@find_sunflowers_selects_search_artwork host_flaky
           (fresh ollama [mkTool "get_artwork_details" None None; search_tool])
           [mkTool "get_artwork_details" None None] [] None None
           eq_refl eq_refl))).
Defined.

(** C6, at the input where the code departs from it.  In a registry that
    holds a tool named "constructor" before search_artwork, the trigger
    "find" of search_artwork does occur in "find sunflowers" and the
    arguments extracted for search_artwork are those of the scenario, but
    search_artwork is not selected: the lookup of the triggers of
    "constructor" yields the inherited [Object] function, [triggers.some]
    throws, no request is made at all, and the context is the apology for
    an internal error. *)
Theorem find_sunflowers_not_selected_after_inherited_name (H : Host)
  (provider : LLMProvider) (d : option string) (s : option json) (post : list MCPTool) :
  let registry := mkTool "constructor" None None :: mkTool "search_artwork" d s :: post in
  Intent.matchesToolIntent "find sunflowers" (mkTool "search_artwork" d s) = Returned true
  /\ Intent.extractToolArgs "find sunflowers" (mkTool "search_artwork" d s)
     = [("query", Some (JStr "sunflowers")); ("pageSize", Some (JNum 10));
        ("imgonly", Some (JBool true)); ("s", Some (JStr "relevance"))]
  /\ getRelevantContext H "find sunflowers" (fresh provider registry)
     = (Returned (Some error_apology), fresh provider registry)
  /\ tool_requests
       (trace (snd (getRelevantContext H "find sunflowers" (fresh provider registry))))
     = 0.
Proof.
  cbv zeta.
  assert (getRelevantContext H "find sunflowers"
            (fresh provider
               (mkTool "constructor" None None :: mkTool "search_artwork" d s :: post))
          = (Returned (Some error_apology),
             fresh provider
               (mkTool "constructor" None None :: mkTool "search_artwork" d s :: post)))
    as Run.
  { rewrite getRelevantContext_run. cbn [availableTools fresh].
    rewrite first_matching_cons.
    rewrite matchesToolIntent_inherited by reflexivity. reflexivity. }
  split; [vm_compute; reflexivity|]. split; [vm_compute; reflexivity|].
  split; [exact Run|]. rewrite Run. reflexivity.
Qed.

(* ================================================================== *)
(** * The generic rendering *)
(* ================================================================== *)

(** C8. Tools without a formatter.  For a tool whose name is not
    search_artwork, get_artwork_details or get_artist_timeline, and any
    result, the formatting step gives "Result from <name>: <json>"; when
    that tool is the first of the registry that matches the message and its
    call returns a result, this rendering is what the context assembler
    returns; and the context assembler never throws to its caller. *)
Theorem unknown_tool_generic_rendering (H : Host) (tool : MCPTool) (result : json) :
  has_formatter (name tool) = false ->
  format_result H tool result
  = Returned ("Result from " ++ name tool ++ ": " ++ JSON_stringify H result)
  /\ (forall message pre post w w',
        availableTools w = (pre ++ tool :: post)%list ->
        (forall t, In t pre -> Intent.matchesToolIntent message t = Returned false) ->
        Intent.matchesToolIntent message tool = Returned true ->
        callTool H (name tool) (Intent.extractToolArgs message tool) 0 w
        = (Returned result, w') ->
        getRelevantContext H message w
        = (Returned (Some ("Result from " ++ name tool ++ ": " ++ JSON_stringify H result)),
           w'))
  /\ (forall message w,
        exists context w', getRelevantContext H message w = (Returned context, w')).
Proof.
  intro Hname. unfold has_formatter in Hname.
  apply orb_false_elim in Hname as [Hname H3]. apply orb_false_elim in Hname as [H1 H2].
  assert (format_result H tool result
          = Returned ("Result from " ++ name tool ++ ": " ++ JSON_stringify H result)) as F
    by (unfold format_result; now rewrite H1, H2, H3).
  split; [exact F|]. split.
  - intros message pre post w w' Htools Hpre Hmatch Hcall.
    rewrite getRelevantContext_run, Htools, first_matching_skip by exact Hpre.
    rewrite first_matching_cons, Hmatch.
    unfold invoke, try_catch, bind, lift. now rewrite Hcall, F.
  - intros message w. apply getRelevantContext_returns.
Qed.

Lemma unknown_tool_generic_rendering_witness :
  getRelevantContext (host_replying (mkResult (Some [mkBlock "text" (Some "[]")])))
    "show collections"
    (fresh ollama [search_tool; mkTool "get_user_sets" None None])
  = (Returned (Some "Result from get_user_sets: {}"),
     logs [ToolRequest "get_user_sets" [("page", Some (JNum 0)); ("pageSize", Some (JNum 10))]]
       (fresh ollama [search_tool; mkTool "get_user_sets" None None])).
Proof.
  refine (proj1 (proj2 (@unknown_tool_generic_rendering
            (host_replying (mkResult (Some [mkBlock "text" (Some "[]")])))
            (mkTool "get_user_sets" None None) (JArr []) eq_refl))
          "show collections" [search_tool] []
          (fresh ollama [search_tool; mkTool "get_user_sets" None None])
          _ eq_refl _ _ _).
  - intros t [<-|[]]. vm_compute. reflexivity.
  - vm_compute. reflexivity.
  - vm_compute. reflexivity.
Defined.

(* ================================================================== *)
(** * Reset *)
(* ================================================================== *)

(** C9. Reset.  [clearChatHistory] empties the turn history of the
    language-model service, whichever backend is in use, and changes no
    other component of the state: the cache, the registry, the window, the
    backend selection and the trace stay as they are; the cache is still
    the same after any number of resets. *)
Theorem clearChatHistory_frame (H : Host) (w : World) :
  clearChatHistory H w = (Returned tt, set_messageHistory [] w)
  /\ messageHistory (snd (clearChatHistory H w)) = []
  /\ recentArtworks (snd (clearChatHistory H w)) = recentArtworks w
  /\ availableTools (snd (clearChatHistory H w)) = availableTools w
  /\ mainWindow (snd (clearChatHistory H w)) = mainWindow w
  /\ llm_provider (snd (clearChatHistory H w)) = llm_provider w
  /\ llm_model (snd (clearChatHistory H w)) = llm_model w
  /\ trace (snd (clearChatHistory H w)) = trace w
  /\ ClaudeService.clearHistory w = (Returned tt, set_messageHistory [] w)
  /\ OllamaService.clearHistory w = (Returned tt, set_messageHistory [] w)
  /\ forall n, recentArtworks (resets H n w) = recentArtworks w.
Proof.
  assert (forall v, clearChatHistory H v = (Returned tt, set_messageHistory [] v)) as E
    by (intro v; unfold clearChatHistory, LLM.clearHistory;
        now destruct (llm_provider v)).
  rewrite E. repeat split.
  intro n. revert w. induction n as [|n IH]; intro w; [reflexivity|].
  simpl. now rewrite E, IH.
Qed.

(* ================================================================== *)
(** * The recent-result cache *)
(* ================================================================== *)

Section CacheFacts.
Variable H : Host.

Lemma strict_equals_string (v : jsval) (o : string) (a : json) :
  Js.get (Some a) "objectNumber" = Returned v ->
  Js.strict_equals (same_ref H) v (Some (JStr o)) = objectNumber_is o a.
Proof.
  intro E. unfold objectNumber_is. rewrite E.
  destruct v as [[| | | | |]|]; reflexivity.
Qed.

(** The scan of [getArtworkDetails], when it does not throw, finds the
    first entry that carries the identifier. *)
Lemma findIndex_upsert (o : string) (r : json) :
  forall (items : list json) (i : nat) (index : option nat),
    findIndex_from
      (fun a => let? n := Js.get (Some a) "objectNumber" in
                Returned (Js.strict_equals (same_ref H) n (Some (JStr o))))
      i items = Returned index ->
    match index with
    | Some j => i <= j /\ set_at (j - i) r items = spec_upsert o r items
    | None => (items ++ [r])%list = spec_upsert o r items
    end.
Proof.
  induction items as [|a items IH]; intros i index E; cbn [findIndex_from] in E.
  - injection E as <-. reflexivity.
  - destruct (Js.get (Some a) "objectNumber") as [v|t] eqn:G; cbn [obind] in E;
      [|discriminate].
    rewrite (strict_equals_string v o a G) in E. simpl spec_upsert.
    destruct (objectNumber_is o a).
    + injection E as <-. split; [lia|]. now rewrite Nat.sub_diag.
    + specialize (IH (S i) index E). destruct index as [j|].
      * destruct IH as [Hle IH]. split; [lia|].
        replace (j - i) with (S (j - S i)) by lia. simpl. now rewrite IH.
      * simpl. now rewrite IH.
Qed.

(** The cache update of the code refines the upsert of the specification. *)
Lemma upsert_refines (o : string) (r : json) (cache cache' : json) :
  upsert H (Some (JStr o)) r cache = Returned cache' ->
  exists items, cache = JArr items /\ cache' = JArr (spec_upsert o r items).
Proof.
  unfold upsert. destruct cache; simpl; try discriminate.
  destruct (findIndex_from _ 0 items) as [index|t] eqn:F; simpl; [|discriminate].
  apply findIndex_upsert with (r := r) in F.
  intro E. exists items. split; [reflexivity|].
  destruct index as [j|]; injection E as <-.
  - destruct F as [_ F]. now rewrite Nat.sub_0_r in F; rewrite F.
  - now rewrite F.
Qed.

Lemma spec_upsert_length (o : string) (r : json) (items : list json) :
  List.length items <= List.length (spec_upsert o r items) <= List.length items + 1.
Proof.
  induction items as [|a items IH]; simpl; [lia|].
  destruct (objectNumber_is o a); simpl; lia.
Qed.

(** With at most one entry for the identifier before, there is exactly
    one after, and it is the result just stored. *)
Lemma spec_upsert_one (o : string) (r : json) (items : list json) :
  objectNumber_is o r = true ->
  List.length (filter (objectNumber_is o) items) <= 1 ->
  filter (objectNumber_is o) (spec_upsert o r items) = [r].
Proof.
  intros Hr. induction items as [|a items IH]; simpl; intro Hcount.
  - now rewrite Hr.
  - destruct (objectNumber_is o a) eqn:Ha; simpl in *.
    + rewrite Hr. f_equal.
      destruct (filter (objectNumber_is o) items); [reflexivity|simpl in Hcount; lia].
    + rewrite Ha. now apply IH.
Qed.

Lemma callTool_keeps_cache (tool : string) (args : jsobject) (retryCount : nat) (w : World) :
  recentArtworks (snd (callTool H tool args retryCount w)) = recentArtworks w.
Proof.
  destruct (callTool_remaining_first_request H tool args (MAX_RETRIES - retryCount) w)
    as [es E].
  unfold callTool. now rewrite E.
Qed.

Lemma getArtworkDetails_cache (objectNumber : jsval) (w : World) :
  recentArtworks (snd (getArtworkDetails H objectNumber w)) =
  match callTool H "get_artwork_details" [("objectNumber", objectNumber)] 0 w with
  | (Returned response, _) =>
      match upsert H objectNumber response (recentArtworks w) with
      | Returned cache' => cache'
      | Threw _ => recentArtworks w
      end
  | (Threw _, _) => recentArtworks w
  end.
Proof.
  pose proof (callTool_keeps_cache "get_artwork_details"
                [("objectNumber", objectNumber)] 0 w) as K.
  unfold getArtworkDetails, try_catch, bind.
  destruct (callTool H "get_artwork_details" [("objectNumber", objectNumber)] 0 w)
    as [[response|t] w1]; simpl in K; [|exact K].
  unfold read, lift. rewrite K.
  destruct (upsert H objectNumber response (recentArtworks w)) as [cache'|t]; [|exact K].
  unfold update, webContents_send. simpl.
  destruct (mainWindow w1); reflexivity.
Qed.

Lemma searchArtworks_cache (query : string) (w : World) :
  recentArtworks (snd (searchArtworks H query w)) =
  match callTool H "search_artwork"
          [("query", Some (JStr query)); ("pageSize", Some (JNum 10))] 0 w with
  | (Returned response, _) => response
  | (Threw _, _) => recentArtworks w
  end.
Proof.
  pose proof (callTool_keeps_cache "search_artwork"
                [("query", Some (JStr query)); ("pageSize", Some (JNum 10))] 0 w) as K.
  unfold searchArtworks, try_catch, bind.
  destruct (callTool H "search_artwork"
              [("query", Some (JStr query)); ("pageSize", Some (JNum 10))] 0 w)
    as [[response|t] w1]; simpl in K; [|exact K].
  unfold update, webContents_send. simpl.
  destruct (mainWindow w1); reflexivity.
Qed.

Lemma findIndex_readable (o : string) :
  forall (items : list json) (i : nat),
    forallb readable items = true ->
    exists index,
      findIndex_from
        (fun a => let? n := Js.get (Some a) "objectNumber" in
                  Returned (Js.strict_equals (same_ref H) n (Some (JStr o))))
        i items = Returned index.
Proof.
  induction items as [|a items IH]; intros i F; cbn [findIndex_from].
  - now exists None.
  - simpl in F. apply andb_prop in F as [Fa F].
    assert (exists v, Js.get (Some a) "objectNumber" = Returned v) as [v ->]
      by (destruct a; try discriminate; eexists; reflexivity).
    cbn [obind].
    destruct (Js.strict_equals (same_ref H) v (Some (JStr o))); [now exists (Some i)|].
    now apply IH.
Qed.

Lemma upsert_readable (o : string) (r : json) (items : list json) :
  forallb readable items = true ->
  upsert H (Some (JStr o)) r (JArr items) = Returned (JArr (spec_upsert o r items)).
Proof.
  intro F. destruct (findIndex_readable o items 0 F) as [index E].
  destruct (upsert H (Some (JStr o)) r (JArr items)) as [c|t] eqn:U.
  - apply upsert_refines in U as [items' [[= <-] ->]]. reflexivity.
  - unfold upsert in U. cbn [as_array obind] in U. rewrite E in U. cbn [obind] in U.
    destruct index; discriminate.
Qed.

End CacheFacts.

(** C7 (as amended). Mutations of the recent-result cache.
    [getArtworkDetails] either leaves the cache as it is (the call or the
    scan failed) or upserts the response under the requested object number:
    the first entry with that [objectNumber] is replaced, and the response
    is appended when there is none; so it never shrinks the cache.  Two
    such upserts of results that bear the identifier leave exactly one
    entry for it, the latest result, when there was at most one before.
    [searchArtworks] is not an upsert: it replaces the whole cache by the
    response. *)
Theorem getArtworkDetails_upserts_cache (H : Host) (o : string) (w : World) :
  (recentArtworks (snd (getArtworkDetails H (Some (JStr o)) w)) = recentArtworks w
   \/ exists items response w1,
        callTool H "get_artwork_details" [("objectNumber", Some (JStr o))] 0 w
        = (Returned response, w1)
        /\ recentArtworks w = JArr items
        /\ recentArtworks (snd (getArtworkDetails H (Some (JStr o)) w))
           = JArr (spec_upsert o response items))
  /\ (forall items response w1,
        callTool H "get_artwork_details" [("objectNumber", Some (JStr o))] 0 w
        = (Returned response, w1) ->
        recentArtworks w = JArr items ->
        forallb readable items = true ->
        recentArtworks (snd (getArtworkDetails H (Some (JStr o)) w))
        = JArr (spec_upsert o response items))
  /\ cache_size w <= cache_size (snd (getArtworkDetails H (Some (JStr o)) w))
  /\ (forall r1 r2 items c1 c2,
        objectNumber_is o r1 = true ->
        objectNumber_is o r2 = true ->
        List.length (filter (objectNumber_is o) items) <= 1 ->
        upsert H (Some (JStr o)) r1 (JArr items) = Returned c1 ->
        upsert H (Some (JStr o)) r2 c1 = Returned c2 ->
        exists items2, c2 = JArr items2 /\ filter (objectNumber_is o) items2 = [r2])
  /\ (forall query response w1,
        callTool H "search_artwork"
          [("query", Some (JStr query)); ("pageSize", Some (JNum 10))] 0 w
        = (Returned response, w1) ->
        recentArtworks (snd (searchArtworks H query w)) = response).
Proof.
  assert (recentArtworks (snd (getArtworkDetails H (Some (JStr o)) w)) = recentArtworks w
          \/ exists items response w1,
               callTool H "get_artwork_details" [("objectNumber", Some (JStr o))] 0 w
               = (Returned response, w1)
               /\ recentArtworks w = JArr items
               /\ recentArtworks (snd (getArtworkDetails H (Some (JStr o)) w))
                  = JArr (spec_upsert o response items)) as Cases.
  { rewrite getArtworkDetails_cache. unfold jsobject, jsval in *.
    destruct (callTool H "get_artwork_details" [("objectNumber", Some (JStr o))] 0 w)
      as [[response|t] w1]; [|left; reflexivity].
    destruct (upsert H (Some (JStr o)) response (recentArtworks w)) as [c|t] eqn:U;
      [|left; reflexivity].
    apply upsert_refines in U as [items [E ->]].
    right. now exists items, response, w1. }
  split; [exact Cases|]. split; [|split; [|split]].
  - intros items response w1 Hcall Hcache Hread.
    rewrite getArtworkDetails_cache. unfold jsobject, jsval in *.
    rewrite Hcall, Hcache. now rewrite upsert_readable.
  - destruct Cases as [E|[items [response [w1 [_ [E1 E2]]]]]].
    + unfold cache_size. now rewrite E.
    + unfold cache_size. rewrite E1, E2. apply spec_upsert_length.
  - intros r1 r2 items c1 c2 Hr1 Hr2 Hcount U1 U2.
    apply upsert_refines in U1 as [items1 [[= <-] ->]].
    apply upsert_refines in U2 as [items2 [[= <-] ->]].
    eexists. split; [reflexivity|].
    apply spec_upsert_one; [exact Hr2|].
    now rewrite (spec_upsert_one o r1 items Hr1 Hcount).
  - intros query response w1 Hcall. rewrite searchArtworks_cache.
    unfold jsobject, jsval in *. now rewrite Hcall.
Qed.

Lemma getArtworkDetails_upserts_cache_witness :
  recentArtworks
    (snd (getArtworkDetails
            (host_replying (mkResult (Some [mkBlock "text" (Some night_watch_doc)])))
            (Some (JStr "SK-C-5")) two_artworks))
  = JArr [night_watch_details; artwork "SK-A-2344" "The Milkmaid"].
Proof.
  refine (proj1 (proj2 (@getArtworkDetails_upserts_cache
            (host_replying (mkResult (Some [mkBlock "text" (Some night_watch_doc)])))
            "SK-C-5" two_artworks))
          [artwork "SK-C-5" "The Night Watch"; artwork "SK-A-2344" "The Milkmaid"]
          night_watch_details
          (logs [ToolRequest "get_artwork_details" [("objectNumber", Some (JStr "SK-C-5"))]]
             two_artworks)
          _ eq_refl eq_refl).
  vm_compute. reflexivity.
Defined.

(** [searchArtworks] with an empty result empties a cache of two entries:
    a mutation that is no upsert, and that shrinks the cache. *)
Lemma searchArtworks_shrinks_cache :
  cache_size two_artworks = 2
  /\ recentArtworks
       (snd (searchArtworks (host_replying (mkResult (Some [mkBlock "text" (Some "[]")])))
               "tulips" two_artworks))
     = JArr []
  /\ cache_size
       (snd (searchArtworks (host_replying (mkResult (Some [mkBlock "text" (Some "[]")])))
               "tulips" two_artworks))
     < cache_size two_artworks.
Proof. repeat split; vm_compute; lia. Qed.

(* ================================================================== *)
(** * The language-model services *)
(* ================================================================== *)

(** String conversion: it throws exactly on the values that do not
    convert, and gives their text otherwise. *)
Lemma has_own_toString (fields : list (string * json)) :
  Js.has_own "toString" fields
  = List.existsb (fun field => String.eqb "toString" (fst field)) fields.
Proof.
  unfold Js.has_own. induction fields as [|[k v] rest IH]; [reflexivity|].
  cbn [Js.assoc existsb fst]. destruct (String.eqb "toString" k); [reflexivity|exact IH].
Qed.

Lemma to_string_json_spec :
  forall v : json,
    Js.to_string_json v
    = if convertible_json v then Returned (plain_text_json v) else Threw Js.cannot_convert.
Proof.
  fix IH 1. intros [|[|]|n|s|items|fields]; try reflexivity.
  - cbn [Js.to_string_json convertible_json plain_text_json].
    match goal with
    | |- obind (?elements items) _ = _ =>
        assert (elements items
                = if forallb convertible_json items
                  then Returned (List.map (fun x => match x with
                                                    | JNull => ""
                                                    | _ => plain_text_json x
                                                    end) items)
                  else Threw Js.cannot_convert) as ->
    end.
    { clear - IH. revert items. fix IHl 1. intros [|x rest]; [reflexivity|].
      cbn [forallb List.map]. rewrite (IHl rest).
      assert (match x with
              | JNull => Returned ""
              | _ => Js.to_string_json x
              end
              = if convertible_json x
                then Returned match x with JNull => "" | _ => plain_text_json x end
                else Threw Js.cannot_convert) as ->.
      { rewrite (IH x). destruct x as [|[|]|n|s|items|fields]; try reflexivity;
          now destruct (convertible_json _). }
      destruct (convertible_json x); [|reflexivity].
      cbn [obind andb]. now destruct (forallb convertible_json rest). }
    now destruct (forallb convertible_json items).
  - cbn [Js.to_string_json convertible_json plain_text_json].
    rewrite has_own_toString. now destruct (existsb _ fields).
Qed.

Lemma to_string_spec (v : jsval) :
  Js.to_string v
  = if convertible v then Returned (plain_text v) else Threw Js.cannot_convert.
Proof. destruct v as [j|]; [apply to_string_json_spec|reflexivity]. Qed.

Lemma elements_to_strings_spec (items : list json) :
  Js.elements_to_strings items
  = if forallb convertible_json items
    then Returned (List.map (fun x => match x with
                                      | JNull => ""
                                      | _ => plain_text_json x
                                      end) items)
    else Threw Js.cannot_convert.
Proof.
  induction items as [|x rest IH]; [reflexivity|].
  cbn [Js.elements_to_strings forallb List.map]. rewrite IH.
  assert (match x with
          | JNull => Returned ""
          | _ => Js.to_string_json x
          end
          = if convertible_json x
            then Returned match x with JNull => "" | _ => plain_text_json x end
            else Threw Js.cannot_convert) as ->.
  { rewrite (to_string_json_spec x).
    destruct x as [|[|]|n|s|items|fields]; try reflexivity;
      now destruct (convertible_json _). }
  destruct (convertible_json x); [|reflexivity].
  cbn [obind andb]. now destruct (forallb convertible_json rest).
Qed.

Lemma append_assoc (a b c : string) : ((a ++ b) ++ c = a ++ (b ++ c))%string.
Proof. induction a as [|x a IH]; simpl; [reflexivity|now rewrite IH]. Qed.

Lemma append_empty_r (a : string) : (a ++ "")%string = a.
Proof. induction a as [|x a IH]; simpl; [reflexivity|now rewrite IH]. Qed.

Lemma quiet_call_opt {A : Type} (callback : option (A -> M unit)) (arg : A) :
  (forall f, callback = Some f -> quiet (f arg)) -> quiet (call_opt callback arg).
Proof.
  intros Hq w. destruct callback as [f|]; simpl.
  - now apply Hq.
  - exists []. unfold ret. now rewrite logs_nil.
Qed.

Lemma harmless_call_opt {A : Type} (callback : option (A -> M unit)) (arg : A) :
  (forall f, callback = Some f -> harmless (f arg)) -> harmless (call_opt callback arg).
Proof.
  intros Hq w. destruct callback as [f|]; simpl.
  - now apply Hq.
  - exists (Returned tt), []. unfold ret. now rewrite logs_nil.
Qed.

(** The [catch] block of both [streamChat]s: the failure is reported and
    thrown again (or the report itself throws). *)
Lemma report_and_rethrow (callbacks : StreamCallbacks) (error : Thrown) (w : World) :
  well_behaved callbacks ->
  exists t es,
    (call_opt (onError callbacks) error ;; @throw unit error) w = (Threw t, logs es w).
Proof.
  intros WB.
  destruct (harmless_call_opt (onError callbacks) error
              (fun f E => @error_harmless callbacks WB f error E) w) as [o [es E]].
  unfold bind. rewrite E. destruct o as [[]|t].
  - now exists error, es.
  - now exists t, es.
Qed.

Section ClaudeFacts.
Variable H : Host.
Variable callbacks : StreamCallbacks.
Hypothesis WB : well_behaved callbacks.

Lemma claude_consume_run (failure : option Thrown) :
  forall (chunks : list Chunk) (fullResponse : string) (w : World),
    exists es,
      ClaudeService.consume callbacks chunks failure fullResponse w =
      (match failure with
       | Some error => Threw error
       | None => Returned (fullResponse ++ claude_text chunks)
       end, logs es w).
Proof.
  induction chunks as [|chunk rest IH]; intros fullResponse w; simpl.
  - exists []. rewrite logs_nil, append_empty_r. now destruct failure.
  - destruct chunk as [[t|other]|other]; try apply IH.
    unfold bind. destruct (@token_quiet callbacks WB (Some (JStr t)) w) as [es1 ->].
    destruct (IH (fullResponse ++ t) (logs es1 w)) as [es2 ->].
    exists (es1 ++ es2)%list. now rewrite logs_logs, append_assoc.
Qed.

Lemma claude_streamChat_run (message : string) (context : option string) (w : World) :
  let turn := mkMessage user (Some (JStr message)) in
  let request := outbound_messages (messageHistory w ++ [turn]) message context in
  let issued := ModelRequest claude ClaudeService.model request true in
  match messages_stream H (model_requests (trace w)) request with
  | Returned (chunks, None) =>
      exists es,
        ClaudeService.streamChat H message callbacks context w =
        (Returned tt,
         logs (issued :: es)
           (set_messageHistory
              (messageHistory w
               ++ [turn; mkMessage assistant (Some (JStr (claude_text chunks)))]) w))
  | _ =>
      exists t es,
        ClaudeService.streamChat H message callbacks context w =
        (Threw t, logs (issued :: es) (set_messageHistory (messageHistory w ++ [turn]) w))
  end.
Proof.
  intros turn request issued.
  unfold ClaudeService.streamChat, try_catch, bind, push_history, update, read,
    ClaudeService.create_stream.
  cbv beta iota. cbn [messageHistory set_messageHistory trace].
  fold turn. fold request. fold issued. rewrite !log_is_logs.
  set (w1 := set_messageHistory (messageHistory w ++ [turn]) w).
  destruct (messages_stream H (model_requests (trace w)) request)
    as [[chunks failure]|t]; cbn [fst snd].
  - destruct (claude_consume_run failure chunks "" (logs [issued] w1)) as [es ->].
    rewrite logs_logs. destruct failure as [error|].
    + destruct (report_and_rethrow callbacks error (logs ([issued] ++ es) w1) WB)
        as [t [es' E]].
      unfold bind in E. rewrite E, logs_logs. now exists t, (es ++ es')%list.
    + cbn [messageHistory logs set_messageHistory].
      match goal with
      | |- exists _, (let (_, _) := call_opt ?c ?a ?v in _) = _ =>
          destruct (quiet_call_opt c a (fun f E => @complete_quiet callbacks WB f _ E) v)
            as [es' ->]
      end.
      exists (es ++ es')%list. unfold logs, w1. simpl.
      now rewrite <- !app_assoc.
  - destruct (report_and_rethrow callbacks t (logs [issued] w1) WB) as [t' [es E]].
    unfold bind in E. rewrite E, logs_logs. now exists t', es.
Qed.

End ClaudeFacts.

Section OllamaFacts.
Variable H : Host.
Variable callbacks : StreamCallbacks.
Hypothesis WB : well_behaved callbacks.

Lemma ollama_consume_line_run (line fullResponse : string) (w : World) :
  exists es,
    OllamaService.consume_line H callbacks line fullResponse w =
    (Returned (fullResponse
               ++ match line_token H line with
                  | Some token => if convertible token then plain_text token else ""
                  | None => ""
                  end), logs es w).
Proof.
  unfold OllamaService.consume_line, line_token, try_catch, bind, lift.
  destruct (JSON_parse H line) as [data|]; cbv beta iota.
  - destruct (Js.get (Some data) "message") as [message|t]; cbv beta iota.
    + destruct (Js.truthy (Js.get_opt message "content")).
      * destruct (@token_quiet callbacks WB (Js.get_opt message "content") w) as [es ->].
        exists es. rewrite to_string_spec.
        destruct (convertible (Js.get_opt message "content")); [reflexivity|].
        unfold ret. now rewrite append_empty_r.
      * exists []. unfold ret. now rewrite logs_nil, append_empty_r.
    + exists []. unfold ret. now rewrite logs_nil, append_empty_r.
  - exists []. unfold throw, ret. now rewrite logs_nil, append_empty_r.
Qed.

Lemma ollama_consume_lines_run :
  forall (lines : list string) (fullResponse : string) (w : World),
    exists es,
      OllamaService.consume_lines H callbacks lines fullResponse w =
      (Returned (fullResponse ++ lines_text H lines), logs es w).
Proof.
  induction lines as [|line rest IH]; intros fullResponse w; simpl.
  - exists []. unfold ret. now rewrite logs_nil, append_empty_r.
  - unfold bind. destruct (ollama_consume_line_run line fullResponse w) as [es1 ->].
    destruct (IH (fullResponse
                  ++ match line_token H line with
                     | Some token => if convertible token then plain_text token else ""
                     | None => ""
                     end) (logs es1 w)) as [es2 ->].
    exists (es1 ++ es2)%list. rewrite logs_logs, append_assoc.
    destruct (line_token H line) as [token|]; [|reflexivity].
    now destruct (convertible token).
Qed.

Lemma ollama_consume_run (failure : option Thrown) :
  forall (reads : list string) (fullResponse : string) (w : World),
    exists es,
      OllamaService.consume H callbacks reads failure fullResponse w =
      (match failure with
       | Some error => Threw error
       | None => Returned (fullResponse ++ ollama_text H reads)
       end, logs es w).
Proof.
  induction reads as [|chunk rest IH]; intros fullResponse w; simpl.
  - exists []. rewrite logs_nil, append_empty_r. now destruct failure.
  - unfold bind. fold (lines_of chunk).
    destruct (ollama_consume_lines_run (lines_of chunk) fullResponse w) as [es1 ->].
    destruct (IH (fullResponse ++ lines_text H (lines_of chunk)) (logs es1 w))
      as [es2 ->].
    exists (es1 ++ es2)%list. now rewrite logs_logs, append_assoc.
Qed.

Lemma ollama_streamChat_run (message : string) (context : option string) (w : World) :
  let turn := mkMessage user (Some (JStr message)) in
  let request := outbound_messages (messageHistory w ++ [turn]) message context in
  let issued := ModelRequest ollama (llm_model w) request true in
  llm_provider w = ollama ->
  match stream_result H w request with
  | Some R =>
      exists es,
        OllamaService.streamChat H message callbacks context w =
        (Returned tt,
         logs (issued :: es)
           (set_messageHistory
              (messageHistory w ++ [turn; mkMessage assistant (Some (JStr R))]) w))
  | None =>
      exists t es,
        OllamaService.streamChat H message callbacks context w =
        (Threw t, logs (issued :: es) (set_messageHistory (messageHistory w ++ [turn]) w))
  end.
Proof.
  intros turn request issued Hprovider.
  unfold stream_result. rewrite Hprovider.
  unfold OllamaService.streamChat, try_catch, bind, push_history, update, read,
    OllamaService.fetch_chat, OllamaService.check_ok, ret, throw.
  cbv beta iota. cbn [messageHistory set_messageHistory trace llm_model].
  fold turn. fold request. fold issued. rewrite !log_is_logs.
  set (w1 := set_messageHistory (messageHistory w ++ [turn]) w).
  assert (forall error es0,
             exists t es,
               (let (o, w') := call_opt (onError callbacks) error (logs (issued :: es0) w1) in
                match o with
                | Returned _ => (@Threw unit error, w')
                | Threw t => (Threw t, w')
                end) = (Threw t, logs (issued :: es) w1)) as Fail.
  { intros error es0.
    destruct (report_and_rethrow callbacks error (logs (issued :: es0) w1) WB)
      as [t [es E]].
    unfold bind, throw in E. rewrite E, logs_logs. now exists t, (es0 ++ es)%list. }
  destruct (fetch H (model_requests (trace w)) (llm_model w) request true)
    as [response|t]; [|apply (Fail t [])].
  destruct (ok response); cbn [negb]; cbv beta iota; [|apply (Fail _ [])].
  destruct (body_reader response) as [[reads failure]|]; [|apply (Fail _ [])].
  cbn [fst snd].
  destruct (ollama_consume_run failure reads "" (logs [issued] w1)) as [es ->].
  rewrite logs_logs. destruct failure as [error|]; [apply (Fail error es)|].
  cbn [messageHistory logs set_messageHistory].
  match goal with
  | |- exists _, (let (_, _) := call_opt ?c ?a ?v in _) = _ =>
      destruct (quiet_call_opt c a (fun f E => @complete_quiet callbacks WB f _ E) v)
        as [es' ->]
  end.
  exists (es ++ es')%list. unfold logs, w1. simpl.
  now rewrite <- !app_assoc.
Qed.

End OllamaFacts.

(** The call goes to the service of the configured provider. *)
Lemma LLM_streamChat_run (H : Host) (message : string) (callbacks : StreamCallbacks)
  (context : option string) (w : World) :
  LLM.streamChat H message callbacks context w =
  match llm_provider w with
  | ollama => OllamaService.streamChat H message callbacks context w
  | claude => ClaudeService.streamChat H message callbacks context w
  end.
Proof. unfold LLM.streamChat. now destruct (llm_provider w). Qed.

Lemma LLM_chat_run (H : Host) (message : string) (context : option string) (w : World) :
  LLM.chat H message context w =
  match llm_provider w with
  | ollama => OllamaService.chat H message context w
  | claude => ClaudeService.chat H message context w
  end.
Proof. unfold LLM.chat. now destruct (llm_provider w). Qed.

(** C5. History of a streaming call.  For either service, with callbacks
    that only relay events: the user turn [M] is appended to the history
    first, so the request that is issued already carries it; when the
    stream runs to its end, the call returns and the history is the old one
    followed by the user turn [M] and the assistant turn holding the
    concatenation of the tokens, in that order; when the request or the
    stream fails, the call throws and the history is the old one followed
    by the user turn [M] only. *)
Theorem streamChat_history (H : Host) (message : string) (callbacks : StreamCallbacks)
  (context : option string) (w : World) :
  well_behaved callbacks ->
  let turn := mkMessage user (Some (JStr message)) in
  let request := outbound_messages (messageHistory w ++ [turn]) message context in
  let issued := ModelRequest (llm_provider w) (model_of w) request true in
  (forall R,
     stream_result H w request = Some R ->
     exists es,
       LLM.streamChat H message callbacks context w =
       (Returned tt,
        logs (issued :: es)
          (set_messageHistory
             (messageHistory w ++ [turn; mkMessage assistant (Some (JStr R))]) w)))
  /\ (stream_result H w request = None ->
      exists t es,
        LLM.streamChat H message callbacks context w =
        (Threw t,
         logs (issued :: es) (set_messageHistory (messageHistory w ++ [turn]) w))).
Proof.
  intros WB turn request issued.
  rewrite LLM_streamChat_run. unfold model_of in *. subst issued.
  destruct (llm_provider w) eqn:Hprovider.
  - pose proof (ollama_streamChat_run H callbacks WB message context w Hprovider) as Run.
    cbv zeta in Run. fold turn request in Run.
    destruct (stream_result H w request) as [R|].
    + split; [|discriminate]. intros R' [= <-]. exact Run.
    + split; [discriminate|]. intros _. exact Run.
  - pose proof (claude_streamChat_run H callbacks WB message context w) as Run.
    cbv zeta in Run. fold turn request in Run.
    unfold stream_result. rewrite Hprovider.
    destruct (messages_stream H (model_requests (trace w)) request)
      as [[chunks [error|]]|t].
    + split; [discriminate|]. intros _. exact Run.
    + split; [|discriminate]. intros R' [= <-]. exact Run.
    + split; [discriminate|]. intros _. exact Run.
Qed.

(** The callbacks of [processMessage] only relay events. *)
Lemma relay_well_behaved : well_behaved relay.
Proof.
  assert (forall channel payload, quiet (webContents_send channel payload)) as Q.
  { intros channel payload w. unfold webContents_send.
    destruct (mainWindow w).
    - now exists [Send channel payload].
    - exists []. unfold ret. now rewrite logs_nil. }
  split.
  - intros token. apply Q.
  - intros f fullResponse [= <-]. apply Q.
  - intros f error [= <-] w. unfold when_window, bind, lift.
    destruct (mainWindow w); [|exists (Returned tt), []; unfold ret; now rewrite logs_nil].
    destruct (message_of error) as [m|t].
    + destruct (Q "chat-error" [("error", m)] w) as [es ->]. now exists (Returned tt), es.
    + exists (Threw t), []. now rewrite logs_nil.
Qed.

Lemma streamChat_history_witness :
  (exists es,
     LLM.streamChat host_streaming "hi" relay None (fresh claude []) =
     (Returned tt,
      logs (ModelRequest claude ClaudeService.model
              [mkMessage user (Some (JStr "hi")); mkMessage user (Some (JStr "hi"))] true
            :: es)
        (set_messageHistory
           [mkMessage user (Some (JStr "hi")); mkMessage assistant (Some (JStr "Hello"))]
           (fresh claude []))))
  /\ (exists t es,
        LLM.streamChat host_404 "hi" relay None (fresh ollama []) =
        (Threw t,
         logs (ModelRequest ollama "mistral"
                 [mkMessage user (Some (JStr "hi")); mkMessage user (Some (JStr "hi"))] true
               :: es)
           (set_messageHistory [mkMessage user (Some (JStr "hi"))] (fresh ollama [])))).
Proof.
  split.
  - exact (proj1 (streamChat_history host_streaming "hi" relay None (fresh claude [])
                    relay_well_behaved) "Hello" eq_refl).
  - exact (proj2 (streamChat_history host_404 "hi" relay None (fresh ollama [])
                    relay_well_behaved) eq_refl).
Defined.

(* ================================================================== *)
(** * The outbound request *)
(* ================================================================== *)

Section RequestFacts.
Variable H : Host.

Lemma claude_chat_trace (message : string) (context : option string) (w : World) :
  trace (snd (ClaudeService.chat H message context w)) =
  (trace w
   ++ [ModelRequest claude ClaudeService.model
         (outbound_messages
            (messageHistory w ++ [mkMessage user (Some (JStr message))]) message context)
         false])%list.
Proof.
  unfold ClaudeService.chat, try_catch, bind, push_history, update, read,
    ClaudeService.create, ret, throw.
  cbv beta iota. cbn [messageHistory set_messageHistory trace].
  destruct (messages_create H _ _) as [[|first rest]|t]; reflexivity.
Qed.

Lemma ollama_chat_trace (message : string) (context : option string) (w : World) :
  trace (snd (OllamaService.chat H message context w)) =
  (trace w
   ++ [ModelRequest ollama (llm_model w)
         (outbound_messages
            (messageHistory w ++ [mkMessage user (Some (JStr message))]) message context)
         false])%list.
Proof.
  unfold OllamaService.chat, try_catch, bind, push_history, update, read,
    OllamaService.fetch_chat, OllamaService.check_ok, lift, ret, throw.
  cbv beta iota. cbn [messageHistory set_messageHistory trace llm_model].
  destruct (fetch H _ _ _ _) as [response|t]; [|reflexivity].
  destruct (ok response); cbn [negb]; cbv beta iota; [|reflexivity].
  destruct (body_json response) as [data|t]; [|reflexivity].
  destruct (let? m := Js.get (Some data) "message" in Js.get m "content");
    reflexivity.
Qed.

End RequestFacts.

Lemma outbound_messages_twice (history : list LLMMessage) (message : string)
  (context : option string) :
  outbound_messages (history ++ [mkMessage user (Some (JStr message))]) message context
  = (history ++ [mkMessage user (Some (JStr message));
                 mkMessage user (Some (JStr (prompt_content message context)))])%list.
Proof. unfold outbound_messages. now rewrite <- app_assoc. Qed.

(** C10. The outbound request carries the user message twice.  For both
    services, the message list of a [chat] or [streamChat] request is the
    history as it was, then the user turn [M] just appended, then one more
    user element whose content is [M], preceded by the context framing
    ("Context: <context>", an empty line, "User: ") when a non-empty
    context is given. *)
Theorem outbound_request_duplicates_message (H : Host) (message : string)
  (context : option string) (w : World) :
  let request :=
    (messageHistory w
     ++ [mkMessage user (Some (JStr message));
         mkMessage user (Some (JStr (prompt_content message context)))])%list in
  trace (snd (LLM.chat H message context w))
  = (trace w ++ [ModelRequest (llm_provider w) (model_of w) request false])%list
  /\ (forall callbacks,
        well_behaved callbacks ->
        exists es,
          trace (snd (LLM.streamChat H message callbacks context w))
          = (trace w ++ ModelRequest (llm_provider w) (model_of w) request true :: es)%list)
  /\ prompt_content message context
     = match context with
       | Some c =>
           if JsString.is_empty c then message
           else "Context: " ++ c ++ nl ++ nl ++ "User: " ++ message
       | None => message
       end.
Proof.
  intro request. subst request. rewrite <- outbound_messages_twice.
  unfold model_of. split; [|split].
  - rewrite LLM_chat_run.
    destruct (llm_provider w); [apply ollama_chat_trace|apply claude_chat_trace].
  - intros callbacks WB. rewrite LLM_streamChat_run.
    destruct (llm_provider w) eqn:Hprovider.
    + pose proof (ollama_streamChat_run H callbacks WB message context w Hprovider) as Run.
      cbv zeta in Run.
      destruct (stream_result H w _) as [R|];
        [destruct Run as [es ->]|destruct Run as [t [es ->]]]; now exists es.
    + pose proof (claude_streamChat_run H callbacks WB message context w) as Run.
      cbv zeta in Run.
      destruct (messages_stream H _ _) as [[chunks [error|]]|t];
        [destruct Run as [t [es ->]]|destruct Run as [es ->]|destruct Run as [t' [es ->]]];
        now exists es.
  - unfold prompt_content. destruct context as [[|c s]|]; reflexivity.
Qed.

Lemma outbound_request_duplicates_message_witness :
  exists es,
    trace (snd (LLM.streamChat host_streaming "hi" relay (Some "night watch")
                  (fresh claude [])))
    = (ModelRequest claude ClaudeService.model
         [mkMessage user (Some (JStr "hi"));
          mkMessage user (Some (JStr ("Context: night watch" ++ nl ++ nl ++ "User: hi")))]
         true :: es)%list.
Proof.
  exact (proj1 (proj2 (outbound_request_duplicates_message host_streaming "hi"
                         (Some "night watch") (fresh claude [])))
           relay relay_well_behaved).
Defined.

(* ================================================================== *)
(** * Worked examples *)
(* ================================================================== *)

(** The regular expressions of the direct actions. *)
Example show_image_capture :
  option_map (fun m => snd m 1)
    (Regex.exec re_show_image "please show the image of the night watch")
  = Some (Some "the night watch")
  /\ Regex.exec re_show_image "show me an image" = None.
Proof. split; vm_compute; reflexivity. Qed.

(** Argument extraction for the other tools. *)
Example extractToolArgs_examples :
  Intent.extractToolArgs "Find 'The Night Watch' SK-C-5 please" search_tool
  = [("query", Some (JStr "sk-c-5")); ("pageSize", Some (JNum 10))]
  /\ Intent.extractToolArgs "tell me about  the   milkmaid" search_tool
     = [("query", Some (JStr "the milkmaid")); ("pageSize", Some (JNum 10));
        ("imgonly", Some (JBool true)); ("s", Some (JStr "relevance"))]
  /\ Intent.extractToolArgs "Give me more details about 'SK-A-2344' "
       (mkTool "get_artwork_details" None None)
     = [("objectNumber", Some (JStr "sk-a-2344"))]
  /\ Intent.extractToolArgs "show Rembrandt timeline"
       (mkTool "get_artist_timeline" None None)
     = [("artist", Some (JStr "rembrandt")); ("maxWorks", Some (JNum 10))]
  /\ Intent.extractToolArgs "chronological Vermeer"
       (mkTool "get_artist_timeline" None None)
     = [("artist", Some (JStr "chronological Vermeer")); ("maxWorks", Some (JNum 10))]
  /\ Intent.extractToolArgs "anything" (mkTool "list_things" None None) = [].
Proof. repeat split; vm_compute; reflexivity. Qed.

(** Formatters render absent results as text, and throw on a malformed
    entry (which [getRelevantContext] turns into the apology). *)
Example formatter_examples :
  Format.formatArtworkDetails JNull = Returned "Artwork details not found"
  /\ Format.formatArtistTimeline (JStr "none") = Returned "No timeline available"
  /\ Format.formatArtworkSearchResult (JObj [("artworks", JArr [])])
     = Returned "No artworks found"
  /\ Format.formatArtistTimeline
       (JArr [JObj [("date", JNum 1642); ("title", JStr "The Night Watch")]])
     = Returned ("Artist Timeline:" ++ nl ++ nl ++ "1642: The Night Watch")
  /\ Format.formatArtworkSearchResult (JObj [("artworks", JArr [JObj [("title", JStr "x")]])])
     = Threw (TypeError "Cannot read properties of undefined (reading 'split')").
Proof. repeat split; vm_compute; reflexivity. Qed.

(** A direct image request opens the image of a cached artwork. *)
Example direct_image_request :
  extractAndExecuteActions (host_replying (mkResult (Some [mkBlock "text" (Some "ok")])))
    "Please show the image of night watch" with_night_watch
  = (Returned (Some ("I've opened the image of " ++ dquote ++ "The Night Watch" ++ dquote
                     ++ " by Rembrandt in your browser.")),
     logs [ToolRequest "open_image_in_browser"
             [("imageUrl", Some (JStr "https://example.org/nw.jpg"))]]
       with_night_watch).
Proof. vm_compute. reflexivity. Qed.

(** No trigger, nothing in the cache: the prompt holds the framing and the
    message only, and the stream is relayed token by token. *)
Example no_trigger_goes_to_model :
  processMessage host_streaming "hello" (fresh claude [search_tool])
  = (Returned tt,
     logs [ModelRequest claude ClaudeService.model
             [mkMessage user (Some (JStr "hello"));
              mkMessage user
                (Some (JStr ("Context: " ++ fullContext None None "hello"
                             ++ nl ++ nl ++ "User: hello")))]
             true;
           Send "chat-token" (assistant_reply (Some (JStr "Hel")));
           Send "chat-token" (assistant_reply (Some (JStr "lo")));
           Send "chat-complete" (assistant_reply (Some (JStr "Hello")))]
       (set_messageHistory
          [mkMessage user (Some (JStr "hello")); mkMessage assistant (Some (JStr "Hello"))]
          (fresh claude [search_tool]))).
Proof. vm_compute. reflexivity. Qed.

(** The message of the retry-exhaustion error. *)
Example retries_exhausted_message :
  retries_exhausted
  = new_Error "Server error (500) after 3 retries. The Rijksmuseum API might be experiencing issues.".
Proof. reflexivity. Qed.

(* ================================================================== *)
(** * Further properties of the tool invoker *)
(* ================================================================== *)

Lemma callTool_remaining_decided (H : Host) (tool : string) (args : jsobject) :
  forall (remaining : nat) (w : World),
    exists k,
      k <= remaining
      /\ (forall i, i < k ->
            rejects_500 (transport H (tool_requests (trace w) + i) tool args))
      /\ (rejects_500 (transport H (tool_requests (trace w) + k) tool args) ->
          k = remaining)
      /\ callTool_remaining H remaining tool args w =
         (final_outcome H (transport H (tool_requests (trace w) + k) tool args),
          logs (retried tool args k ++ [ToolRequest tool args]) w).
Proof.
  induction remaining as [|r IH]; intro w.
  - exists 0. rewrite Nat.add_0_r, callTool_remaining_run. repeat split; try lia.
    unfold final_outcome.
    destruct (transport H (tool_requests (trace w)) tool args) as [response|t];
      [reflexivity|now destruct (reports_500 t)].
  - destruct (transport H (tool_requests (trace w)) tool args) as [response|t] eqn:E.
    + exists 0. rewrite Nat.add_0_r, callTool_remaining_run, E. repeat split; try lia.
      intros [t [Ht _]]. discriminate.
    + destruct (reports_500 t) eqn:E5.
      * destruct (IH (logs [ToolRequest tool args; Delay RETRY_DELAY] w))
          as [k [Hk [Hfail [Hlast Hrun]]]].
        rewrite tool_requests_logs in Hfail, Hlast, Hrun.
        change (tool_requests [ToolRequest tool args; Delay RETRY_DELAY]) with 1
          in Hfail, Hlast, Hrun.
        exists (S k). split; [lia|]. split; [|split].
        -- intros [|i] Hi.
           ++ rewrite Nat.add_0_r. now exists t.
           ++ replace (tool_requests (trace w) + S i)
                with (tool_requests (trace w) + 1 + i) by lia.
              apply Hfail. lia.
        -- replace (tool_requests (trace w) + S k)
             with (tool_requests (trace w) + 1 + k) by lia.
           intro R. now rewrite (Hlast R).
        -- rewrite callTool_remaining_run, E, E5, Hrun, logs_logs.
           replace (tool_requests (trace w) + S k)
             with (tool_requests (trace w) + 1 + k) by lia.
           reflexivity.
      * exists 0. rewrite Nat.add_0_r, callTool_remaining_run, E, E5.
        repeat split; try lia.
        -- intros [t' [[= <-] H5]]. congruence.
        -- unfold final_outcome. now rewrite E5.
Qed.

(** X2. [callTool] is decided by the first attempt that is not a retried
    status 500.  There is a number [k] of retries, at most the retries
    still allowed, such that the first [k] attempts were rejected with
    status 500, and the outcome is that of attempt [k + 1]: its payload, the
    invalid-format error if it has no text, the transport's own rejection
    unchanged if that is not a status 500, and the retry-exhaustion error
    only if that is a status 500 again and no retry is left.  The effects
    are [k + 1] requests of the same tool with the same arguments, separated
    by delays of 1000 ms, and nothing else changes in the state. *)
Theorem callTool_decided_by_last_attempt (H : Host) (tool : string) (args : jsobject)
  (retryCount : nat) (w : World) :
  exists k,
    k <= MAX_RETRIES - retryCount
    /\ (forall i, i < k ->
          rejects_500 (transport H (tool_requests (trace w) + i) tool args))
    /\ (rejects_500 (transport H (tool_requests (trace w) + k) tool args) ->
        k = MAX_RETRIES - retryCount)
    /\ callTool H tool args retryCount w =
       (final_outcome H (transport H (tool_requests (trace w) + k) tool args),
        logs (retried tool args k ++ [ToolRequest tool args]) w)
    /\ tool_requests (retried tool args k ++ [ToolRequest tool args]) = k + 1
    /\ filter is_Delay (retried tool args k ++ [ToolRequest tool args])
       = repeat (Delay 1000) k.
Proof.
  destruct (callTool_remaining_decided H tool args (MAX_RETRIES - retryCount) w)
    as [k [Hk [Hfail [Hlast Hrun]]]].
  exists k. repeat split; auto.
  - clear. induction k as [|k IH]; [reflexivity|].
    simpl. unfold tool_requests in *. simpl. now rewrite IH.
  - rewrite filter_app, delays_retried. simpl. now rewrite app_nil_r.
Qed.

Lemma callTool_only_attempts (H : Host) (tool : string) (args : jsobject) (w : World) :
  only_attempts tool args w (snd (callTool H tool args 0 w)).
Proof.
  destruct (callTool_remaining_decided H tool args (MAX_RETRIES - 0) w)
    as [k [Hk [_ [_ Hrun]]]].
  exists k. split; [exact Hk|]. unfold callTool. now rewrite Hrun.
Qed.

(* ================================================================== *)
(** * Further properties of the handlers and of the cache *)
(* ================================================================== *)

(** X3. [searchArtworks], [getArtworkDetails] and [openImageInBrowser]
    never throw to their caller, and a failed tool call leaves no trace but
    the attempts themselves: nothing is sent to the window and the cache is
    as it was.  [openImageInBrowser] does nothing else even when the call
    succeeds. *)
Theorem handlers_swallow_failures (H : Host) (w : World) :
  (forall query,
     fst (searchArtworks H query w) = Returned tt
     /\ (fails (callTool H "search_artwork" (search_args query) 0 w) ->
         only_attempts "search_artwork" (search_args query) w
           (snd (searchArtworks H query w))))
  /\ (forall objectNumber,
        fst (getArtworkDetails H objectNumber w) = Returned tt
        /\ (fails (callTool H "get_artwork_details" [("objectNumber", objectNumber)] 0 w) ->
            only_attempts "get_artwork_details" [("objectNumber", objectNumber)] w
              (snd (getArtworkDetails H objectNumber w))))
  /\ (forall imageUrl,
        fst (openImageInBrowser H imageUrl w) = Returned tt
        /\ only_attempts "open_image_in_browser" [("imageUrl", imageUrl)] w
             (snd (openImageInBrowser H imageUrl w))).
Proof.
  split; [|split].
  - intro query.
    pose proof (callTool_only_attempts H "search_artwork" (search_args query) w) as A.
    unfold searchArtworks, try_catch, bind, fails. fold (search_args query).
    destruct (callTool H "search_artwork" (search_args query) 0 w) as [[response|t] w1].
    + unfold update, webContents_send. simpl.
      split; [now destruct (mainWindow w1)|]. intros [t [=]].
    + split; [reflexivity|]. intros _. exact A.
  - intro objectNumber.
    pose proof (callTool_only_attempts H "get_artwork_details"
                  [("objectNumber", objectNumber)] w) as A.
    unfold getArtworkDetails, try_catch, bind, fails.
    destruct (callTool H "get_artwork_details" [("objectNumber", objectNumber)] 0 w)
      as [[response|t] w1].
    + unfold read, lift, update, webContents_send. simpl.
      split; [|intros [t [=]]].
      destruct (upsert H objectNumber response (recentArtworks w1)); [|reflexivity].
      now destruct (mainWindow w1).
    + split; [reflexivity|]. intros _. exact A.
  - intro imageUrl.
    pose proof (callTool_only_attempts H "open_image_in_browser"
                  [("imageUrl", imageUrl)] w) as A.
    unfold openImageInBrowser, try_catch, bind.
    destruct (callTool H "open_image_in_browser" [("imageUrl", imageUrl)] 0 w)
      as [[response|t] w1]; split; try reflexivity; exact A.
Qed.

Lemma handlers_swallow_failures_witness :
  only_attempts "search_artwork" (search_args "vermeer") (fresh ollama [])
    (snd (searchArtworks host_500 "vermeer" (fresh ollama []))).
Proof.
  apply (proj1 (@handlers_swallow_failures host_500 (fresh ollama [])) "vermeer").
  exists retries_exhausted. vm_compute. reflexivity.
Defined.

Lemma as_array_not_array (method : string) (cache : json) :
  is_array cache = false -> exists t, as_array method cache = Threw t.
Proof. destruct cache; simpl; intro E; try discriminate; eauto. Qed.

(** X4. When the cache is not an array, [getArtworkDetails] drops a reply
    it has received: [findIndex] throws inside the [try], so the cache stays
    as it is and no [artwork_details] event is sent, although the tool call
    succeeded.  [searchArtworks] leaves the cache in that state whenever the
    search payload is an object. *)
Theorem getArtworkDetails_drops_reply (H : Host) (objectNumber : jsval)
  (response : json) (w w1 : World) :
  callTool H "get_artwork_details" [("objectNumber", objectNumber)] 0 w
    = (Returned response, w1) ->
  is_array (recentArtworks w) = false ->
  getArtworkDetails H objectNumber w = (Returned tt, w1)
  /\ only_attempts "get_artwork_details" [("objectNumber", objectNumber)] w w1.
Proof.
  intros Hcall Hcache.
  pose proof (callTool_only_attempts H "get_artwork_details"
                [("objectNumber", objectNumber)] w) as A.
  rewrite Hcall in A. simpl in A. split; [|exact A].
  destruct A as [k [_ ->]].
  unfold getArtworkDetails, try_catch, bind. rewrite Hcall.
  unfold read, lift, upsert. simpl.
  destruct (as_array_not_array "findIndex" (recentArtworks w) Hcache) as [t ->].
  reflexivity.
Qed.

Lemma getArtworkDetails_drops_reply_witness :
  recentArtworks (snd (searchArtworks host_night_watch "night watch" (fresh ollama [])))
    = night_watch_details
  /\ getArtworkDetails host_night_watch (Some (JStr "SK-C-5"))
       (snd (searchArtworks host_night_watch "night watch" (fresh ollama [])))
     = (Returned tt,
        logs [ToolRequest "get_artwork_details" [("objectNumber", Some (JStr "SK-C-5"))]]
          (snd (searchArtworks host_night_watch "night watch" (fresh ollama [])))).
Proof.
  split; [vm_compute; reflexivity|].
  apply (@getArtworkDetails_drops_reply host_night_watch (Some (JStr "SK-C-5"))
           night_watch_details).
  - vm_compute. reflexivity.
  - vm_compute. reflexivity.
Defined.

(* ================================================================== *)
(** * Further properties of the direct actions *)
(* ================================================================== *)

Lemma find_recent_not_array (artworkName : string) (w : World) :
  is_array (recentArtworks w) = false ->
  exists t, find_recent artworkName w = (Threw t, w).
Proof.
  intro Hcache. unfold find_recent, bind, read, lift.
  destruct (as_array_not_array "find" (recentArtworks w) Hcache) as [t ->].
  now exists t.
Qed.

Lemma extractAndExecuteActions_not_array (H : Host) (message : string) (w : World) :
  is_array (recentArtworks w) = false ->
  direct_request message = true ->
  exists t, extractAndExecuteActions H message w = (Threw t, w).
Proof.
  intros Hcache Hdirect. unfold direct_request in Hdirect.
  unfold extractAndExecuteActions, try_open_image, try_get_details.
  destruct (Regex.exec re_show_image (JsString.toLowerCase message)) as [imageMatch|].
  - destruct (find_recent_not_array (Intent.group1_or (Some imageMatch) "") w Hcache)
      as [t E].
    exists t. unfold bind at 1. unfold bind at 1. now rewrite E.
  - destruct (Regex.exec re_tell_details (JsString.toLowerCase message))
      as [detailsMatch|]; [|discriminate].
    destruct (find_recent_not_array (Intent.group1_or (Some detailsMatch) "") w Hcache)
      as [t E].
    exists t. unfold bind at 1. unfold ret at 1. unfold bind at 1. now rewrite E.
Qed.

(** X5. While the cache is not an array, which is how [searchArtworks]
    leaves it after a search whose payload is an object, every message that
    is a direct request for an image or for details fails as a whole: the
    only effect of [processMessage] is the [chat-error] event "Failed to
    process message"; no tool is called, the model is not asked, and the
    history does not change. *)
Theorem direct_request_fails_on_unscannable_cache (H : Host) (message : string)
  (w : World) :
  is_array (recentArtworks w) = false ->
  direct_request message = true ->
  processMessage H message w =
  (Returned tt, if mainWindow w then logs [failed_to_process] w else w).
Proof.
  intros Hcache Hdirect.
  destruct (extractAndExecuteActions_not_array H message w Hcache Hdirect) as [t E].
  unfold processMessage, try_catch, bind. rewrite E.
  unfold webContents_send, emit. destruct (mainWindow w); [|reflexivity].
  now rewrite log_is_logs.
Qed.

Lemma direct_request_fails_on_unscannable_cache_witness :
  processMessage host_night_watch "show me details about the night watch"
    (snd (searchArtworks host_night_watch "night watch" (fresh ollama [])))
  = (Returned tt,
     logs [failed_to_process]
       (snd (searchArtworks host_night_watch "night watch" (fresh ollama [])))).
Proof.
  apply (@direct_request_fails_on_unscannable_cache host_night_watch
           "show me details about the night watch"
           (snd (searchArtworks host_night_watch "night watch" (fresh ollama [])))).
  - vm_compute. reflexivity.
  - vm_compute. reflexivity.
Defined.

(** X6. Messages that start no direct action.  With an empty cache, and
    for a message that matches neither request pattern, whatever the cache,
    [extractAndExecuteActions] returns [undefined] and has no effect at
    all.  In every case, what it does is on the tool side only: the history
    and the model backend are not touched. *)
Theorem direct_actions_idle (H : Host) (message : string) (w : World) :
  (recentArtworks w = JArr [] ->
   extractAndExecuteActions H message w = (Returned None, w))
  /\ (direct_request message = false ->
      extractAndExecuteActions H message w = (Returned None, w))
  /\ tool_step w (snd (extractAndExecuteActions H message w)).
Proof.
  split; [|split].
  - intro Hcache.
    unfold extractAndExecuteActions, try_open_image, try_get_details, find_recent.
    destruct (Regex.exec re_show_image (JsString.toLowerCase message));
      destruct (Regex.exec re_tell_details (JsString.toLowerCase message));
      unfold bind, read, lift, ret; rewrite ?Hcache; simpl; rewrite ?Hcache;
      reflexivity.
  - intro Hdirect. unfold direct_request in Hdirect.
    unfold extractAndExecuteActions, try_open_image, try_get_details.
    destruct (Regex.exec re_show_image (JsString.toLowerCase message)); [discriminate|].
    destruct (Regex.exec re_tell_details (JsString.toLowerCase message)); [discriminate|].
    reflexivity.
  - apply extractAndExecuteActions_tool_step.
Qed.

Lemma direct_actions_idle_witness :
  extractAndExecuteActions host_404 "show the image of the night watch" (fresh ollama [])
    = (Returned None, fresh ollama [])
  /\ extractAndExecuteActions host_404 "who painted this?" with_night_watch
    = (Returned None, with_night_watch).
Proof.
  split.
  - apply (proj1 (@direct_actions_idle host_404 "show the image of the night watch"
                    (fresh ollama []))).
    reflexivity.
  - apply (proj1 (proj2 (@direct_actions_idle host_404 "who painted this?"
                           with_night_watch))).
    vm_compute. reflexivity.
Defined.

(* ================================================================== *)
(** * Further properties of the context assembler *)
(* ================================================================== *)

Lemma invoke_run (H : Host) (message : string) (tool : MCPTool) (w : World) :
  invoke H message tool w =
  (match fst (callTool H (name tool) (Intent.extractToolArgs message tool) 0 w) with
   | Returned result =>
       match format_result H tool result with
       | Returned formatted => Returned (Some formatted)
       | Threw _ => Returned (Some api_apology)
       end
   | Threw _ => Returned (Some api_apology)
   end,
   snd (callTool H (name tool) (Intent.extractToolArgs message tool) 0 w)).
Proof.
  unfold invoke, try_catch, bind, lift.
  destruct (callTool H (name tool) (Intent.extractToolArgs message tool) 0 w)
    as [[result|t] w']; [|reflexivity].
  simpl. destruct (format_result H tool result); reflexivity.
Qed.

Lemma first_matching_effects (H : Host) (message : string) (w : World) :
  forall tools,
    (exists o, first_matching H message tools w = (o, w)
               /\ (o = Returned None \/ exists t, o = Threw t))
    \/ (exists tool context k,
          In tool tools
          /\ Intent.matchesToolIntent message tool = Returned true
          /\ k <= MAX_RETRIES
          /\ first_matching H message tools w =
             (Returned (Some context),
              logs (attempts (name tool) (Intent.extractToolArgs message tool) k) w)).
Proof.
  induction tools as [|tool rest IH].
  - left. exists (Returned None). split; [reflexivity|now left].
  - rewrite first_matching_cons.
    destruct (Intent.matchesToolIntent message tool) as [[|]|t] eqn:E.
    + right.
      destruct (callTool_only_attempts H (name tool)
                  (Intent.extractToolArgs message tool) w) as [k [Hk Hw]].
      destruct (invoke_returns H message tool w) as [context [w' Hrun]].
      exists tool, context, k. repeat split; auto; [now left|].
      rewrite Hrun. f_equal. rewrite invoke_run in Hrun.
      injection Hrun as _ <-. exact Hw.
    + destruct IH as [[o [Hrun Ho]]|[tool' [context [k [Hin [Hm [Hk Hrun]]]]]]].
      * left. now exists o.
      * right. exists tool', context, k. repeat split; auto. now right.
    + left. exists (Threw t). split; [reflexivity|right; now exists t].
Qed.

(** X7. [getRelevantContext] never throws and calls at most one tool per
    message.  Either nothing happens at all, and the context is [undefined]
    or the apology for an internal error; or one tool of the registry that
    matches the message is called, with the arguments extracted from the
    message, in at most four attempts, and the context is a string.  The
    recent-result cache and the history are never changed by it. *)
Theorem getRelevantContext_calls_at_most_one_tool (H : Host) (message : string)
  (w : World) :
  (getRelevantContext H message w = (Returned None, w)
   \/ getRelevantContext H message w = (Returned (Some error_apology), w))
  \/ (exists tool context k,
        In tool (availableTools w)
        /\ Intent.matchesToolIntent message tool = Returned true
        /\ k <= MAX_RETRIES
        /\ getRelevantContext H message w =
           (Returned (Some context),
            logs (attempts (name tool) (Intent.extractToolArgs message tool) k) w)).
Proof.
  rewrite getRelevantContext_run.
  destruct (first_matching_effects H message w (availableTools w))
    as [[o [Hrun [->|[t ->]]]]|[tool [context [k [Hin [Hm [Hk Hrun]]]]]]].
  - left. left. now rewrite Hrun.
  - left. right. now rewrite Hrun.
  - right. exists tool, context, k. repeat split; auto. now rewrite Hrun.
Qed.

Lemma first_match_invoked (H : Host) (message : string) (tool : MCPTool) (w : World) :
  first_match message tool (availableTools w) ->
  getRelevantContext H message w = invoke H message tool w.
Proof.
  intros [pre [post [Htools [Hpre Htool]]]].
  rewrite getRelevantContext_run, Htools, first_matching_skip by exact Hpre.
  rewrite first_matching_cons, Htool.
  destruct (invoke_returns H message tool w) as [context [w' ->]]. reflexivity.
Qed.

(** X8. Every failure of the selected tool ends in the same apology, and
    the model is not asked.  When the call of the first matching tool fails,
    whatever the error, or when the formatter throws on its result,
    [processMessage] sends the API apology as a [chat-token] and as a
    [chat-complete] event and returns; beyond the direct action, the only
    other effects are the attempts of that call. *)
Theorem tool_failure_is_answered_with_apology (H : Host) (message : string)
  (tool : MCPTool) (actionResult : option string) (w w1 : World) :
  extractAndExecuteActions H message w = (Returned actionResult, w1) ->
  first_match message tool (availableTools w1) ->
  unusable H tool (callTool H (name tool) (Intent.extractToolArgs message tool) 0 w1) ->
  exists k,
    k <= MAX_RETRIES
    /\ processMessage H message w =
       (Returned tt,
        (if mainWindow w then logs (answered_with api_apology) else fun w' => w')
          (logs (attempts (name tool) (Intent.extractToolArgs message tool) k) w1)).
Proof.
  intros Hact Hfirst Hbad.
  assert (tool_step w w1) as S1
    by (pose proof (extractAndExecuteActions_tool_step H message w) as S;
        now rewrite Hact in S).
  pose proof (tool_step_frame _ _ S1) as [Hwin _].
  destruct (callTool_only_attempts H (name tool)
              (Intent.extractToolArgs message tool) w1) as [k [Hk Hw]].
  exists k. split; [exact Hk|].
  assert (getRelevantContext H message w1 =
          (Returned (Some api_apology),
           logs (attempts (name tool) (Intent.extractToolArgs message tool) k) w1)) as Hctx.
  { rewrite (first_match_invoked H message tool w1 Hfirst), invoke_run, <- Hw.
    f_equal. unfold unusable in Hbad.
    destruct (fst (callTool H (name tool) (Intent.extractToolArgs message tool) 0 w1))
      as [result|t]; [|reflexivity].
    destruct Hbad as [t ->]. reflexivity. }
  unfold processMessage, try_catch, bind. rewrite Hact, Hctx.
  change (is_error_context (Some api_apology)) with true. cbv iota.
  unfold webContents_send, emit, ret. cbn [mainWindow logs log]. rewrite Hwin.
  destruct (mainWindow w) eqn:Hopen; cbn [mainWindow logs log]; rewrite ?Hwin, ?Hopen;
    [|reflexivity].
  rewrite !log_is_logs, logs_logs. reflexivity.
Qed.

Lemma tool_failure_is_answered_with_apology_witness :
  (exists k,
     k <= MAX_RETRIES
     /\ processMessage host_500 "find sunflowers" (fresh claude [search_tool]) =
        (Returned tt,
         logs (answered_with api_apology)
           (logs (attempts "search_artwork" sunflowers_args k)
              (fresh claude [search_tool]))))
  /\ (exists k,
        k <= MAX_RETRIES
        /\ processMessage host_untitled "find sunflowers" (fresh claude [search_tool]) =
           (Returned tt,
            logs (answered_with api_apology)
              (logs (attempts "search_artwork" sunflowers_args k)
                 (fresh claude [search_tool])))).
Proof.
  split.
  - apply (@tool_failure_is_answered_with_apology host_500 "find sunflowers" search_tool
             None (fresh claude [search_tool]) (fresh claude [search_tool])).
    + vm_compute. reflexivity.
    + exists [], []. split; [reflexivity|]. split; [intros t []|vm_compute; reflexivity].
    + vm_compute. exact I.
  - apply (@tool_failure_is_answered_with_apology host_untitled "find sunflowers"
             search_tool None (fresh claude [search_tool]) (fresh claude [search_tool])).
    + vm_compute. reflexivity.
    + exists [], []. split; [reflexivity|]. split; [intros t []|vm_compute; reflexivity].
    + vm_compute. eexists. reflexivity.
Defined.

(* ================================================================== *)
(** * The relay of a stream to the window *)
(* ================================================================== *)

Lemma delivered_logs (es es' : list Event) (w : World) :
  delivered (logs es w) es' = delivered w es'.
Proof. reflexivity. Qed.

Lemma delivered_app (w : World) (a b : list Event) :
  delivered w (a ++ b) = (delivered w a ++ delivered w b)%list.
Proof. unfold delivered. now destruct (mainWindow w). Qed.

Lemma delivered_nil (w : World) : delivered w [] = [].
Proof. unfold delivered. now destruct (mainWindow w). Qed.

Lemma webContents_send_run (channel : string) (payload : jsobject) (w : World) :
  webContents_send channel payload w
  = (Returned tt, logs (delivered w [Send channel payload]) w).
Proof.
  unfold webContents_send, delivered, emit, ret. destruct (mainWindow w).
  - now rewrite log_is_logs.
  - now rewrite logs_nil.
Qed.

Lemma text_of_app (a b : list jsval) :
  text_of (a ++ b) = (text_of a ++ text_of b)%string.
Proof.
  induction a as [|x a IH]; simpl; [reflexivity|]. rewrite IH.
  destruct (convertible x); [now rewrite append_assoc|reflexivity].
Qed.

Lemma token_events_app (a b : list jsval) :
  token_events (a ++ b) = (token_events a ++ token_events b)%list.
Proof. apply map_app. Qed.

Lemma text_of_claude_tokens (chunks : list Chunk) :
  text_of (claude_tokens chunks) = claude_text chunks.
Proof.
  induction chunks as [|chunk rest IH]; [reflexivity|].
  destruct chunk as [[t|other]|other]; simpl; try exact IH.
  now rewrite IH.
Qed.

Section RelayFacts.
Variable H : Host.

Lemma claude_consume_relay (failure : option Thrown) :
  forall (chunks : list Chunk) (fullResponse : string) (w : World),
    ClaudeService.consume relay chunks failure fullResponse w =
    (match failure with
     | Some error => Threw error
     | None => Returned (fullResponse ++ text_of (claude_tokens chunks))
     end, logs (delivered w (token_events (claude_tokens chunks))) w).
Proof.
  induction chunks as [|chunk rest IH]; intros fullResponse w.
  - simpl. rewrite delivered_nil, logs_nil, append_empty_r. now destruct failure.
  - destruct chunk as [[t|other]|other]; try apply IH.
    cbn [ClaudeService.consume claude_tokens text_of token_events map].
    unfold bind. cbn [onToken relay]. rewrite webContents_send_run, IH.
    rewrite logs_logs, delivered_logs, <- delivered_app.
    cbn [convertible convertible_json plain_text plain_text_json].
    rewrite append_assoc. reflexivity.
Qed.

Lemma ollama_consume_line_relay (line fullResponse : string) (w : World) :
  OllamaService.consume_line H relay line fullResponse w =
  (Returned (fullResponse
             ++ text_of (match line_token H line with
                         | Some token => [token]
                         | None => []
                         end)),
   logs (delivered w (token_events (match line_token H line with
                                    | Some token => [token]
                                    | None => []
                                    end))) w).
Proof.
  unfold OllamaService.consume_line, line_token, try_catch, bind, lift.
  destruct (JSON_parse H line) as [data|]; cbv beta iota.
  - destruct (Js.get (Some data) "message") as [message|t]; cbv beta iota.
    + destruct (Js.truthy (Js.get_opt message "content")).
      * cbn [onToken relay]. rewrite webContents_send_run, to_string_spec.
        cbn [text_of].
        destruct (convertible (Js.get_opt message "content")); unfold ret;
          now rewrite append_empty_r.
      * unfold ret. cbn [text_of token_events map].
        now rewrite delivered_nil, logs_nil, append_empty_r.
    + unfold ret. cbn [text_of token_events map].
      now rewrite delivered_nil, logs_nil, append_empty_r.
  - unfold throw, ret. cbn [text_of token_events map].
    now rewrite delivered_nil, logs_nil, append_empty_r.
Qed.

Lemma ollama_consume_lines_relay :
  forall (lines : list string) (fullResponse : string) (w : World),
    OllamaService.consume_lines H relay lines fullResponse w =
    (Returned (fullResponse ++ text_of (lines_tokens H lines)),
     logs (delivered w (token_events (lines_tokens H lines))) w).
Proof.
  induction lines as [|line rest IH]; intros fullResponse w.
  - simpl. unfold ret. now rewrite delivered_nil, logs_nil, append_empty_r.
  - cbn [OllamaService.consume_lines lines_tokens]. unfold bind.
    rewrite ollama_consume_line_relay, IH.
    rewrite logs_logs, delivered_logs, <- delivered_app, <- token_events_app.
    rewrite append_assoc, <- text_of_app.
    now destruct (line_token H line).
Qed.

Lemma ollama_consume_relay (failure : option Thrown) :
  forall (reads : list string) (fullResponse : string) (w : World),
    OllamaService.consume H relay reads failure fullResponse w =
    (match failure with
     | Some error => Threw error
     | None => Returned (fullResponse ++ text_of (ollama_tokens H reads))
     end, logs (delivered w (token_events (ollama_tokens H reads))) w).
Proof.
  induction reads as [|chunk rest IH]; intros fullResponse w.
  - simpl. rewrite delivered_nil, logs_nil, append_empty_r. now destruct failure.
  - cbn [OllamaService.consume ollama_tokens]. unfold bind. fold (lines_of chunk).
    rewrite ollama_consume_lines_relay, IH.
    rewrite logs_logs, delivered_logs, <- delivered_app, <- token_events_app.
    destruct failure; [reflexivity|].
    now rewrite append_assoc, <- text_of_app.
Qed.

(** The [catch] block of [streamChat] with the callbacks of
    [processMessage]. *)
Lemma relay_report (error : Thrown) (w : World) :
  (call_opt (onError relay) error ;; @throw unit error) w
  = (Threw (rethrown w error), logs (delivered w (reported error)) w).
Proof.
  unfold bind, throw, reported, rethrown, delivered. cbn [call_opt onError relay].
  unfold when_window, bind, lift.
  destruct (mainWindow w) eqn:Hopen; [|unfold ret; now rewrite logs_nil].
  destruct (message_of error) as [m|t].
  - rewrite webContents_send_run. unfold delivered. now rewrite Hopen.
  - now rewrite logs_nil.
Qed.

End RelayFacts.

Section RelayRuns.
Variable H : Host.

Lemma relay_fails (error : Thrown) (es : list Event) (w : World) :
  (let (o, w') := call_opt (onError relay) error (logs es w) in
   match o with
   | Returned _ => (@Threw unit error, w')
   | Threw t => (Threw t, w')
   end)
  = (Threw (rethrown w error), logs (es ++ delivered w (reported error)) w).
Proof.
  pose proof (relay_report error (logs es w)) as E.
  unfold bind, throw in E. rewrite E, logs_logs, delivered_logs. reflexivity.
Qed.

Lemma set_messageHistory_logs (history : list LLMMessage) (es : list Event) (w : World) :
  set_messageHistory history (logs es w) = logs es (set_messageHistory history w).
Proof. reflexivity. Qed.

Lemma relay_completes (fullResponse : string) (es : list Event) (w : World) :
  call_opt (onComplete relay) fullResponse (logs es w)
  = (Returned tt, logs (es ++ delivered w [completion fullResponse]) w).
Proof.
  cbn [call_opt onComplete relay].
  now rewrite webContents_send_run, logs_logs, delivered_logs.
Qed.

Lemma claude_streamChat_relay (message : string) (context : option string) (w : World) :
  let turn := mkMessage user (Some (JStr message)) in
  let request := outbound_messages (messageHistory w ++ [turn]) message context in
  let issued := ModelRequest claude ClaudeService.model request true in
  llm_provider w = claude ->
  ClaudeService.streamChat H message relay context w =
  match stream_outcome H w request with
  | (tokens, None) =>
      (Returned tt,
       logs (issued :: delivered w (token_events tokens ++ [completion (text_of tokens)]))
         (set_messageHistory
            (messageHistory w
             ++ [turn; mkMessage assistant (Some (JStr (text_of tokens)))]) w))
  | (tokens, Some error) =>
      (Threw (rethrown w error),
       logs (issued :: delivered w (token_events tokens ++ reported error))
         (set_messageHistory (messageHistory w ++ [turn]) w))
  end.
Proof.
  intros turn request issued Hprovider.
  unfold stream_outcome. rewrite Hprovider.
  unfold ClaudeService.streamChat, try_catch, bind, push_history, update, read,
    ClaudeService.create_stream.
  cbv beta iota. cbn [messageHistory set_messageHistory trace].
  fold turn. fold request. fold issued. rewrite !log_is_logs.
  set (w1 := set_messageHistory (messageHistory w ++ [turn]) w).
  change (delivered w) with (delivered w1).
  destruct (messages_stream H (model_requests (trace w)) request)
    as [[chunks failure]|t]; cbn [fst snd].
  - rewrite claude_consume_relay, logs_logs, delivered_logs.
    destruct failure as [error|].
    + rewrite relay_fails, <- app_assoc, <- delivered_app. reflexivity.
    + cbn [append]. rewrite set_messageHistory_logs.
      rewrite relay_completes.
      change (delivered (set_messageHistory _ w1)) with (delivered w1).
      rewrite <- app_assoc, <- delivered_app.
      unfold logs, w1. simpl. now rewrite <- !app_assoc.
  - rewrite relay_fails. reflexivity.
Qed.

Lemma ollama_streamChat_relay (message : string) (context : option string) (w : World) :
  let turn := mkMessage user (Some (JStr message)) in
  let request := outbound_messages (messageHistory w ++ [turn]) message context in
  let issued := ModelRequest ollama (llm_model w) request true in
  llm_provider w = ollama ->
  OllamaService.streamChat H message relay context w =
  match stream_outcome H w request with
  | (tokens, None) =>
      (Returned tt,
       logs (issued :: delivered w (token_events tokens ++ [completion (text_of tokens)]))
         (set_messageHistory
            (messageHistory w
             ++ [turn; mkMessage assistant (Some (JStr (text_of tokens)))]) w))
  | (tokens, Some error) =>
      (Threw (rethrown w error),
       logs (issued :: delivered w (token_events tokens ++ reported error))
         (set_messageHistory (messageHistory w ++ [turn]) w))
  end.
Proof.
  intros turn request issued Hprovider.
  unfold stream_outcome. rewrite Hprovider.
  unfold OllamaService.streamChat, try_catch, bind, push_history, update, read,
    OllamaService.fetch_chat, OllamaService.check_ok, ret, throw.
  cbv beta iota. cbn [messageHistory set_messageHistory trace llm_model].
  fold turn. fold request. fold issued. rewrite !log_is_logs.
  set (w1 := set_messageHistory (messageHistory w ++ [turn]) w).
  change (delivered w) with (delivered w1).
  destruct (fetch H (model_requests (trace w)) (llm_model w) request true)
    as [response|t]; [|now rewrite relay_fails].
  destruct (ok response); cbn [negb]; cbv beta iota; [|now rewrite relay_fails].
  destruct (body_reader response) as [[reads failure]|]; [|now rewrite relay_fails].
  cbn [fst snd].
  rewrite ollama_consume_relay, logs_logs, delivered_logs.
  destruct failure as [error|].
  - rewrite relay_fails, <- app_assoc, <- delivered_app. reflexivity.
  - cbn [append]. rewrite set_messageHistory_logs.
    rewrite relay_completes.
    change (delivered (set_messageHistory _ w1)) with (delivered w1).
    rewrite <- app_assoc, <- delivered_app.
    unfold logs, w1. simpl. now rewrite <- !app_assoc.
Qed.

(** [streamChat] with the callbacks of [processMessage], for the service
    that is configured. *)
Lemma streamChat_relay_run (message : string) (context : option string) (w : World) :
  let turn := mkMessage user (Some (JStr message)) in
  let request := outbound_messages (messageHistory w ++ [turn]) message context in
  let issued := ModelRequest (llm_provider w) (model_of w) request true in
  LLM.streamChat H message relay context w =
  match stream_outcome H w request with
  | (tokens, None) =>
      (Returned tt,
       logs (issued :: delivered w (token_events tokens ++ [completion (text_of tokens)]))
         (set_messageHistory
            (messageHistory w
             ++ [turn; mkMessage assistant (Some (JStr (text_of tokens)))]) w))
  | (tokens, Some error) =>
      (Threw (rethrown w error),
       logs (issued :: delivered w (token_events tokens ++ reported error))
         (set_messageHistory (messageHistory w ++ [turn]) w))
  end.
Proof.
  intros turn request issued. subst issued. unfold model_of.
  rewrite LLM_streamChat_run. destruct (llm_provider w) eqn:Hprovider.
  - now apply ollama_streamChat_relay.
  - now apply claude_streamChat_relay.
Qed.

(** [processMessage] when the context is no apology: the model is asked. *)
Lemma processMessage_asks_model (message : string) (actionResult context : option string)
  (w w1 w2 : World) :
  extractAndExecuteActions H message w = (Returned actionResult, w1) ->
  getRelevantContext H message w1 = (Returned context, w2) ->
  is_error_context context = false ->
  let prompt := Some (fullContext actionResult context message) in
  let turn := mkMessage user (Some (JStr message)) in
  let request := outbound_messages (messageHistory w ++ [turn]) message prompt in
  let issued := ModelRequest (llm_provider w) (model_of w) request true in
  processMessage H message w =
  match stream_outcome H w2 request with
  | (tokens, None) =>
      (Returned tt,
       logs (issued :: delivered w (token_events tokens ++ [completion (text_of tokens)]))
         (set_messageHistory
            (messageHistory w
             ++ [turn; mkMessage assistant (Some (JStr (text_of tokens)))]) w2))
  | (tokens, Some error) =>
      (Returned tt,
       logs (issued
             :: delivered w (token_events tokens ++ reported error ++ [failed_to_process]))
         (set_messageHistory (messageHistory w ++ [turn]) w2))
  end.
Proof.
  intros Hact Hctx Hok prompt turn request issued.
  assert (tool_step w w1) as S1
    by (pose proof (extractAndExecuteActions_tool_step H message w) as S;
        now rewrite Hact in S).
  assert (tool_step w1 w2) as S2
    by (pose proof (getRelevantContext_tool_step H message w1) as S;
        now rewrite Hctx in S).
  pose proof (tool_step_frame _ _ (tool_step_trans _ _ _ S1 S2))
    as [Hwin [_ [Hprov [Hmodel [Hhist _]]]]].
  pose proof (streamChat_relay_run message prompt w2) as Run. cbv zeta in Run.
  unfold model_of, delivered in Run. rewrite Hwin, Hprov, Hmodel, Hhist in Run.
  fold (model_of w) in Run. fold turn request issued in Run.
  fold (delivered w) in Run.
  unfold processMessage, try_catch, bind. rewrite Hact, Hctx, Hok.
  change (Some (fullContext actionResult context message)) with prompt.
  rewrite Run.
  destruct (stream_outcome H w2 request) as [tokens [error|]]; [|reflexivity].
  rewrite webContents_send_run. fold failed_to_process.
  rewrite logs_logs, delivered_logs.
  change (delivered (set_messageHistory (messageHistory w ++ [turn]) w2))
    with (delivered w2).
  replace (delivered w2) with (delivered w) by (unfold delivered; now rewrite Hwin).
  unfold delivered. destruct (mainWindow w); simpl; [|reflexivity].
  now rewrite <- app_assoc.
Qed.

End RelayRuns.

(** X9. A stream that runs to its end is relayed in order.  When the
    context is no apology, [processMessage] sends one request to the model,
    then one [chat-token] event per token in the order of the stream, then
    one [chat-complete] event whose content is the concatenation of the
    tokens that convert to a string; the same text is the assistant turn
    added to the history after the user turn.  A token that does not
    convert (an object with a key [toString] of its own, which only the
    Ollama stream can carry) is relayed like the others, but is left out of
    the full response.  Without a window the events are dropped, the
    request and the history are the same. *)
Theorem stream_is_relayed_in_order (H : Host) (message : string)
  (actionResult context : option string) (tokens : list jsval) (w w1 w2 : World) :
  let prompt := Some (fullContext actionResult context message) in
  let turn := mkMessage user (Some (JStr message)) in
  let request := outbound_messages (messageHistory w ++ [turn]) message prompt in
  let issued := ModelRequest (llm_provider w) (model_of w) request true in
  extractAndExecuteActions H message w = (Returned actionResult, w1) ->
  getRelevantContext H message w1 = (Returned context, w2) ->
  is_error_context context = false ->
  stream_outcome H w2 request = (tokens, None) ->
  processMessage H message w =
  (Returned tt,
   logs (issued :: delivered w (token_events tokens ++ [completion (text_of tokens)]))
     (set_messageHistory
        (messageHistory w ++ [turn; mkMessage assistant (Some (JStr (text_of tokens)))])
        w2)).
Proof.
  intros prompt turn request issued Hact Hctx Hok Hstream.
  pose proof (processMessage_asks_model H message actionResult context w w1 w2
                Hact Hctx Hok) as Run.
  cbv zeta in Run. fold prompt turn request issued in Run.
  now rewrite Hstream in Run.
Qed.

Lemma stream_is_relayed_in_order_witness :
  processMessage host_streaming "hi" (fresh claude []) =
  (Returned tt,
   logs [ModelRequest claude ClaudeService.model
           [mkMessage user (Some (JStr "hi"));
            mkMessage user
              (Some (JStr (prompt_content "hi" (Some (fullContext None None "hi")))))]
           true;
         Send "chat-token" (assistant_reply (Some (JStr "Hel")));
         Send "chat-token" (assistant_reply (Some (JStr "lo")));
         Send "chat-complete" (assistant_reply (Some (JStr "Hello")))]
     (set_messageHistory
        [mkMessage user (Some (JStr "hi")); mkMessage assistant (Some (JStr "Hello"))]
        (fresh claude [])))
  /\ processMessage host_odd_token "hi" (fresh ollama []) =
     (Returned tt,
      logs [ModelRequest ollama "mistral"
              [mkMessage user (Some (JStr "hi"));
               mkMessage user
                 (Some (JStr (prompt_content "hi" (Some (fullContext None None "hi")))))]
              true;
            Send "chat-token" (assistant_reply (Some (JStr "Hi")));
            Send "chat-token" (assistant_reply (Some odd_token));
            Send "chat-token" (assistant_reply (Some (JStr "!")));
            Send "chat-complete" (assistant_reply (Some (JStr "Hi!")))]
        (set_messageHistory
           [mkMessage user (Some (JStr "hi")); mkMessage assistant (Some (JStr "Hi!"))]
           (fresh ollama []))).
Proof.
  split.
  - apply (@stream_is_relayed_in_order host_streaming "hi" None None
             [Some (JStr "Hel"); Some (JStr "lo")]
             (fresh claude []) (fresh claude []) (fresh claude []));
      vm_compute; reflexivity.
  - apply (@stream_is_relayed_in_order host_odd_token "hi" None None
             [Some (JStr "Hi"); Some odd_token; Some (JStr "!")]
             (fresh ollama []) (fresh ollama []) (fresh ollama []));
      vm_compute; reflexivity.
Defined.

(** X10. A failure of the model is reported twice.  When the request or
    the stream fails, the tokens already delivered stay delivered, the
    [onError] callback sends a [chat-error] event with the message of the
    error, the error is thrown again, and the [catch] block of
    [processMessage] sends a second [chat-error] event, "Failed to process
    message"; [processMessage] itself returns.  The user turn stays in the
    history, without an assistant turn. *)
Theorem model_failure_is_reported_twice (H : Host) (message : string)
  (actionResult context : option string) (tokens : list jsval) (e : JsError)
  (w w1 w2 : World) :
  let prompt := Some (fullContext actionResult context message) in
  let turn := mkMessage user (Some (JStr message)) in
  let request := outbound_messages (messageHistory w ++ [turn]) message prompt in
  let issued := ModelRequest (llm_provider w) (model_of w) request true in
  extractAndExecuteActions H message w = (Returned actionResult, w1) ->
  getRelevantContext H message w1 = (Returned context, w2) ->
  is_error_context context = false ->
  stream_outcome H w2 request = (tokens, Some (ThrowError e)) ->
  processMessage H message w =
  (Returned tt,
   logs (issued
         :: delivered w
              (token_events tokens
               ++ [Send "chat-error" [("error", Some (JStr (err_message e)))];
                   failed_to_process]))
     (set_messageHistory (messageHistory w ++ [turn]) w2)).
Proof.
  intros prompt turn request issued Hact Hctx Hok Hstream.
  pose proof (processMessage_asks_model H message actionResult context w w1 w2
                Hact Hctx Hok) as Run.
  cbv zeta in Run. fold prompt turn request issued in Run.
  now rewrite Hstream in Run.
Qed.

Lemma model_failure_is_reported_twice_witness :
  processMessage host_404 "hi" (fresh ollama []) =
  (Returned tt,
   logs [ModelRequest ollama "mistral"
           [mkMessage user (Some (JStr "hi"));
            mkMessage user
              (Some (JStr (prompt_content "hi" (Some (fullContext None None "hi")))))]
           true;
         Send "chat-error" [("error", Some (JStr "no reply"))];
         failed_to_process]
     (set_messageHistory [mkMessage user (Some (JStr "hi"))] (fresh ollama []))).
Proof.
  apply (@model_failure_is_reported_twice host_404 "hi" None None []
           (mkError "Error" "no reply" None)
           (fresh ollama []) (fresh ollama []) (fresh ollama []));
    vm_compute; reflexivity.
Defined.

(* ================================================================== *)
(** * The answer to a chat message *)
(* ================================================================== *)

Lemma set_messageHistory_same (w : World) : set_messageHistory (messageHistory w) w = w.
Proof. now destruct w. Qed.

Lemma chat_event_tokens (tokens : list jsval) :
  forallb chat_event (token_events tokens) = true.
Proof. induction tokens as [|t rest IH]; [reflexivity|exact IH]. Qed.

Lemma chat_event_reported (error : Thrown) : forallb chat_event (reported error) = true.
Proof. unfold reported. now destruct (message_of error). Qed.

(** Every run of [processMessage] returns, and consists of a tool-side
    part, then events of the conversation, the last of which ends the
    answer. *)
Lemma processMessage_shape (H : Host) (message : string) (w : World) :
  exists w2 history request es last,
    tool_step w w2
    /\ processMessage H message w =
       (Returned tt,
        logs (request ++ delivered w (es ++ [last])) (set_messageHistory history w2))
    /\ forallb chat_event (request ++ es) = true
    /\ terminal last = true.
Proof.
  pose proof (extractAndExecuteActions_tool_step H message w) as S1.
  destruct (extractAndExecuteActions H message w) as [[actionResult|t] w1] eqn:Hact;
    simpl in S1.
  - pose proof (getRelevantContext_tool_step H message w1) as S2.
    destruct (getRelevantContext_returns H message w1) as [context [w2 Hctx]].
    rewrite Hctx in S2. simpl in S2.
    pose proof (tool_step_trans _ _ _ S1 S2) as S.
    pose proof (tool_step_frame _ _ S) as [Hwin _].
    destruct (is_error_context context) eqn:Herr.
    + exists w2, (messageHistory w2), [],
        [Send "chat-token"
           (assistant_reply (Some (JStr match context with Some c => c | None => "" end)))],
        (Send "chat-complete"
           (assistant_reply (Some (JStr match context with Some c => c | None => "" end)))).
      repeat split; auto.
      rewrite set_messageHistory_same.
      unfold processMessage, try_catch, bind. rewrite Hact, Hctx, Herr.
      rewrite !webContents_send_run, logs_logs, delivered_logs.
      unfold delivered. rewrite Hwin. now destruct (mainWindow w).
    + pose proof (processMessage_asks_model H message actionResult context w w1 w2
                    Hact Hctx Herr) as Run.
      cbv zeta in Run.
      destruct (stream_outcome H w2 _) as [tokens [error|]].
      * eexists w2, _, [_], (token_events tokens ++ reported error)%list,
          failed_to_process.
        split; [exact S|]. split; [rewrite Run, <- app_assoc; reflexivity|].
        split; [|reflexivity]. cbn [app forallb chat_event andb].
        rewrite forallb_app, chat_event_tokens. apply chat_event_reported.
      * eexists w2, _, [_], (token_events tokens), (completion (text_of tokens)).
        split; [exact S|]. split; [rewrite Run; reflexivity|].
        split; [|reflexivity]. cbn [app forallb chat_event andb].
        apply chat_event_tokens.
  - pose proof (tool_step_frame _ _ S1) as [Hwin _].
    exists w1, (messageHistory w1), [], [], failed_to_process.
    repeat split; auto.
    rewrite set_messageHistory_same.
    unfold processMessage, try_catch, bind. rewrite Hact.
    rewrite webContents_send_run. unfold delivered. now rewrite Hwin.
Qed.

Lemma chat_event_not_on (channel : string) (e : Event) :
  tool_event e || chat_event e || terminal e = true ->
  String.eqb channel "chat-response" = true ->
  on_channel channel e = false.
Proof.
  intros He Hc. apply String.eqb_eq in Hc. subst channel.
  destruct e as [tool args|ms|c payload|backend model messages stream];
    try reflexivity.
  simpl in *. destruct (String.eqb c "chat-response") eqn:E; [|reflexivity].
  apply String.eqb_eq in E. subst c. discriminate.
Qed.

(** X11. Every chat message is answered, and never on [chat-response].
    The handler of [chat-message] always returns; its [catch] block is
    never entered, because [processMessage] catches everything itself, so
    the fallback reply on the [chat-response] channel is never sent: no
    event of the run is on that channel.  With a window open, the last
    event of the run is a [chat-complete] or a [chat-error] event. *)
Theorem chat_message_is_always_answered (H : Host) (message : string) (w : World) :
  on_chat_message H message w = processMessage H message w
  /\ fst (on_chat_message H message w) = Returned tt
  /\ exists es,
       trace (snd (on_chat_message H message w)) = (trace w ++ es)%list
       /\ forallb (fun e => negb (on_channel "chat-response" e)) es = true
       /\ (mainWindow w = true ->
           exists before last, es = (before ++ [last])%list /\ terminal last = true).
Proof.
  destruct (processMessage_shape H message w)
    as [w2 [history [request [es [last [S [Run [Hes Hlast]]]]]]]].
  pose proof (tool_step_frame _ _ S) as [_ [_ [_ [_ [_ [_ [tools [Htrace Htools]]]]]]]].
  assert (on_chat_message H message w = processMessage H message w) as E
    by (unfold on_chat_message, try_catch; now rewrite Run).
  rewrite E, Run. repeat split.
  exists (tools ++ request ++ delivered w (es ++ [last]))%list. split; [|split].
  - simpl. now rewrite Htrace, <- app_assoc.
  - rewrite forallb_app in Hes. apply andb_prop in Hes as [Hreq Hes].
    rewrite !forallb_app. apply andb_true_intro. split; [|apply andb_true_intro; split].
    + apply forallb_forall. intros e He. rewrite forallb_forall in Htools.
      rewrite (chat_event_not_on "chat-response" e); [reflexivity| |reflexivity].
      now rewrite (Htools e He).
    + apply forallb_forall. intros e He. rewrite forallb_forall in Hreq.
      rewrite (chat_event_not_on "chat-response" e); [reflexivity| |reflexivity].
      rewrite (Hreq e He). now rewrite orb_true_r.
    + unfold delivered. destruct (mainWindow w); [|reflexivity].
      rewrite forallb_app. apply andb_true_intro. split.
      * apply forallb_forall. intros e He. rewrite forallb_forall in Hes.
        rewrite (chat_event_not_on "chat-response" e); [reflexivity| |reflexivity].
        rewrite (Hes e He). now rewrite orb_true_r.
      * simpl. rewrite (chat_event_not_on "chat-response" last); [reflexivity| |reflexivity].
        rewrite Hlast. now rewrite orb_true_r.
  - intro Hopen. unfold delivered. rewrite Hopen.
    exists (tools ++ request ++ es)%list, last. split; [|exact Hlast].
    now rewrite <- !app_assoc.
Qed.

Lemma chat_message_is_always_answered_witness :
  exists es before last,
    trace (snd (on_chat_message host_404 "hi" (fresh ollama []))) = es
    /\ es = (before ++ [last])%list /\ terminal last = true.
Proof.
  destruct (@chat_message_is_always_answered host_404 "hi" (fresh ollama []))
    as [_ [_ [es [Htrace [_ Hlast]]]]].
  destruct (Hlast eq_refl) as [before [last [E T]]].
  exists es, before, last. repeat split; assumption.
Defined.

(* ================================================================== *)
(** * Further properties of the language-model port *)
(* ================================================================== *)

Lemma history_after_turns (history : list LLMMessage) (turn reply : LLMMessage)
  (es : list Event) (w : World) :
  set_messageHistory
    (messageHistory (logs es (set_messageHistory (history ++ [turn]) w)) ++ [reply])
    (logs es (set_messageHistory (history ++ [turn]) w))
  = logs es (set_messageHistory (history ++ [turn; reply]) w).
Proof. unfold logs, set_messageHistory. simpl. now rewrite <- app_assoc. Qed.

Section ChatFacts.
Variable H : Host.

Lemma claude_chat_run (message : string) (context : option string) (w : World) :
  let turn := mkMessage user (Some (JStr message)) in
  let request := outbound_messages (messageHistory w ++ [turn]) message context in
  let issued := ModelRequest claude ClaudeService.model request false in
  ClaudeService.chat H message context w =
  match messages_create H (model_requests (trace w)) request with
  | Returned (first :: _) =>
      let reply := if String.eqb (type first) "text"
                   then option_map JStr (text first)
                   else Some (JStr "Unable to process response") in
      (Returned reply,
       logs [issued]
         (set_messageHistory (messageHistory w ++ [turn; mkMessage assistant reply]) w))
  | Returned [] =>
      (Threw (TypeError "Cannot read properties of undefined (reading 'type')"),
       logs [issued] (set_messageHistory (messageHistory w ++ [turn]) w))
  | Threw t =>
      (Threw t, logs [issued] (set_messageHistory (messageHistory w ++ [turn]) w))
  end.
Proof.
  intros turn request issued.
  unfold ClaudeService.chat, try_catch, bind, push_history, update, read,
    ClaudeService.create, ret, throw.
  cbv beta iota. cbn [messageHistory set_messageHistory trace].
  fold turn. fold request. fold issued. rewrite !log_is_logs.
  destruct (messages_create H (model_requests (trace w)) request) as [[|first rest]|t];
    try reflexivity.
  cbv zeta. now rewrite history_after_turns.
Qed.

Lemma ollama_chat_run (message : string) (context : option string) (w : World) :
  let turn := mkMessage user (Some (JStr message)) in
  let request := outbound_messages (messageHistory w ++ [turn]) message context in
  let issued := ModelRequest ollama (llm_model w) request false in
  OllamaService.chat H message context w =
  match
    (let? response := fetch H (model_requests (trace w)) (llm_model w) request false in
     if ok response then
       let? data := body_json response in
       let? m := Js.get (Some data) "message" in Js.get m "content"
     else Threw (new_Error ("Ollama API error: " ++ statusText response)))
  with
  | Returned reply =>
      (Returned reply,
       logs [issued]
         (set_messageHistory (messageHistory w ++ [turn; mkMessage assistant reply]) w))
  | Threw t =>
      (Threw t, logs [issued] (set_messageHistory (messageHistory w ++ [turn]) w))
  end.
Proof.
  intros turn request issued.
  unfold OllamaService.chat, try_catch, bind, push_history, update, read,
    OllamaService.fetch_chat, OllamaService.check_ok, lift, ret, throw.
  cbv beta iota. cbn [messageHistory set_messageHistory trace llm_model].
  fold turn. fold request. fold issued. rewrite !log_is_logs.
  destruct (fetch H (model_requests (trace w)) (llm_model w) request false)
    as [response|t]; cbn [obind]; [|reflexivity].
  destruct (ok response); cbn [negb]; cbv beta iota; [|reflexivity].
  destruct (body_json response) as [data|t]; cbn [obind]; [|reflexivity].
  destruct (Js.get (Some data) "message") as [m|t]; cbn [obind]; [|reflexivity].
  destruct (Js.get m "content") as [reply|t]; [|reflexivity].
  now rewrite history_after_turns.
Qed.

End ChatFacts.

(** X12. History of a non-streaming call.  For either service, [chat]
    sends one request, which carries the user turn already, and the history
    afterwards tells what happened: when [chat] returns a reply, the history
    is the old one, the user turn and an assistant turn holding exactly that
    reply; when it throws, the history is the old one and the user turn
    only.  A Claude reply whose first block is not text is not an error: the
    placeholder "Unable to process response" is returned and recorded as the
    assistant turn; a Claude reply without any block is a TypeError; an
    Ollama response that is not [ok] is the error "Ollama API error: "
    followed by the status text. *)
Theorem chat_history (H : Host) (message : string) (context : option string)
  (w : World) :
  let turn := mkMessage user (Some (JStr message)) in
  let request := outbound_messages (messageHistory w ++ [turn]) message context in
  let issued := ModelRequest (llm_provider w) (model_of w) request false in
  (exists o,
     LLM.chat H message context w =
     (o, logs [issued]
           (set_messageHistory
              (messageHistory w
               ++ turn :: match o with
                          | Returned reply => [mkMessage assistant reply]
                          | Threw _ => []
                          end) w)))
  /\ (llm_provider w = claude ->
      forall first rest,
        messages_create H (model_requests (trace w)) request = Returned (first :: rest) ->
        String.eqb (type first) "text" = false ->
        fst (LLM.chat H message context w)
        = Returned (Some (JStr "Unable to process response")))
  /\ (llm_provider w = claude ->
      messages_create H (model_requests (trace w)) request = Returned [] ->
      exists e, fst (LLM.chat H message context w) = Threw (ThrowError e)
                /\ err_name e = "TypeError")
  /\ (llm_provider w = ollama ->
      forall response,
        fetch H (model_requests (trace w)) (llm_model w) request false
          = Returned response ->
        ok response = false ->
        fst (LLM.chat H message context w)
        = Threw (new_Error ("Ollama API error: " ++ statusText response))).
Proof.
  intros turn request issued. subst issued. unfold model_of.
  rewrite LLM_chat_run. split; [|split; [|split]].
  - destruct (llm_provider w).
    + rewrite ollama_chat_run. fold turn request.
      match goal with |- context [match ?o with Returned _ => _ | Threw _ => _ end] =>
        destruct o as [reply|t] end.
      * now exists (Returned reply).
      * now exists (Threw t).
    + rewrite claude_chat_run. fold turn request.
      destruct (messages_create H (model_requests (trace w)) request)
        as [[|first rest]|t].
      * now eexists (Threw _).
      * now eexists (Returned _).
      * now exists (Threw t).
  - intros -> first rest Hreply Htype.
    rewrite claude_chat_run. fold turn request. rewrite Hreply. cbv zeta.
    now rewrite Htype.
  - intros -> Hreply.
    rewrite claude_chat_run. fold turn request. rewrite Hreply.
    now eexists.
  - intros -> response Hfetch Hok.
    rewrite ollama_chat_run. fold turn request. rewrite Hfetch. cbn [obind].
    now rewrite Hok.
Qed.

Lemma streamChat_relay_trace (H : Host) (message : string) (context : option string)
  (w : World) :
  exists es,
    trace (snd (LLM.streamChat H message relay context w))
    = (trace w
       ++ ModelRequest (llm_provider w) (model_of w)
            (outbound_messages
               (messageHistory w ++ [mkMessage user (Some (JStr message))])
               message context) true :: es)%list.
Proof.
  rewrite streamChat_relay_run.
  destruct (stream_outcome H w _) as [tokens [error|]]; eexists; reflexivity.
Qed.

(** X13. A failed turn is sent again.  When a streamed request fails, its
    user turn stays in the history, so the request of the next message
    carries it: the old history, the user turn that failed, the new user
    turn, and the new prompt, that is three user elements in a row after
    the old history. *)
Theorem failed_turn_is_sent_again (H : Host) (message1 message2 : string)
  (context1 context2 : option string) (tokens : list jsval) (error : Thrown)
  (w : World) :
  stream_outcome H w
    (outbound_messages (messageHistory w ++ [mkMessage user (Some (JStr message1))])
       message1 context1) = (tokens, Some error) ->
  let w1 := snd (LLM.streamChat H message1 relay context1 w) in
  messageHistory w1 = (messageHistory w ++ [mkMessage user (Some (JStr message1))])%list
  /\ exists es,
       trace (snd (LLM.streamChat H message2 relay context2 w1))
       = (trace w1
          ++ ModelRequest (llm_provider w) (model_of w)
               (messageHistory w
                ++ [mkMessage user (Some (JStr message1));
                    mkMessage user (Some (JStr message2));
                    mkMessage user (Some (JStr (prompt_content message2 context2)))])
               true :: es)%list.
Proof.
  intros Hfail w1.
  assert (w1 = logs (ModelRequest (llm_provider w) (model_of w)
                       (outbound_messages
                          (messageHistory w ++ [mkMessage user (Some (JStr message1))])
                          message1 context1) true
                     :: delivered w (token_events tokens ++ reported error))
                 (set_messageHistory
                    (messageHistory w ++ [mkMessage user (Some (JStr message1))]) w))
    as E by (unfold w1; now rewrite streamChat_relay_run, Hfail).
  split; [now rewrite E|].
  destruct (streamChat_relay_trace H message2 context2 w1) as [es Htrace].
  exists es. rewrite Htrace. do 2 f_equal.
  rewrite outbound_messages_twice, E. cbn [messageHistory logs set_messageHistory].
  unfold model_of. cbn [llm_provider llm_model logs set_messageHistory].
  now rewrite <- app_assoc.
Qed.

Lemma failed_turn_is_sent_again_witness :
  exists es,
    trace (snd (LLM.streamChat host_404 "and now?" relay None
                  (snd (LLM.streamChat host_404 "hi" relay None (fresh ollama [])))))
    = (trace (snd (LLM.streamChat host_404 "hi" relay None (fresh ollama [])))
       ++ ModelRequest ollama "mistral"
            [mkMessage user (Some (JStr "hi")); mkMessage user (Some (JStr "and now?"));
             mkMessage user (Some (JStr "and now?"))] true :: es)%list.
Proof.
  apply (proj2 (@failed_turn_is_sent_again host_404 "hi" "and now?" None None []
                  (new_Error "no reply") (fresh ollama []) eq_refl)).
Defined.

(** X14. After a reset nothing of the earlier conversation is sent.  The
    first request after [clearChatHistory], streamed or not, carries the
    new user turn and the new prompt and no other element, whatever the
    history was before the reset. *)
Theorem request_after_reset (H : Host) (message : string) (context : option string)
  (w : World) :
  let request :=
    [mkMessage user (Some (JStr message));
     mkMessage user (Some (JStr (prompt_content message context)))] in
  let w0 := snd (clearChatHistory H w) in
  trace (snd (LLM.chat H message context w0))
  = (trace w ++ [ModelRequest (llm_provider w) (model_of w) request false])%list
  /\ exists es,
       trace (snd (LLM.streamChat H message relay context w0))
       = (trace w ++ ModelRequest (llm_provider w) (model_of w) request true :: es)%list.
Proof.
  intros request w0.
  assert (w0 = set_messageHistory [] w) as ->
    by (unfold w0, clearChatHistory, LLM.clearHistory; now destruct (llm_provider w)).
  split.
  - rewrite LLM_chat_run. cbn [llm_provider set_messageHistory]. unfold model_of.
    destruct (llm_provider w).
    + now rewrite ollama_chat_trace.
    + now rewrite claude_chat_trace.
  - destruct (streamChat_relay_trace H message context (set_messageHistory [] w))
      as [es Htrace].
    exists es. now rewrite Htrace.
Qed.

(** X15. Lines that are not JSON are skipped without a word.  When no
    line of an Ollama stream parses, as happens when every JSON object
    arrives split over two reads, [streamChat] does not fail: no token is
    relayed, [chat-complete] is sent with an empty content, and an empty
    assistant turn is added to the history. *)
Theorem unparseable_stream_completes_empty (H : Host) (message : string)
  (context : option string) (response : FetchResponse) (reads : list string)
  (w : World) :
  let turn := mkMessage user (Some (JStr message)) in
  let request := outbound_messages (messageHistory w ++ [turn]) message context in
  llm_provider w = ollama ->
  fetch H (model_requests (trace w)) (llm_model w) request true = Returned response ->
  ok response = true ->
  body_reader response = Some (reads, None) ->
  unparseable H reads ->
  LLM.streamChat H message relay context w =
  (Returned tt,
   logs (ModelRequest ollama (llm_model w) request true :: delivered w [completion ""])
     (set_messageHistory
        (messageHistory w ++ [turn; mkMessage assistant (Some (JStr ""))]) w)).
Proof.
  intros turn request Hprovider Hfetch Hok Hreader Hnone.
  assert (ollama_tokens H reads = []) as Htokens.
  { clear Hreader. induction reads as [|chunk rest IH]; [reflexivity|].
    cbn [ollama_tokens]. rewrite IH by (intros c l Hc; apply Hnone; now right).
    rewrite app_nil_r.
    assert (forall line, In line (lines_of chunk) -> JSON_parse H line = None) as Hchunk
      by (intros line; apply Hnone; now left).
    induction (lines_of chunk) as [|line lines IHl]; [reflexivity|].
    cbn [lines_tokens]. unfold line_token.
    rewrite (Hchunk line (or_introl eq_refl)).
    apply IHl. intros l Hl. apply Hchunk. now right. }
  rewrite streamChat_relay_run. fold turn request.
  unfold stream_outcome, model_of. rewrite Hprovider, Hfetch, Hok, Hreader, Htokens.
  reflexivity.
Qed.

Lemma unparseable_stream_completes_empty_witness :
  LLM.streamChat host_split_line "hi" relay None (fresh ollama []) =
  (Returned tt,
   logs [ModelRequest ollama "mistral"
           [mkMessage user (Some (JStr "hi")); mkMessage user (Some (JStr "hi"))] true;
         completion ""]
     (set_messageHistory
        [mkMessage user (Some (JStr "hi")); mkMessage assistant (Some (JStr ""))]
        (fresh ollama []))).
Proof.
  apply (@unparseable_stream_completes_empty host_split_line "hi" None
           (mkResponse true "OK" unreached
              (Some (["{" ++ dquote ++ "message" ++ dquote ++ ":{";
                      dquote ++ "content" ++ dquote ++ ":" ++ dquote ++ "Hi"
                      ++ dquote ++ "}}"], None)))
           ["{" ++ dquote ++ "message" ++ dquote ++ ":{";
            dquote ++ "content" ++ dquote ++ ":" ++ dquote ++ "Hi" ++ dquote ++ "}}"]
           (fresh ollama [])); try reflexivity.
  intros chunk line [<-|[<-|[]]]; vm_compute; intros [<-|[]]; reflexivity.
Defined.

(** X16. The two services differ on a callback that throws.  In the
    Ollama service an exception of [onToken] is caught with the parse
    errors of the line: the stream goes on, and the token is missing from
    the full response; reading the lines never throws, whatever the
    callbacks do.  In the Claude service the exception ends the stream. *)
Theorem callback_exceptions (H : Host) (callbacks : StreamCallbacks) :
  (forall lines fullResponse w,
     exists fullResponse' w',
       OllamaService.consume_lines H callbacks lines fullResponse w
       = (Returned fullResponse', w'))
  /\ (forall line token fullResponse w t w',
        line_token H line = Some token ->
        onToken callbacks token w = (Threw t, w') ->
        OllamaService.consume_line H callbacks line fullResponse w
        = (Returned fullResponse, w'))
  /\ (forall text rest failure fullResponse w t w',
        onToken callbacks (Some (JStr text)) w = (Threw t, w') ->
        ClaudeService.consume callbacks (content_block_delta (text_delta text) :: rest)
          failure fullResponse w
        = (Threw t, w')).
Proof.
  split; [|split].
  - induction lines as [|line rest IH]; intros fullResponse w.
    + now exists fullResponse, w.
    + cbn [OllamaService.consume_lines]. unfold bind.
      assert (exists r w1,
                 OllamaService.consume_line H callbacks line fullResponse w
                 = (Returned r, w1)) as [r [w1 ->]].
      { unfold OllamaService.consume_line, try_catch.
        match goal with |- context [match ?m w with _ => _ end] =>
          destruct (m w) as [[r|t] w1] end; do 2 eexists; reflexivity. }
      apply IH.
  - intros line token fullResponse w t w' Hline Htoken.
    unfold line_token in Hline.
    unfold OllamaService.consume_line, try_catch, bind, lift.
    destruct (JSON_parse H line) as [data|]; [|discriminate].
    destruct (Js.get (Some data) "message") as [message|t']; [|discriminate].
    destruct (Js.truthy (Js.get_opt message "content")); [|discriminate].
    injection Hline as <-. now rewrite Htoken.
  - intros text rest failure fullResponse w t w' Htoken.
    cbn [ClaudeService.consume]. unfold bind. now rewrite Htoken.
Qed.

Lemma callback_exceptions_witness :
  OllamaService.consume_line host_one_token throwing_callbacks "token" "so far"
    (fresh ollama [])
  = (Returned "so far", fresh ollama [])
  /\ ClaudeService.consume throwing_callbacks
       [content_block_delta (text_delta "Hel"); content_block_delta (text_delta "lo")]
       None "" (fresh claude [])
     = (Threw (new_Error "renderer gone"), fresh claude []).
Proof.
  split.
  - apply (proj1 (proj2 (@callback_exceptions host_one_token throwing_callbacks))
             "token" (Some (JStr "Hi")) "so far" (fresh ollama [])
             (new_Error "renderer gone") (fresh ollama [])); reflexivity.
  - apply (proj2 (proj2 (@callback_exceptions host_one_token throwing_callbacks))).
    reflexivity.
Defined.

(* ================================================================== *)
(** * Further properties of the formatters and of intent matching *)
(* ================================================================== *)

Lemma returns_obind {A B : Type} (o : Outcome A) (k : A -> Outcome B) :
  returns (obind o k) = match o with
                        | Returned a => returns (k a)
                        | Threw _ => false
                        end.
Proof. now destruct o. Qed.

Lemma returns_step {A B : Type} (o : Outcome A) (k : A -> Outcome B) (b c : bool) :
  returns o = b -> (forall a, returns (k a) = c) -> returns (obind o k) = b && c.
Proof. intros <- Hk. destruct o as [a|t]; [apply Hk|reflexivity]. Qed.

Lemma returns_last {A B : Type} (o : Outcome A) (k : A -> Outcome B) (b : bool) :
  returns o = b -> (forall a, returns (k a) = true) -> returns (obind o k) = b.
Proof. intros <- Hk. destruct o as [a|t]; [apply Hk|reflexivity]. Qed.

Lemma falsy_convertible (v : jsval) : Js.truthy v = false -> convertible v = true.
Proof. destruct v as [[|b|n|s|items|fields]|]; try reflexivity; discriminate. Qed.

Lemma returns_shown (v : jsval) : returns (Format.shown v) = convertible v.
Proof. unfold Format.shown. rewrite to_string_spec. now destruct (convertible v). Qed.

Lemma returns_when (v : jsval) (before after : string) :
  returns (Format.when v before after) = convertible v.
Proof.
  unfold Format.when. destruct (Js.truthy v) eqn:Ht.
  - rewrite returns_obind, <- returns_shown. now destruct (Format.shown v).
  - symmetry. now apply falsy_convertible.
Qed.

Lemma joined_when_length_returns (callee : string) (v : jsval) (label suffix : string) :
  returns (Format.joined_when_length callee v label suffix) = joinable v.
Proof.
  unfold Format.joined_when_length, joinable.
  destruct (Js.truthy (Js.get_opt v "length")); [|reflexivity].
  destruct v as [[| | | |items|]|]; try reflexivity.
  cbn [JsCall.join negb orb]. unfold Js.join.
  rewrite elements_to_strings_spec. now destruct (forallb convertible_json items).
Qed.

Lemma returns_split_pop (callee : string) (v : jsval) (sep : string) :
  returns (JsCall.split_pop callee v sep)
  = match v with Some (JStr _) => true | _ => false end.
Proof. destruct v as [[| | | | |]|]; reflexivity. Qed.

Lemma get_readable (a : json) (k : string) :
  readable a = true -> Js.get (Some a) k = Returned (Js.get_opt (Some a) k).
Proof. destruct a; try discriminate; reflexivity. Qed.

Lemma map_from_returns {A : Type} (f : json -> nat -> Outcome A) (p : json -> bool) :
  (forall a i, returns (f a i) = p a) ->
  forall l i, returns (JsCall.map_from f i l) = forallb p l.
Proof.
  intros Hf. induction l as [|a rest IH]; intro i; [reflexivity|].
  cbn [JsCall.map_from forallb]. rewrite returns_obind, <- (Hf a i).
  destruct (f a i); [|reflexivity].
  rewrite returns_obind, <- (IH (S i)).
  now destruct (JsCall.map_from f (S i) rest).
Qed.

(** One substitution of a template after the other. *)
Ltac returns_steps :=
  repeat first
    [ apply returns_step;
      [first [apply returns_shown | apply returns_when
             | apply joined_when_length_returns | apply returns_split_pop]
      |intro]
    | apply returns_last;
      [first [apply returns_shown | apply returns_when
             | apply joined_when_length_returns | apply returns_split_pop]
      |intro; reflexivity] ].

Lemma format_artwork_returns (a : json) (index : nat) :
  returns (Format.format_artwork a index) = listed_well_formed a.
Proof.
  unfold listed_well_formed. cbv zeta.
  destruct (readable a) eqn:Hr; [|now destruct a].
  unfold Format.format_artwork. cbv zeta.
  rewrite !(get_readable a _ Hr). cbn [obind andb].
  rewrite <- !andb_assoc. returns_steps.
Qed.

Lemma timeline_entry_returns (item : json) (index : nat) :
  returns (Format.timeline_entry item index) = dated_well_formed item.
Proof.
  unfold dated_well_formed.
  destruct (readable item) eqn:Hr; [|now destruct item].
  unfold Format.timeline_entry.
  rewrite !(get_readable item _ Hr). cbn [obind andb]. returns_steps.
Qed.

Lemma formatArtworkDetails_returns (result : json) :
  returns (Format.formatArtworkDetails result) = details_well_formed result.
Proof.
  unfold details_well_formed, Format.formatArtworkDetails. cbv zeta.
  destruct (Js.truthy (Some result)) eqn:Ht; cbn [negb].
  - assert (readable result = true) as Hr by now destruct result.
    rewrite !(get_readable result _ Hr). cbn [obind].
    rewrite <- !andb_assoc.
    destruct (Js.truthy (Js.get_opt (Some result) "principalOrFirstMaker"));
      cbn [obind]; returns_steps.
  - destruct result as [|[|]|n|s|items|fields]; try discriminate; reflexivity.
Qed.

Lemma formatArtistTimeline_returns (result : json) :
  returns (Format.formatArtistTimeline result)
  = match result with
    | JArr items => forallb dated_well_formed items
    | _ => true
    end.
Proof.
  destruct result as [| | | |items|]; try reflexivity.
  unfold Format.formatArtistTimeline.
  apply returns_last; [|reflexivity].
  apply map_from_returns, timeline_entry_returns.
Qed.

Lemma formatArtworkSearchResult_returns (result : json) :
  returns (Format.formatArtworkSearchResult result) = search_well_formed result.
Proof.
  unfold Format.formatArtworkSearchResult, search_well_formed.
  destruct (Js.truthy (Some result)) eqn:Ht; cbn [negb].
  - assert (readable result = true) as Hr by now destruct result.
    rewrite (get_readable result _ Hr). cbn [obind].
    destruct (Js.get_opt (Some result) "artworks") as [[| | | |[|first rest]|]|];
      try reflexivity.
    destruct (readable first) eqn:Hf.
    + rewrite (get_readable first _ Hf). cbn [obind].
      apply returns_step; [apply returns_shown|intro].
      apply returns_last; [|reflexivity].
      apply map_from_returns, format_artwork_returns.
    + destruct first; try discriminate. reflexivity.
  - destruct result as [|[|]|n|s|items|fields]; try discriminate; reflexivity.
Qed.

(** X17. Exactly when the formatters throw.  Each formatter returns on
    the results it can render and throws a TypeError on all others, which
    the context assembler turns into the API apology.
    [formatArtworkDetails] can render a record when the values it prints
    ([title], the maker or the artist, [longTitle], [description], the URL
    of the image and of the web page) convert to a string, and [materials]
    and [dimensions] have a falsy [length] or are arrays of values that
    convert; a value does not convert when it is an object with a key
    [toString] of its own, or an array that holds one.
    [formatArtistTimeline] can render an array when no entry is [null] and
    every [date] and [title] converts.  [formatArtworkSearchResult] can
    render a non-empty [artworks] array when the maker of the first entry
    converts and every entry is not [null], has a string as [longTitle], a
    [title], an [objectNumber] and an image URL that convert, and
    [productionPlaces] that can be joined. *)
Theorem formatters_throw_exactly_when (result : json) :
  returns (Format.formatArtworkDetails result) = details_well_formed result
  /\ returns (Format.formatArtistTimeline result)
     = match result with
       | JArr items => forallb dated_well_formed items
       | _ => true
       end
  /\ returns (Format.formatArtworkSearchResult result) = search_well_formed result.
Proof.
  split; [apply formatArtworkDetails_returns|split].
  - apply formatArtistTimeline_returns.
  - apply formatArtworkSearchResult_returns.
Qed.

Lemma formatters_throw_exactly_when_witness :
  returns (Format.formatArtworkDetails odd_artist) = false
  /\ returns (Format.formatArtistTimeline (JArr [JObj [("date", JObj [("toString", JNum 1)])]]))
     = false
  /\ returns (Format.formatArtworkSearchResult untitled_result) = false
  /\ returns (Format.formatArtworkDetails night_watch_details) = true.
Proof.
  split; [|split; [|split]].
  - rewrite (proj1 (formatters_throw_exactly_when odd_artist)). reflexivity.
  - rewrite (proj1 (proj2 (formatters_throw_exactly_when
                             (JArr [JObj [("date", JObj [("toString", JNum 1)])]])))).
    reflexivity.
  - rewrite (proj2 (proj2 (formatters_throw_exactly_when untitled_result))). reflexivity.
  - rewrite (proj1 (formatters_throw_exactly_when night_watch_details)). reflexivity.
Defined.

Lemma own_property_In (key : string) (triggers : list string) :
  forall table,
    Intent.own_property key table = Some triggers -> In key (List.map fst table).
Proof.
  induction table as [|[k v] rest IH]; [discriminate|].
  simpl. destruct (String.eqb key k) eqn:E.
  - intros _. left. symmetry. now apply String.eqb_eq.
  - intro Hrest. right. now apply IH.
Qed.

Lemma matched_is_known (message : string) (tool : MCPTool) :
  Intent.matchesToolIntent message tool = Returned true ->
  In (name tool) trigger_names.
Proof.
  unfold Intent.matchesToolIntent, trigger_names.
  destruct (Intent.own_property (name tool) Intent.toolTriggers) as [triggers|] eqn:E.
  - intros _. exact (own_property_In _ _ _ E).
  - destruct (Intent.inherited (name tool)); discriminate.
Qed.

Lemma known_has_arguments (message : string) (tool : MCPTool) :
  In (name tool) trigger_names -> Intent.extractToolArgs message tool <> [].
Proof.
  intro Hin. unfold Intent.extractToolArgs.
  destruct (String.eqb (name tool) "search_artwork") eqn:E1.
  { now destruct (Regex.exec Intent.re_object_number _) as [[o g]|]. }
  destruct (String.eqb (name tool) "get_artwork_details") eqn:E2; [discriminate|].
  destruct (String.eqb (name tool) "get_artwork_image") eqn:E3; [discriminate|].
  destruct (String.eqb (name tool) "get_user_sets") eqn:E4; [discriminate|].
  destruct (String.eqb (name tool) "get_user_set_details") eqn:E5; [discriminate|].
  destruct (String.eqb (name tool) "get_artist_timeline") eqn:E6; [discriminate|].
  destruct (String.eqb (name tool) "open_image_in_browser") eqn:E7; [discriminate|].
  exfalso. unfold trigger_names in Hin. simpl in Hin.
  destruct Hin as [E|[E|[E|[E|[E|[E|[E|[]]]]]]]]; rewrite <- E in *; discriminate.
Qed.

Lemma in_attempts (tool tool' : string) (args args' : jsobject) (k : nat) :
  In (ToolRequest tool' args') (attempts tool args k) -> tool' = tool /\ args' = args.
Proof.
  unfold attempts. induction k as [|k IH]; simpl.
  - intros [[= <- <-]|[]]. now split.
  - intros [[= <- <-]|[E|Hin]]; [now split|discriminate|now apply IH].
Qed.

(** X18. Only tools of the trigger table are ever called for a chat
    message.  Every tool request that [getRelevantContext] makes is for a
    tool of the registry whose name is one of the seven names of the trigger
    table, and carries at least one argument: a tool the provider
    advertises under any other name is never called, and the empty argument
    object of the [default] branch of [extractToolArgs] is never sent. *)
Theorem context_assembler_calls_known_tools_only (H : Host) (message : string)
  (w : World) :
  exists es,
    snd (getRelevantContext H message w) = logs es w
    /\ forall tool args,
         In (ToolRequest tool args) es ->
         In tool trigger_names
         /\ args <> []
         /\ exists t, In t (availableTools w) /\ name t = tool
                      /\ args = Intent.extractToolArgs message t.
Proof.
  rewrite getRelevantContext_run.
  destruct (first_matching_effects H message w (availableTools w))
    as [[o [Hrun _]]|[t [context [k [Hin [Hm [Hk Hrun]]]]]]]; rewrite Hrun.
  - exists []. split; [destruct o; now rewrite logs_nil|]. intros tool args [].
  - exists (attempts (name t) (Intent.extractToolArgs message t) k).
    split; [reflexivity|]. intros tool args Hreq.
    apply in_attempts in Hreq as [-> ->].
    pose proof (matched_is_known message t Hm) as Hknown.
    split; [exact Hknown|]. split; [now apply known_has_arguments|].
    now exists t.
Qed.

Lemma context_assembler_calls_known_tools_only_witness :
  exists es,
    snd (getRelevantContext host_404 "search favourites"
           (fresh ollama [favourites_tool; search_tool]))
    = logs es (fresh ollama [favourites_tool; search_tool])
    /\ forall tool args,
         In (ToolRequest tool args) es -> In tool trigger_names /\ args <> [].
Proof.
  destruct (@context_assembler_calls_known_tools_only host_404 "search favourites"
              (fresh ollama [favourites_tool; search_tool])) as [es [Hrun Hall]].
  exists es. split; [exact Hrun|].
  intros tool args Hin. destruct (Hall tool args Hin) as [Hk [Ha _]]. now split.
Defined.

(** X19. A reply in plain words is lost on the formatted tools.  When the
    text of a reply is not JSON, [callTool] returns it as a string; the
    formatter of [search_artwork] then renders "No artworks found", the
    formatter of [get_artist_timeline] "No timeline available", and the
    formatter of [get_artwork_details] the details template with every
    field [undefined]: none of the three contexts depends on the text. *)
Theorem plain_text_reply_is_lost (H : Host) (response : CallToolResult)
  (items : list ContentBlock) (tool : MCPTool) :
  result_content response = Some items ->
  JsString.is_empty (textContent_of items) = false ->
  JSON_parse H (textContent_of items) = None ->
  extract_text_content H response = Some (JStr (textContent_of items))
  /\ (name tool = "search_artwork" ->
      format_result H tool (JStr (textContent_of items)) = Returned "No artworks found")
  /\ (name tool = "get_artist_timeline" ->
      format_result H tool (JStr (textContent_of items))
      = Returned "No timeline available")
  /\ (name tool = "get_artwork_details" ->
      format_result H tool (JStr (textContent_of items)) = Returned details_of_nothing).
Proof.
  intros Hitems Htext Hparse. split; [|split; [|split]].
  - unfold extract_text_content. now rewrite Hitems, Htext, Hparse.
  - intros Hname. unfold format_result. rewrite Hname.
    destruct (textContent_of items); [discriminate|reflexivity].
  - intros Hname. unfold format_result. now rewrite Hname.
  - intros Hname. unfold format_result. rewrite Hname.
    destruct (textContent_of items); [discriminate|reflexivity].
Qed.

Lemma plain_text_reply_is_lost_witness :
  getRelevantContext host_plain_words "find the night watch" (fresh ollama [search_tool])
  = (Returned (Some "No artworks found"),
     logs [ToolRequest "search_artwork"
             (Intent.extractToolArgs "find the night watch" search_tool)]
       (fresh ollama [search_tool]))
  /\ format_result host_plain_words search_tool
       (JStr "The Night Watch hangs in the Gallery of Honour.")
     = Returned "No artworks found".
Proof.
  split; [vm_compute; reflexivity|].
  apply (proj1 (proj2 (@plain_text_reply_is_lost host_plain_words
                         (mkResult (Some [mkBlock "text"
                            (Some "The Night Watch hangs in the Gallery of Honour.")]))
                         [mkBlock "text"
                            (Some "The Night Watch hangs in the Gallery of Honour.")]
                         search_tool eq_refl eq_refl eq_refl))).
  reflexivity.
Defined.

(* ================================================================== *)
(** * The arguments extracted from a message *)
(* ================================================================== *)

Lemma forallb_firstn {A : Type} (q : A -> bool) (n : nat) (l : list A) :
  forallb q l = true -> forallb q (firstn n l) = true.
Proof.
  revert n. induction l as [|a l IH]; intros [|n] Hl; try reflexivity.
  simpl in *. apply andb_prop in Hl as [-> Hl]. now apply IH.
Qed.

Lemma forallb_skipn {A : Type} (q : A -> bool) (n : nat) (l : list A) :
  forallb q l = true -> forallb q (skipn n l) = true.
Proof.
  revert n. induction l as [|a l IH]; intros [|n] Hl; try reflexivity; [exact Hl|].
  simpl in *. apply andb_prop in Hl as [_ Hl]. now apply IH.
Qed.

(** A global replacement keeps a property that all characters of the input
    and of the replacement have. *)
Lemma replace_from_forallb (q : ascii -> bool) (r : Regex.re) (rep : list ascii) :
  forallb q rep = true ->
  forall fuel pos s,
    forallb q s = true -> forallb q (Regex.replace_from fuel r rep pos s) = true.
Proof.
  intro Hrep. induction fuel as [|fuel IH]; intros pos s Hs; [exact Hs|].
  simpl. destruct (Regex.search r pos s) as [m|]; [|exact Hs].
  destruct (Nat.eqb (Regex.m_end m) (Regex.m_start m)).
  - pose proof (forallb_skipn q (Regex.m_start m - pos) s Hs) as Hk.
    destruct (skipn (Regex.m_start m - pos) s) as [|a rest].
    + rewrite forallb_app, forallb_firstn by exact Hs. exact Hrep.
    + simpl in Hk. apply andb_prop in Hk as [Ha Hrest].
      rewrite forallb_app, forallb_firstn by exact Hs.
      rewrite forallb_app, Hrep. simpl. rewrite Ha. now apply IH.
  - rewrite forallb_app, forallb_firstn by exact Hs.
    rewrite forallb_app, Hrep. apply IH. now apply forallb_skipn.
Qed.

Lemma search_chr_cons (p : ascii -> bool) (pos : nat) (a : ascii) (s : list ascii) :
  Regex.search (Regex.Chr p) pos (a :: s)
  = if p a
    then Some {| Regex.m_start := pos; Regex.m_end := S pos; Regex.m_caps := [] |}
    else Regex.search (Regex.Chr p) (S pos) s.
Proof. simpl. now destruct (p a). Qed.

(** The first match of a character class: the characters before it are
    not of the class. *)
Lemma search_chr (p : ascii -> bool) :
  forall s pos,
    match Regex.search (Regex.Chr p) pos s with
    | None => forallb (fun c => negb (p c)) s = true
    | Some m =>
        pos <= Regex.m_start m /\ Regex.m_end m = S (Regex.m_start m)
        /\ Regex.m_start m < pos + List.length s
        /\ forallb (fun c => negb (p c)) (firstn (Regex.m_start m - pos) s) = true
    end.
Proof.
  induction s as [|a s IH]; intro pos; [reflexivity|].
  rewrite search_chr_cons. destruct (p a) eqn:Ha.
  - simpl. rewrite Nat.sub_diag. repeat split; simpl; lia.
  - specialize (IH (S pos)).
    destruct (Regex.search (Regex.Chr p) (S pos) s) as [m|].
    + destruct IH as [B1 [B2 [B3 B4]]]. repeat split; simpl; try lia.
      replace (Regex.m_start m - pos) with (S (Regex.m_start m - S pos)) by lia.
      simpl. now rewrite Ha.
    + simpl. now rewrite Ha.
Qed.

(** Removing every character of a class leaves none. *)
Lemma replace_from_chr (p : ascii -> bool) :
  forall fuel pos s,
    List.length s < fuel ->
    forallb (fun c => negb (p c)) (Regex.replace_from fuel (Regex.Chr p) [] pos s) = true.
Proof.
  induction fuel as [|fuel IH]; intros pos s Hfuel; [lia|].
  simpl. pose proof (search_chr p s pos) as Hs.
  destruct (Regex.search (Regex.Chr p) pos s) as [m|]; [|exact Hs].
  destruct Hs as [B1 [B2 [B3 B4]]].
  replace (Nat.eqb (Regex.m_end m) (Regex.m_start m)) with false
    by (symmetry; apply Nat.eqb_neq; lia).
  rewrite forallb_app, B4. simpl. apply IH.
  rewrite length_skipn. lia.
Qed.

Lemma all_chars_of_list (q : ascii -> bool) (l : list ascii) :
  all_chars q (string_of_list_ascii l) = forallb q l.
Proof. unfold all_chars. now rewrite list_ascii_of_string_of_list_ascii. Qed.

Lemma replaceAll_quotes (s : string) :
  quote_free (Regex.replaceAll Intent.re_quotes "" s) = true.
Proof.
  unfold quote_free, Regex.replaceAll. rewrite all_chars_of_list.
  apply (replace_from_chr is_quote). lia.
Qed.

Lemma replaceAll_all_chars (q : ascii -> bool) (r : Regex.re) (rep s : string) :
  all_chars q rep = true -> all_chars q s = true ->
  all_chars q (Regex.replaceAll r rep s) = true.
Proof.
  intros Hrep Hs. unfold Regex.replaceAll. rewrite all_chars_of_list.
  now apply replace_from_forallb.
Qed.

Lemma replace_all_chars (q : ascii -> bool) (r : Regex.re) (rep s : string) :
  all_chars q rep = true -> all_chars q s = true ->
  all_chars q (Regex.replace r rep s) = true.
Proof.
  intros Hrep Hs. unfold Regex.replace.
  destruct (Regex.search r 0 (list_ascii_of_string s)) as [m|]; [|exact Hs].
  rewrite all_chars_of_list, !forallb_app.
  rewrite forallb_firstn, forallb_skipn by exact Hs.
  unfold all_chars in Hrep. now rewrite Hrep.
Qed.

Lemma trimStart_all_chars (q : ascii -> bool) (s : string) :
  all_chars q s = true -> all_chars q (JsString.trimStart s) = true.
Proof.
  unfold all_chars. induction s as [|c s IH]; [reflexivity|].
  intro Hs. simpl. destruct (JsString.is_space c); [|exact Hs].
  simpl in Hs. apply andb_prop in Hs as [_ Hs]. now apply IH.
Qed.

Lemma trimEnd_all_chars (q : ascii -> bool) (s : string) :
  all_chars q s = true -> all_chars q (JsString.trimEnd s) = true.
Proof.
  unfold all_chars. induction s as [|c s IH]; [reflexivity|].
  intro Hs. simpl in Hs. apply andb_prop in Hs as [Hc Hs]. specialize (IH Hs).
  simpl. destruct (JsString.trimEnd s) as [|c' r].
  - destruct (JsString.is_space c); [reflexivity|]. simpl. now rewrite Hc.
  - simpl in *. now rewrite Hc.
Qed.

Lemma trim_all_chars (q : ascii -> bool) (s : string) :
  all_chars q s = true -> all_chars q (JsString.trim s) = true.
Proof. intro Hs. now apply trimEnd_all_chars, trimStart_all_chars. Qed.

Lemma exec_all_chars (q : ascii -> bool) (r : Regex.re) (s matched : string)
  (groups : nat -> option string) :
  all_chars q s = true -> Regex.exec r s = Some (matched, groups) ->
  all_chars q matched = true.
Proof.
  unfold Regex.exec. intros Hs.
  destruct (Regex.search r 0 (list_ascii_of_string s)) as [m|]; [|discriminate].
  intros [= <- _]. rewrite all_chars_of_list.
  now apply forallb_firstn, forallb_skipn.
Qed.

Lemma toLowerCase_lower_cased (s : string) : lower_cased (JsString.toLowerCase s) = true.
Proof.
  unfold lower_cased, all_chars. induction s as [|c s IH]; [reflexivity|].
  simpl. rewrite IH, andb_true_r.
  destruct c as [[] [] [] [] [] [] [] []]; reflexivity.
Qed.

Lemma trimEnd_trimEnd (s : string) : JsString.trimEnd (JsString.trimEnd s) = JsString.trimEnd s.
Proof.
  induction s as [|c s IH]; [reflexivity|].
  simpl. destruct (JsString.trimEnd s) as [|c' r] eqn:E.
  - destruct (JsString.is_space c) eqn:Hc; [reflexivity|]. simpl. now rewrite Hc.
  - simpl. simpl in IH. now rewrite IH.
Qed.

Lemma trim_trim (s : string) : JsString.trim (JsString.trim s) = JsString.trim s.
Proof.
  unfold JsString.trim.
  assert (forall y, JsString.trimStart y = y ->
                    JsString.trimStart (JsString.trimEnd y) = JsString.trimEnd y) as Hkeep.
  { intros [|c y] Hy; [reflexivity|].
    simpl in Hy. destruct (JsString.is_space c) eqn:Hc.
    - exfalso. clear - Hy.
      assert (forall z, String.length (JsString.trimStart z) <= String.length z) as L.
      { induction z as [|d z IH]; simpl; [lia|].
        destruct (JsString.is_space d); simpl; lia. }
      pose proof (L y) as Ly. rewrite Hy in Ly. simpl in Ly. lia.
    - simpl. destruct (JsString.trimEnd y); simpl; rewrite ?Hc; simpl; rewrite ?Hc;
        reflexivity. }
  assert (forall x, JsString.trimStart (JsString.trimStart x) = JsString.trimStart x)
    as Hstart.
  { induction x as [|c x IH]; [reflexivity|].
    simpl. destruct (JsString.is_space c) eqn:Hc; [exact IH|]. simpl. now rewrite Hc. }
  rewrite (Hkeep _ (Hstart s)). apply trimEnd_trimEnd.
Qed.

(** X20. The text arguments of the two main tools are cleaned.  Whatever
    the message, the [query] sent to [search_artwork] and the
    [objectNumber] sent to [get_artwork_details] are strings that hold no
    double quote and no apostrophe; the [objectNumber] has no white space
    at either end; a search always asks for a page of 10. *)
Theorem extracted_text_is_clean (message : string) (tool : MCPTool) :
  (name tool = "search_artwork" ->
   exists query,
     argument "query" (Intent.extractToolArgs message tool) = Some (JStr query)
     /\ quote_free query = true
     /\ argument "pageSize" (Intent.extractToolArgs message tool) = Some (JNum 10))
  /\ (name tool = "get_artwork_details" ->
      exists objectNumber,
        Intent.extractToolArgs message tool = [("objectNumber", Some (JStr objectNumber))]
        /\ quote_free objectNumber = true
        /\ JsString.trim objectNumber = objectNumber).
Proof.
  split; intro Hname; unfold Intent.extractToolArgs; rewrite Hname.
  - change (String.eqb "search_artwork" "search_artwork") with true. cbv iota.
    set (searchQuery := JsString.trim _).
    assert (quote_free searchQuery = true) as Hq.
    { apply trim_all_chars, replaceAll_all_chars; [reflexivity|].
      apply replaceAll_quotes. }
    destruct (Regex.exec Intent.re_object_number searchQuery) as [[objectNumber g]|] eqn:E.
    + exists objectNumber. repeat split; try reflexivity.
      exact (exec_all_chars _ _ _ _ _ Hq E).
    + exists searchQuery. repeat split; try reflexivity. exact Hq.
  - change (String.eqb "get_artwork_details" "search_artwork") with false.
    change (String.eqb "get_artwork_details" "get_artwork_details") with true. cbv iota.
    eexists. split; [reflexivity|]. split.
    + apply trim_all_chars, replaceAll_quotes.
    + apply trim_trim.
Qed.

Lemma extracted_text_is_clean_witness :
  exists objectNumber,
    Intent.extractToolArgs "details about 'SK-C-5' " (mkTool "get_artwork_details" None None)
    = [("objectNumber", Some (JStr objectNumber))]
    /\ quote_free objectNumber = true
    /\ JsString.trim objectNumber = objectNumber.
Proof.
  apply (proj2 (@extracted_text_is_clean "details about 'SK-C-5' "
                  (mkTool "get_artwork_details" None None))).
  reflexivity.
Defined.

(** X21. A search is sent in lower case.  Whatever the message, the
    [query] sent to [search_artwork] holds no upper-case letter: the message
    is lower-cased before the query is cut out of it, so an object number
    typed as SK-C-5 is sent as sk-c-5. *)
Theorem search_query_is_lower_cased (message : string) (tool : MCPTool) :
  name tool = "search_artwork" ->
  exists query,
    argument "query" (Intent.extractToolArgs message tool) = Some (JStr query)
    /\ lower_cased query = true.
Proof.
  intro Hname. unfold Intent.extractToolArgs. rewrite Hname.
  change (String.eqb "search_artwork" "search_artwork") with true. cbv iota.
  set (searchQuery := JsString.trim _).
  assert (lower_cased searchQuery = true) as Hq.
  { unfold lower_cased.
    apply trim_all_chars, replaceAll_all_chars; [reflexivity|].
    apply replaceAll_all_chars; [reflexivity|].
    apply replaceAll_all_chars; [reflexivity|].
    apply replace_all_chars; [reflexivity|].
    apply toLowerCase_lower_cased. }
  destruct (Regex.exec Intent.re_object_number searchQuery) as [[objectNumber g]|] eqn:E.
  - exists objectNumber. split; [reflexivity|].
    exact (exec_all_chars _ _ _ _ _ Hq E).
  - exists searchQuery. split; [reflexivity|exact Hq].
Qed.

Lemma search_query_is_lower_cased_witness :
  Intent.extractToolArgs "Find SK-C-5" search_tool
  = [("query", Some (JStr "sk-c-5")); ("pageSize", Some (JNum 10))]
  /\ exists query,
       argument "query" (Intent.extractToolArgs "Find SK-C-5" search_tool)
       = Some (JStr query)
       /\ lower_cased query = true.
Proof.
  split; [vm_compute; reflexivity|].
  apply (@search_query_is_lower_cased "Find SK-C-5" search_tool). reflexivity.
Defined.

(* ================================================================== *)
(** * The summaries of the direct actions *)
(* ================================================================== *)

Lemma truthy_readable (a : json) (k : string) :
  Js.truthy (Js.get_opt (Some a) k) = true -> readable a = true.
Proof. destruct a; try reflexivity. discriminate. Qed.

Lemma openImageInBrowser_run (H : Host) (imageUrl : jsval) (w : World) :
  openImageInBrowser H imageUrl w
  = (Returned tt, snd (callTool H "open_image_in_browser" [("imageUrl", imageUrl)] 0 w)).
Proof.
  unfold openImageInBrowser, try_catch, bind.
  now destruct (callTool H "open_image_in_browser" [("imageUrl", imageUrl)] 0 w)
    as [[r|t] w'].
Qed.

Lemma getArtworkDetails_returns (H : Host) (objectNumber : jsval) (w : World) :
  getArtworkDetails H objectNumber w
  = (Returned tt, snd (getArtworkDetails H objectNumber w)).
Proof.
  unfold getArtworkDetails, try_catch, bind.
  destruct (callTool H "get_artwork_details" [("objectNumber", objectNumber)] 0 w)
    as [[response|t] w1]; [|reflexivity].
  unfold read, lift, update, webContents_send.
  destruct (upsert H objectNumber response (recentArtworks w1)); [|reflexivity].
  simpl. now destruct (mainWindow w1).
Qed.

(** X22. The summary of a direct action does not depend on its outcome.
    When a message asks for the image of an artwork of the cache that has an
    [imageUrl], [extractAndExecuteActions] calls [open_image_in_browser] with
    that URL and then returns "I've opened the image of ..." whether or not
    the call succeeded; when a message asks for the details of an artwork of
    the cache (and is no image request), it runs [getArtworkDetails] for the
    [objectNumber] of that artwork and then returns "I've retrieved the
    details for ..." whether or not anything was retrieved.  The summary
    names the title and the artist of the entry; when one of them does not
    convert to a string, building the summary throws a TypeError, after the
    tool has been called.  The summary becomes the "Last action" line of
    the prompt. *)
Theorem direct_action_summary_ignores_outcome (H : Host) (message : string)
  (artwork : json) (w : World) :
  (requested re_show_image message w = Returned (Some artwork) ->
   Js.truthy (Js.get_opt (Some artwork) "imageUrl") = true ->
   extractAndExecuteActions H message w =
   (if nameable artwork then Returned (Some (opened_summary artwork))
    else Threw Js.cannot_convert,
    snd (callTool H "open_image_in_browser"
           [("imageUrl", Js.get_opt (Some artwork) "imageUrl")] 0 w)))
  /\ (Regex.exec re_show_image (JsString.toLowerCase message) = None ->
      requested re_tell_details message w = Returned (Some artwork) ->
      Js.truthy (Some artwork) = true ->
      extractAndExecuteActions H message w =
      (if nameable artwork then Returned (Some (retrieved_summary artwork))
       else Threw Js.cannot_convert,
       snd (getArtworkDetails H (Js.get_opt (Some artwork) "objectNumber") w))).
Proof.
  split.
  - intros Hfound Hurl. pose proof (truthy_readable artwork "imageUrl" Hurl) as Hr.
    unfold requested in Hfound.
    unfold extractAndExecuteActions, try_open_image.
    destruct (Regex.exec re_show_image (JsString.toLowerCase message)) as [m|];
      [|discriminate].
    unfold find_recent. unfold bind at 1. unfold bind at 1. unfold bind at 1.
    unfold read at 1, lift at 1. rewrite Hfound, Hurl.
    unfold bind, lift. rewrite !(get_readable artwork _ Hr).
    rewrite openImageInBrowser_run, !to_string_spec. unfold nameable, opened_summary.
    destruct (convertible (Js.get_opt (Some artwork) "title")); [|reflexivity].
    now destruct (convertible (Js.get_opt (Some artwork) "artist")).
  - intros Hnone Hfound Htruthy.
    assert (readable artwork = true) as Hr by now destruct artwork.
    unfold requested in Hfound.
    unfold extractAndExecuteActions, try_open_image, try_get_details. rewrite Hnone.
    destruct (Regex.exec re_tell_details (JsString.toLowerCase message)) as [m|];
      [|discriminate].
    unfold find_recent. unfold bind at 1. unfold ret at 1.
    unfold bind at 1. unfold bind at 1.
    unfold read at 1, lift at 1. rewrite Hfound, Htruthy.
    unfold bind, lift. rewrite !(get_readable artwork _ Hr).
    rewrite getArtworkDetails_returns, !to_string_spec.
    unfold nameable, retrieved_summary.
    destruct (convertible (Js.get_opt (Some artwork) "title")); [|reflexivity].
    now destruct (convertible (Js.get_opt (Some artwork) "artist")).
Qed.

Lemma direct_action_summary_ignores_outcome_witness :
  extractAndExecuteActions host_500 "show the image of the night watch" with_night_watch
  = (Returned (Some (opened_summary night_watch)),
     snd (callTool host_500 "open_image_in_browser"
            [("imageUrl", Some (JStr "https://example.org/nw.jpg"))] 0 with_night_watch))
  /\ fails (callTool host_500 "open_image_in_browser"
              [("imageUrl", Some (JStr "https://example.org/nw.jpg"))] 0 with_night_watch)
  /\ fst (extractAndExecuteActions host_404 "give me details about the milkmaid"
            (set_recentArtworks (JArr [odd_artist]) with_night_watch))
     = Threw Js.cannot_convert.
Proof.
  split; [|split].
  - apply (proj1 (@direct_action_summary_ignores_outcome host_500
                    "show the image of the night watch" night_watch with_night_watch));
      vm_compute; reflexivity.
  - exists retries_exhausted. vm_compute. reflexivity.
  - rewrite (proj2 (@direct_action_summary_ignores_outcome host_404
                      "give me details about the milkmaid" odd_artist
                      (set_recentArtworks (JArr [odd_artist]) with_night_watch)));
      vm_compute; reflexivity.
Defined.
